(** * One-time passwords (HOTP / TOTP): a shallow embedding of package [otp]

    The development follows the Go sources of the package:
    - [otp.go]      : [Config], [generateOTP] (HMAC, dynamic truncation)
    - the HOTP file : [GenerateHOTP], [GenerateHOTPAt], [ValidateHOTP]
    - the TOTP file : [GenerateTOTPAt], [ValidateTOTPAt], the time queries
                      and [GenerateTOTPBatch]
    - the URL file  : [OTPAuthURL], [ParseOTPAuthURL] and the QR-code URLs
    - the secret file : [decodeSecret], [ValidateSecret]
    - the backup-code file : [ValidateBackupCode]

    Go's fixed-width integers are integers of [Z] with the wrap-around
    written out; [int] is taken to be 64 bits wide (the gc compiler on
    amd64 and arm64).  Strings are byte strings ([string] of 8-bit [ascii]).
    Methods with a pointer receiver are computations over a world made of
    the receiver and the wall clock.  The parts of Go's standard library
    the package calls (crypto/hmac, crypto/sha*, encoding/base32, strconv,
    fmt, net/url) are modelled in the modules that come first.

    strings.ToUpper and strings.ToLower work byte by byte on a text of
    ASCII bytes, and hand any other text to strings.Map with the case
    mappings of package unicode.  The tables of that package are not
    reproduced here: the development is parametric in the two mappings
    (class [Unicode]), and what is proved holds for every choice of them,
    the one of Go included. *)

From Stdlib Require Import ZArith List String Ascii Bool Lia Arith.
Import ListNotations.
Local Open Scope string_scope.
Local Open Scope list_scope.
Local Open Scope Z_scope.

(* ===================================================================== *)
(** ** Fixed-width integers *)

Module GoInt.

Definition max_int64 : Z := 2 ^ 63 - 1.
Definition min_int64 : Z := - 2 ^ 63.

(** Unsigned wrap-around at [w] bits. *)
Definition wrapu (w : Z) (x : Z) : Z := x mod 2 ^ w.

(** Signed (two's complement) wrap-around at 64 bits. *)
Definition wrap_int64 (x : Z) : Z := (x + 2 ^ 63) mod 2 ^ 64 - 2 ^ 63.

Definition uint64 (x : Z) : Z := wrapu 64 x.
Definition uint32 (x : Z) : Z := wrapu 32 x.

Definition u64_add (a b : Z) : Z := wrapu 64 (a + b).
Definition int_add (a b : Z) : Z := wrap_int64 (a + b).
Definition int_sub (a b : Z) : Z := wrap_int64 (a - b).
Definition int_mul (a b : Z) : Z := wrap_int64 (a * b).
Definition int_neg (a : Z) : Z := wrap_int64 (- a).

(** Go's integer division truncates toward zero. *)
Definition int_quo (a b : Z) : Z := wrap_int64 (Z.quot a b).
Definition int_rem (a b : Z) : Z := Z.rem a b.

Definition is_int64 (x : Z) : Prop := min_int64 <= x <= max_int64.
Definition is_uint64 (x : Z) : Prop := 0 <= x < 2 ^ 64.

End GoInt.

(* ===================================================================== *)
(** ** Bytes and words *)

Module Bytes.

(** A byte is an integer in [0, 256). *)
Definition of_ascii (a : ascii) : Z := Z.of_N (N_of_ascii a).

Fixpoint of_string (s : string) : list Z :=
  match s with
  | EmptyString => []
  | String a s' => of_ascii a :: of_string s'
  end.

(** [n] bytes of [x], most significant first (encoding/binary BigEndian). *)
Fixpoint be_bytes (n : nat) (x : Z) : list Z :=
  match n with
  | O => []
  | S n' => Z.shiftr x (8 * Z.of_nat n') mod 256 :: be_bytes n' x
  end.

Definition be_word (bs : list Z) : Z :=
  fold_left (fun acc b => acc * 256 + b) bs 0.

Fixpoint chunks (fuel n : nat) (l : list Z) : list (list Z) :=
  match fuel with
  | O => []
  | S fuel' =>
      match l with
      | [] => []
      | _ => firstn n l :: chunks fuel' n (skipn n l)
      end
  end.

Definition xor_with (c : Z) (l : list Z) : list Z :=
  map (fun b => Z.lxor b c) l.

End Bytes.

(* ===================================================================== *)
(** ** crypto/sha1, crypto/sha256, crypto/sha512 and crypto/hmac *)

Module Sha.
Import Bytes.

Definition mask (w x : Z) : Z := Z.land x (Z.ones w).
Definition rotl (w n x : Z) : Z :=
  mask w (Z.lor (Z.shiftl x n) (Z.shiftr x (w - n))).
Definition rotr (w n x : Z) : Z := rotl w (w - n) x.
Definition add (w : Z) (a b : Z) : Z := mask w (a + b).

(** Message padding: a one bit, zeros, then the bit length on [lenb]
    bytes, up to a multiple of [block] bytes. *)
Definition pad (block lenb : nat) (msg : list Z) : list Z :=
  let len := Z.of_nat (List.length msg) in
  let k := (- (len + 1 + Z.of_nat lenb)) mod Z.of_nat block in
  msg ++ [128] ++ repeat 0 (Z.to_nat k) ++ be_bytes lenb (8 * len).

Definition words (wb : nat) (blockbytes : list Z) : list Z :=
  map be_word (chunks (List.length blockbytes) wb blockbytes).

(** *** SHA-1 *)

Definition sha1_init : Z * Z * Z * Z * Z :=
  (0x67452301, 0xEFCDAB89, 0x98BADCFE, 0x10325476, 0xC3D2E1F0).

(** The message schedule; [w] holds the words so far, latest first. *)
Fixpoint sha1_schedule (n : nat) (w : list Z) : list Z :=
  match n with
  | O => rev w
  | S n' =>
      let x := Z.lxor (Z.lxor (nth 2 w 0) (nth 7 w 0))
                      (Z.lxor (nth 13 w 0) (nth 15 w 0)) in
      sha1_schedule n' (rotl 32 1 x :: w)
  end.

Definition sha1_round (st : Z * Z * Z * Z * Z) (tw : nat * Z)
  : Z * Z * Z * Z * Z :=
  let '(a, b, c, d, e) := st in
  let '(t, w) := tw in
  let '(f, k) :=
    if (t <? 20)%nat then
      (Z.lor (Z.land b c) (Z.land (mask 32 (Z.lnot b)) d), 0x5A827999)
    else if (t <? 40)%nat then
      (Z.lxor (Z.lxor b c) d, 0x6ED9EBA1)
    else if (t <? 60)%nat then
      (Z.lor (Z.lor (Z.land b c) (Z.land b d)) (Z.land c d), 0x8F1BBCDC)
    else
      (Z.lxor (Z.lxor b c) d, 0xCA62C1D6) in
  let temp := add 32 (add 32 (add 32 (add 32 (rotl 32 5 a) f) e) k) w in
  (temp, a, rotl 32 30 b, c, d).

Definition sha1_block (st : Z * Z * Z * Z * Z) (blk : list Z)
  : Z * Z * Z * Z * Z :=
  let w := sha1_schedule 64 (rev (words 4 blk)) in
  let '(a, b, c, d, e) := fold_left sha1_round (combine (seq 0 80) w) st in
  let '(h0, h1, h2, h3, h4) := st in
  (add 32 h0 a, add 32 h1 b, add 32 h2 c, add 32 h3 d, add 32 h4 e).

Definition sha1 (msg : list Z) : list Z :=
  let p := pad 64 8 msg in
  let '(h0, h1, h2, h3, h4) :=
    fold_left sha1_block (chunks (List.length p) 64 p) sha1_init in
  be_bytes 4 h0 ++ be_bytes 4 h1 ++ be_bytes 4 h2 ++ be_bytes 4 h3
    ++ be_bytes 4 h4.

(** *** SHA-2, generic in the word size *)

Record sha2_params := {
  wbits : Z;                     (* word size in bits *)
  wbytes : nat;                  (* word size in bytes *)
  rounds : nat;
  big0 : Z * Z * Z;              (* rotations of Sigma0 *)
  big1 : Z * Z * Z;              (* rotations of Sigma1 *)
  small0 : Z * Z * Z;            (* sigma0: two rotations and a shift *)
  small1 : Z * Z * Z;            (* sigma1: two rotations and a shift *)
  kconst : list Z;
  hinit : Z * Z * Z * Z * Z * Z * Z * Z
}.

Definition Sigma (p : sha2_params) (r : Z * Z * Z) (x : Z) : Z :=
  let '(r1, r2, r3) := r in
  Z.lxor (Z.lxor (rotr (wbits p) r1 x) (rotr (wbits p) r2 x))
         (rotr (wbits p) r3 x).

Definition sigma (p : sha2_params) (r : Z * Z * Z) (x : Z) : Z :=
  let '(r1, r2, s) := r in
  Z.lxor (Z.lxor (rotr (wbits p) r1 x) (rotr (wbits p) r2 x))
         (Z.shiftr x s).

Fixpoint sha2_schedule (p : sha2_params) (n : nat) (w : list Z) : list Z :=
  match n with
  | O => rev w
  | S n' =>
      let x := add (wbits p)
                 (add (wbits p) (sigma p (small1 p) (nth 1 w 0)) (nth 6 w 0))
                 (add (wbits p) (sigma p (small0 p) (nth 14 w 0)) (nth 15 w 0)) in
      sha2_schedule p n' (x :: w)
  end.

Definition sha2_round (p : sha2_params)
    (st : Z * Z * Z * Z * Z * Z * Z * Z) (kw : Z * Z)
  : Z * Z * Z * Z * Z * Z * Z * Z :=
  let '(a, b, c, d, e, f, g, h) := st in
  let '(k, w) := kw in
  let ch := Z.lxor (Z.land e f) (Z.land (mask (wbits p) (Z.lnot e)) g) in
  let maj := Z.lxor (Z.lxor (Z.land a b) (Z.land a c)) (Z.land b c) in
  let t1 := add (wbits p) (add (wbits p) (add (wbits p)
              (add (wbits p) h (Sigma p (big1 p) e)) ch) k) w in
  let t2 := add (wbits p) (Sigma p (big0 p) a) maj in
  (add (wbits p) t1 t2, a, b, c, add (wbits p) d t1, e, f, g).

Definition sha2_block (p : sha2_params)
    (st : Z * Z * Z * Z * Z * Z * Z * Z) (blk : list Z)
  : Z * Z * Z * Z * Z * Z * Z * Z :=
  let w := sha2_schedule p (rounds p - 16) (rev (words (wbytes p) blk)) in
  let '(a, b, c, d, e, f, g, h) :=
    fold_left (sha2_round p) (combine (kconst p) w) st in
  let '(h0, h1, h2, h3, h4, h5, h6, h7) := st in
  let ad := add (wbits p) in
  (ad h0 a, ad h1 b, ad h2 c, ad h3 d, ad h4 e, ad h5 f, ad h6 g, ad h7 h).

Definition sha2 (p : sha2_params) (msg : list Z) : list Z :=
  let bs := (16 * wbytes p)%nat in
  let pd := pad bs (2 * wbytes p) msg in
  let '(h0, h1, h2, h3, h4, h5, h6, h7) :=
    fold_left (sha2_block p) (chunks (List.length pd) bs pd) (hinit p) in
  let be := be_bytes (wbytes p) in
  be h0 ++ be h1 ++ be h2 ++ be h3 ++ be h4 ++ be h5 ++ be h6 ++ be h7.

(** The constants of SHA-2 are fractional parts of roots of the first
    primes: square roots for the initial state, cube roots for the round
    constants (FIPS 180-4, sections 4.2 and 5.3). *)

(** The integer [k]-th root of [n], by bisection between [lo] and [hi]. *)
Fixpoint iroot_aux (fuel : nat) (k n lo hi : Z) : Z :=
  match fuel with
  | O => lo
  | S fuel' =>
      if hi - lo <=? 1 then lo
      else
        let m := (lo + hi) / 2 in
        if m ^ k <=? n then iroot_aux fuel' k n m hi
        else iroot_aux fuel' k n lo m
  end.

Definition iroot (k n : Z) : Z :=
  iroot_aux 400 k n 0 (2 ^ (Z.log2 n / k + 1)).

(** The first [bits] bits of the fractional part of the [k]-th root of [p]. *)
Definition frac_root (bits k p : Z) : Z :=
  iroot k (p * 2 ^ (bits * k)) mod 2 ^ bits.

Definition is_prime (n : Z) : bool :=
  forallb (fun d => negb (n mod Z.of_nat d =? 0)) (seq 2 (Z.to_nat n - 2)).

Definition primes : list Z :=
  Eval vm_compute in filter is_prime (map Z.of_nat (seq 2 408)).

Definition octuple (l : list Z) : Z * Z * Z * Z * Z * Z * Z * Z :=
  let v i := nth i l 0 in
  (v 0%nat, v 1%nat, v 2%nat, v 3%nat, v 4%nat, v 5%nat, v 6%nat, v 7%nat).

Definition sha256_k : list Z :=
  Eval vm_compute in map (frac_root 32 3) (firstn 64 primes).
Definition sha256_h : Z * Z * Z * Z * Z * Z * Z * Z :=
  Eval vm_compute in octuple (map (frac_root 32 2) primes).
Definition sha512_k : list Z :=
  Eval vm_compute in map (frac_root 64 3) (firstn 80 primes).
Definition sha512_h : Z * Z * Z * Z * Z * Z * Z * Z :=
  Eval vm_compute in octuple (map (frac_root 64 2) primes).

Definition sha256_params : sha2_params := {|
  wbits := 32; wbytes := 4; rounds := 64;
  big0 := (2, 13, 22); big1 := (6, 11, 25);
  small0 := (7, 18, 3); small1 := (17, 19, 10);
  kconst := sha256_k;
  hinit := sha256_h
|}.

Definition sha512_params : sha2_params := {|
  wbits := 64; wbytes := 8; rounds := 80;
  big0 := (28, 34, 39); big1 := (14, 18, 41);
  small0 := (1, 8, 7); small1 := (19, 61, 6);
  kconst := sha512_k;
  hinit := sha512_h
|}.

Definition sha256 : list Z -> list Z := sha2 sha256_params.
Definition sha512 : list Z -> list Z := sha2 sha512_params.

(** *** HMAC (RFC 2104), as crypto/hmac computes it *)

Definition hmac (H : list Z -> list Z) (block : nat) (key msg : list Z)
  : list Z :=
  let key1 := if (block <? List.length key)%nat then H key else key in
  let key2 := key1 ++ repeat 0 (block - List.length key1) in
  H (xor_with 0x5c key2 ++ H (xor_with 0x36 key2 ++ msg)).

End Sha.

(* ===================================================================== *)
(** ** strings, strconv and fmt *)

(** What strings.ToUpper and strings.ToLower do with a text that is not
    all ASCII: strings.Map(unicode.ToUpper, s) and
    strings.Map(unicode.ToLower, s), which decode the text as UTF-8 and
    map each rune through the case tables (an invalid byte is written
    back as U+FFFD). *)
Class Unicode : Type := {
  Map_ToUpper : string -> string;
  Map_ToLower : string -> string
}.

Module Strings.

Definition is_upper (a : ascii) : bool :=
  let n := N_of_ascii a in ((65 <=? n) && (n <=? 90))%N.
Definition is_lower (a : ascii) : bool :=
  let n := N_of_ascii a in ((97 <=? n) && (n <=? 122))%N.
Definition is_digit (a : ascii) : bool :=
  let n := N_of_ascii a in ((48 <=? n) && (n <=? 57))%N.

Definition upper_ascii (a : ascii) : ascii :=
  if is_lower a then ascii_of_N (N_of_ascii a - 32) else a.
Definition lower_ascii (a : ascii) : ascii :=
  if is_upper a then ascii_of_N (N_of_ascii a + 32) else a.

Fixpoint map_string (f : ascii -> ascii) (s : string) : string :=
  match s with
  | EmptyString => EmptyString
  | String a s' => String (f a) (map_string f s')
  end.

(** strings.ReplaceAll(s, c, ""), for a one-byte [c]. *)
Fixpoint remove_byte (c : ascii) (s : string) : string :=
  match s with
  | EmptyString => EmptyString
  | String a s' =>
      if Ascii.eqb a c then remove_byte c s' else String a (remove_byte c s')
  end.

(** strings.Cut(s, sep) for a one-byte separator: the text before the
    first [sep], the text after it, and whether [sep] was found. *)
Fixpoint Cut (sep : ascii) (s : string) : string * string * bool :=
  match s with
  | EmptyString => (EmptyString, EmptyString, false)
  | String a s' =>
      if Ascii.eqb a sep then (EmptyString, s', true)
      else let '(b, r, found) := Cut sep s' in (String a b, r, found)
  end.

Fixpoint contains_byte (c : ascii) (s : string) : bool :=
  match s with
  | EmptyString => false
  | String a s' => Ascii.eqb a c || contains_byte c s'
  end.

Fixpoint forall_bytes (p : ascii -> bool) (s : string) : bool :=
  match s with
  | EmptyString => true
  | String a s' => p a && forall_bytes p s'
  end.

(** No byte of [s] is utf8.RuneSelf (0x80) or more. *)
Definition is_ascii (s : string) : bool :=
  forall_bytes (fun a => (N_of_ascii a <? 128)%N) s.

(** strings.ToUpper: a text of ASCII bytes is mapped byte by byte (the
    letters a-z are moved to A-Z); any other text goes through
    strings.Map(unicode.ToUpper, s). *)
Definition ToUpper {U : Unicode} (s : string) : string :=
  if is_ascii s then map_string upper_ascii s else Map_ToUpper s.

(** strings.ToLower, likewise. *)
Definition ToLower {U : Unicode} (s : string) : string :=
  if is_ascii s then map_string lower_ascii s else Map_ToLower s.

Fixpoint count_byte (c : ascii) (s : string) : nat :=
  match s with
  | EmptyString => O
  | String a s' => ((if Ascii.eqb a c then 1 else 0) + count_byte c s')%nat
  end.

Fixpoint last_byte (s : string) : option ascii :=
  match s with
  | EmptyString => None
  | String a EmptyString => Some a
  | String _ s' => last_byte s'
  end.

Fixpoint drop_last (s : string) : string :=
  match s with
  | EmptyString => EmptyString
  | String a EmptyString => EmptyString
  | String a s' => String a (drop_last s')
  end.

(** strings.TrimPrefix(s, "/"). *)
Definition TrimPrefix_slash (s : string) : string :=
  match s with
  | String "/" s' => s'
  | _ => s
  end.

(** strings.SplitN(s, ":", 2): one part when there is no colon, else the
    text before the first colon and the whole text after it. *)
Definition SplitN2_colon (s : string) : list string :=
  let '(a, b, found) := Cut ":" s in
  if found then [a; b] else [s].

Fixpoint join (sep : string) (l : list string) : string :=
  match l with
  | [] => EmptyString
  | [x] => x
  | x :: l' => x ++ sep ++ join sep l'
  end.

Fixpoint pad_left (c : ascii) (n : nat) (s : string) : string :=
  match n with
  | O => s
  | S n' => String c (pad_left c n' s)
  end.

End Strings.

Module Strconv.
Import Strings.

Definition digit_char (d : Z) : ascii := ascii_of_N (Z.to_N (48 + d mod 10)).

(** The decimal digits of a non-negative [n], most significant first; the
    fuel bounds the number of digits, 20 covering every 64-bit value. *)
Fixpoint digits_aux (fuel : nat) (n : Z) (acc : string) : string :=
  match fuel with
  | O => acc
  | S fuel' =>
      let acc' := String (digit_char n) acc in
      if n <? 10 then acc' else digits_aux fuel' (n / 10) acc'
  end.

(** strconv.FormatUint(n, 10). *)
Definition FormatUint (n : Z) : string := digits_aux 20 n EmptyString.

(** strconv.Itoa. *)
Definition Itoa (n : Z) : string :=
  if n <? 0 then String "-" (FormatUint (- n)) else FormatUint n.

(** fmt.Sprintf("%0<width>d", v) for a non-negative [v]: the decimal
    digits of [v], padded with zeros on the left up to [width] bytes. *)
Definition Sprintf_0d (width : Z) (v : Z) : string :=
  let s := FormatUint v in
  pad_left "0" (Z.to_nat width - String.length s) s.

Definition digit_val (a : ascii) : Z := Z.of_N (N_of_ascii a) - 48.

(** The value of a string of decimal digits; [None] on any other byte. *)
Fixpoint parse_digits (s : string) (acc : Z) : option Z :=
  match s with
  | EmptyString => Some acc
  | String a s' =>
      if is_digit a then parse_digits s' (acc * 10 + digit_val a) else None
  end.

(** strconv.ParseUint(s, 10, 64); [None] stands for a non-nil error
    (syntax or range). *)
Definition ParseUint (s : string) : option Z :=
  match s with
  | EmptyString => None
  | _ =>
      match parse_digits s 0 with
      | Some n => if n <? 2 ^ 64 then Some n else None
      | None => None
      end
  end.

(** strconv.Atoi; [None] stands for a non-nil error. *)
Definition Atoi (s : string) : option Z :=
  let '(neg, body) :=
    match s with
    | String a s' =>
        if Ascii.eqb a "-" then (true, s')
        else if Ascii.eqb a "+" then (false, s')
        else (false, s)
    | EmptyString => (false, s)
    end in
  match body with
  | EmptyString => None
  | _ =>
      match parse_digits body 0 with
      | Some n =>
          let v := if neg then - n else n in
          if (GoInt.min_int64 <=? v) && (v <=? GoInt.max_int64)
          then Some v else None
      | None => None
      end
  end.

End Strconv.

(* ===================================================================== *)
(** ** encoding/base32, StdEncoding.DecodeString *)

Module Base32.

(** The standard alphabet: A-Z then 2-7. *)
Definition decode_map (c : Z) : option Z :=
  if (65 <=? c) && (c <=? 90) then Some (c - 65)
  else if (50 <=? c) && (c <=? 55) then Some (c - 24)
  else None.

Definition pad_char : Z := 61.

(** One quantum of up to eight characters.  [j] characters are decoded so
    far (in [dbuf], latest first) and [k] = 8 - j remain.  The result is
    the decoded 5-bit values, whether padding ended the input, and the
    rest of the source; [None] is a CorruptInputError. *)
Fixpoint quantum (k j : nat) (src dbuf : list Z)
  : option (list Z * bool * list Z) :=
  match k with
  | O => Some (rev dbuf, false, src)
  | S k' =>
      match src with
      | [] => None
      | c :: src' =>
          if (c =? pad_char) && (2 <=? j)%nat && (List.length src' <? 8)%nat
          then
            if (List.length src' + j <? 7)%nat then None
            else if negb (forallb (fun x => x =? pad_char)
                                  (firstn (7 - j) src')) then None
            else if (j =? 3)%nat || (j =? 6)%nat then None
            else Some (rev dbuf, true, src')
          else
            match decode_map c with
            | None => None
            | Some v => quantum k' (S j) src' (v :: dbuf)
            end
      end
  end.

(** Packing of a quantum of [dlen] values into bytes. *)
Definition pack (d : list Z) : list Z :=
  let v i := nth i d 0 in
  let b0 := Z.lor (Z.shiftl (v 0%nat) 3) (Z.shiftr (v 1%nat) 2) mod 256 in
  let b1 := Z.lor (Z.lor (Z.shiftl (v 1%nat) 6) (Z.shiftl (v 2%nat) 1))
                  (Z.shiftr (v 3%nat) 4) mod 256 in
  let b2 := Z.lor (Z.shiftl (v 3%nat) 4) (Z.shiftr (v 4%nat) 1) mod 256 in
  let b3 := Z.lor (Z.lor (Z.shiftl (v 4%nat) 7) (Z.shiftl (v 5%nat) 2))
                  (Z.shiftr (v 6%nat) 3) mod 256 in
  let b4 := Z.lor (Z.shiftl (v 6%nat) 5) (v 7%nat) mod 256 in
  match List.length d with
  | 8%nat => [b0; b1; b2; b3; b4]
  | 7%nat => [b0; b1; b2; b3]
  | 5%nat => [b0; b1; b2]
  | 4%nat => [b0; b1]
  | 2%nat => [b0]
  | _ => []
  end.

Fixpoint decode (fuel : nat) (src : list Z) : option (list Z) :=
  match fuel with
  | O => Some []
  | S fuel' =>
      match src with
      | [] => Some []
      | _ =>
          match quantum 8 0 src [] with
          | None => None
          | Some (d, ended, rest) =>
              if ended then Some (pack d)
              else match decode fuel' rest with
                   | None => None
                   | Some out => Some (pack d ++ out)
                   end
          end
      end
  end.

(** Carriage returns and line feeds are skipped before decoding. *)
Definition DecodeString (s : string) : option (list Z) :=
  let src := filter (fun c => negb ((c =? 10) || (c =? 13)))
                    (Bytes.of_string s) in
  decode (List.length src) src.

End Base32.

(* ===================================================================== *)
(** ** net/url, as far as the package uses it

    [QueryEscape], [Values] with [Set], [Get] and [Encode], [Parse] and
    [Query].  Of a parsed URL the model keeps the scheme, the host, the
    path and the raw query.  [Parse] follows the generic syntax
    scheme://authority/path?query#fragment; the host is the text of the
    authority after the user information.  (Go also checks ports and
    escapes in the host; a host that it rejects or rewrites is neither of
    the two hosts the package accepts.) *)

Module Url.
Import Strings.

(** The bytes that QueryEscape leaves alone. *)
Definition unreserved (a : ascii) : bool :=
  is_upper a || is_lower a || is_digit a ||
  Ascii.eqb a "-" || Ascii.eqb a "_" || Ascii.eqb a "." || Ascii.eqb a "~".

Definition hex_char (n : N) : ascii :=
  if (n <? 10)%N then ascii_of_N (48 + n) else ascii_of_N (55 + n).

Definition unhex (a : ascii) : option N :=
  let n := N_of_ascii a in
  if is_digit a then Some (n - 48)%N
  else if ((97 <=? n) && (n <=? 102))%N then Some (n - 87)%N
  else if ((65 <=? n) && (n <=? 70))%N then Some (n - 55)%N
  else None.

(** url.QueryEscape: a space becomes '+', any other byte that is not
    unreserved becomes %XX. *)
Fixpoint QueryEscape (s : string) : string :=
  match s with
  | EmptyString => EmptyString
  | String a s' =>
      if unreserved a then String a (QueryEscape s')
      else if Ascii.eqb a " " then String "+" (QueryEscape s')
      else
        let n := N_of_ascii a in
        String "%" (String (hex_char (n / 16)) (String (hex_char (n mod 16))
          (QueryEscape s')))
  end.

(** The decoding of %XX escapes; in a query component a '+' is a space,
    in a path it stays a '+'.  [None] is an EscapeError. *)
Fixpoint unescape (plus_is_space : bool) (s : string) : option string :=
  match s with
  | EmptyString => Some EmptyString
  | String a s' =>
      if Ascii.eqb a "%" then
        match s' with
        | String h (String l s'') =>
            match unhex h, unhex l, unescape plus_is_space s'' with
            | Some x, Some y, Some r =>
                Some (String (ascii_of_N (16 * x + y)) r)
            | _, _, _ => None
            end
        | _ => None
        end
      else
        match unescape plus_is_space s' with
        | Some r =>
            Some (String (if plus_is_space && Ascii.eqb a "+" then " "%char
                          else a) r)
        | None => None
        end
  end.

Definition QueryUnescape : string -> option string := unescape true.
Definition PathUnescape : string -> option string := unescape false.

(** url.Values with single values: the pairs in the order of their keys
    when built with [Set], in the order of appearance when parsed. *)
Definition Values : Type := list (string * string).

Fixpoint Set_ (k v : string) (m : Values) : Values :=
  match m with
  | [] => [(k, v)]
  | (k', v') :: m' =>
      if String.eqb k k' then (k, v) :: m'
      else if String.ltb k k' then (k, v) :: m
      else (k', v') :: Set_ k v m'
  end.

Definition Get (k : string) (m : Values) : string :=
  match find (fun p => String.eqb (fst p) k) m with
  | Some (_, v) => v
  | None => EmptyString
  end.

(** Values.Encode: key=value pairs, escaped, joined by '&', sorted by key. *)
Definition Encode (m : Values) : string :=
  join "&" (map (fun p => QueryEscape (fst p) ++ "=" ++ QueryEscape (snd p))%string
                m).

(** The pieces of [s] between the occurrences of [sep]. *)
Fixpoint split_on (sep : ascii) (s : string) : list string :=
  match s with
  | EmptyString => [EmptyString]
  | String a s' =>
      if Ascii.eqb a sep then EmptyString :: split_on sep s'
      else
        match split_on sep s' with
        | x :: r => String a x :: r
        | [] => [String a EmptyString]
        end
  end.

(** One key=value setting of a query; settings with a semicolon, with an
    empty text or with a bad escape are skipped. *)
Definition parse_setting (kv : string) : Values :=
  if contains_byte ";" kv then []
  else
    match kv with
    | EmptyString => []
    | _ =>
        let '(k, v, _) := Cut "=" kv in
        match QueryUnescape k, QueryUnescape v with
        | Some k', Some v' => [(k', v')]
        | _, _ => []
        end
    end.

(** u.Query(): ParseQuery on the raw query, dropping its error. *)
Definition ParseQuery (query : string) : Values :=
  flat_map parse_setting (split_on "&" query).

Record URL : Type := {
  Scheme : string;
  Host : string;
  Path : string;
  RawQuery : string
}.

Definition is_ctl (a : ascii) : bool :=
  let n := N_of_ascii a in ((n <? 32) || (n =? 127))%N.

(** getScheme: [None] is the error "missing protocol scheme"; an empty
    scheme is returned when the text does not start with one. *)
Fixpoint getScheme_from (first : bool) (s acc : string) (whole : string)
  : option (string * string) :=
  match s with
  | EmptyString => Some (EmptyString, whole)
  | String a s' =>
      if is_upper a || is_lower a
      then getScheme_from false s' (acc ++ String a EmptyString)%string whole
      else if is_digit a || Ascii.eqb a "+" || Ascii.eqb a "-"
              || Ascii.eqb a "."
      then if first then Some (EmptyString, whole)
           else getScheme_from false s' (acc ++ String a EmptyString)%string
                  whole
      else if Ascii.eqb a ":"
      then if first then None else Some (acc, s')
      else Some (EmptyString, whole)
  end.

Definition getScheme (s : string) : option (string * string) :=
  getScheme_from true s EmptyString s.

Definition has_prefix_slash (s : string) : bool :=
  match s with
  | String a _ => Ascii.eqb a "/"
  | EmptyString => false
  end.

Definition has_prefix_2slash (s : string) : bool :=
  match s with
  | String a (String b _) => Ascii.eqb a "/" && Ascii.eqb b "/"
  | _ => false
  end.

Definition has_prefix_3slash (s : string) : bool :=
  match s with
  | String a s' => Ascii.eqb a "/" && has_prefix_2slash s'
  | _ => false
  end.

(** The bytes allowed in the user information of an authority. *)
Definition userinfo_char (a : ascii) : bool :=
  is_upper a || is_lower a || is_digit a ||
  contains_byte a "-._:~!$&'()*+,;=%@".

(** The position of the last '@': the text before it and after it. *)
Fixpoint cut_last_at (s : string) : option (string * string) :=
  match s with
  | EmptyString => None
  | String a s' =>
      match cut_last_at s' with
      | Some (u, h) => Some (String a u, h)
      | None => if Ascii.eqb a "@" then Some (EmptyString, s') else None
      end
  end.

(** parseAuthority: the host, or [None] for an invalid user information. *)
Definition parseAuthority (authority : string) : option string :=
  match cut_last_at authority with
  | None => Some authority
  | Some (userinfo, host) =>
      if forall_bytes userinfo_char userinfo then
        match unescape false userinfo with
        | Some _ => Some host
        | None => None
        end
      else None
  end.

(** url.Parse; [None] is an error. *)
Definition Parse {U : Unicode} (rawURL : string) : option URL :=
  let '(u, frag, _) := Cut "#" rawURL in
  match unescape false frag with
  | None => None
  | Some _ =>
      if negb (forall_bytes (fun a => negb (is_ctl a)) u) then None
      else
        match getScheme u with
        | None => None
        | Some (scheme, rest) =>
            let scheme := ToLower scheme in
            let '(rest, query) :=
              match last_byte rest with
              | Some a =>
                  if Ascii.eqb a "?" && (count_byte "?" rest =? 1)%nat
                  then (drop_last rest, EmptyString)
                  else let '(r, q, _) := Cut "?" rest in (r, q)
              | None => (rest, EmptyString)
              end in
            if negb (has_prefix_slash rest) then
              match scheme with
              | EmptyString =>
                  (* a first segment with a colon is an error *)
                  let '(segment, _, _) := Cut "/" rest in
                  if contains_byte ":" segment then None
                  else
                    match unescape false rest with
                    | Some path =>
                        Some {| Scheme := scheme; Host := EmptyString;
                                Path := path; RawQuery := query |}
                    | None => None
                    end
              | _ =>
                  (* an opaque URL: no host, no path *)
                  Some {| Scheme := scheme; Host := EmptyString;
                          Path := EmptyString; RawQuery := query |}
              end
            else
              let '(host, rest) :=
                if (negb (String.eqb scheme "")
                    || negb (has_prefix_3slash rest))
                   && has_prefix_2slash rest then
                  match rest with
                  | String _ (String _ after) =>
                      let '(authority, r, found) := Cut "/" after in
                      (parseAuthority authority,
                       if found then String "/" r else EmptyString)
                  | _ => (Some EmptyString, rest)
                  end
                else (Some EmptyString, rest) in
              match host, unescape false rest with
              | Some host, Some path =>
                  Some {| Scheme := scheme; Host := host; Path := path;
                          RawQuery := query |}
              | _, _ => None
              end
        end
  end.

End Url.

(* ===================================================================== *)
(** ** Package otp: data *)

(** [type Algorithm int] *)
Definition AlgorithmT : Type := Z.
Definition AlgorithmSHA1 : AlgorithmT := 0.
Definition AlgorithmSHA256 : AlgorithmT := 1.
Definition AlgorithmSHA512 : AlgorithmT := 2.

Definition Algorithm_String (a : AlgorithmT) : string :=
  if a =? AlgorithmSHA1 then "SHA1"
  else if a =? AlgorithmSHA256 then "SHA256"
  else if a =? AlgorithmSHA512 then "SHA512"
  else "SHA1".

Record Config : Type := {
  Secret : string;          (* base32 encoded *)
  Digits : Z;               (* int *)
  Algorithm : AlgorithmT;
  Period : Z;               (* int, seconds *)
  Counter : Z;              (* uint64 *)
  Issuer : string;
  AccountName : string
}.

Definition DefaultConfig : Config := {|
  Secret := ""; Digits := 6; Algorithm := AlgorithmSHA1; Period := 30;
  Counter := 0; Issuer := ""; AccountName := ""
|}.

Definition NewHOTP (secret issuer accountName : string) (digits counter : Z)
  : Config := {|
  Secret := secret; Digits := digits; Algorithm := AlgorithmSHA1;
  Period := 0; Counter := counter; Issuer := issuer;
  AccountName := accountName
|}.

Definition NewTOTP (secret issuer accountName : string) (digits period : Z)
  : Config := {|
  Secret := secret; Digits := digits; Algorithm := AlgorithmSHA1;
  Period := period; Counter := 0; Issuer := issuer;
  AccountName := accountName
|}.

(** The package's error values, base32's CorruptInputError, and the errors
    built by fmt.Errorf: a message ([Errorf]) and, with the verb %w, the
    wrapped error as well ([Errorf_w]). *)
Inductive error : Type :=
| ErrInvalidDigits
| ErrInvalidSecret
| ErrMissingSecret
| ErrMissingAccountName
| ErrInvalidAlgorithm
| ErrInvalidPeriod
| ErrInvalidCounter
| CorruptInputError
| Errorf (msg : string)
| Errorf_w (msg : string) (wrapped : error).

Definition error_eqb_leaf (a b : error) : bool :=
  match a, b with
  | ErrInvalidDigits, ErrInvalidDigits
  | ErrInvalidSecret, ErrInvalidSecret
  | ErrMissingSecret, ErrMissingSecret
  | ErrMissingAccountName, ErrMissingAccountName
  | ErrInvalidAlgorithm, ErrInvalidAlgorithm
  | ErrInvalidPeriod, ErrInvalidPeriod
  | ErrInvalidCounter, ErrInvalidCounter
  | CorruptInputError, CorruptInputError => true
  | _, _ => false
  end.

(** errors.Is against one of the sentinel errors: follow the %w chain. *)
Fixpoint errors_Is (e target : error) : bool :=
  match e with
  | Errorf_w _ e' => errors_Is e' target
  | Errorf _ => false
  | _ => error_eqb_leaf e target
  end.

(** time.Time, as the number of nanoseconds since the Unix epoch. *)
Definition Time : Type := Z.
Definition time_Second : Z := 10 ^ 9.
Definition Unix (t : Time) : Z := t / time_Second.            (* t.Unix() *)
Definition time_Unix (sec : Z) : Time := sec * time_Second.   (* time.Unix(sec, 0) *)
Definition time_Add (t : Time) (d : Z) : Time := t + d.       (* t.Add(d) *)

(** The zero value [time.Time{}], January 1 of year 1, 00:00:00 UTC. *)
Definition zero_Time : Time := time_Unix (-62135596800).

Record TOTPEntry : Type := {
  Code : string;
  ValidFrom : Time;
  ValidTo : Time;
  IsCurrent : bool
}.

Definition zero_TOTPEntry : TOTPEntry :=
  {| Code := ""; ValidFrom := zero_Time; ValidTo := zero_Time;
     IsCurrent := false |}.

(* ===================================================================== *)
(** ** Computations on a receiver

    A method on [*Config] runs in a world that holds the receiver and the
    wall clock (the readings that successive calls of time.Now return).
    A computation returns a value, panics, or is cut by the fuel of a
    loop. *)

Inductive panic : Type := DivideByZero | IndexOutOfRange.

Inductive outcome (A : Type) : Type :=
| Ret (a : A)
| Panicked (p : panic)
| OutOfFuel.
Arguments Ret {A} a.
Arguments Panicked {A} p.
Arguments OutOfFuel {A}.

Record World : Type := { self : Config; clock : nat -> Time }.

Definition M (A : Type) : Type := World -> outcome A * World.

Definition ret {A} (a : A) : M A := fun w => (Ret a, w).

Definition bind {A B} (m : M A) (k : A -> M B) : M B :=
  fun w =>
    match m w with
    | (Ret a, w') => k a w'
    | (Panicked p, w') => (Panicked p, w')
    | (OutOfFuel, w') => (OutOfFuel, w')
    end.

Notation "x <- m ;; k" := (bind m (fun x => k))
  (at level 61, m at next level, right associativity).
Notation "' pat <- m ;; k" := (bind m (fun x => match x with pat => k end))
  (at level 61, pat pattern, m at next level, right associativity).
Notation "m ;;; k" := (bind m (fun _ => k))
  (at level 61, right associativity).

Definition throw {A} (p : panic) : M A := fun w => (Panicked p, w).
Definition out_of_fuel {A} : M A := fun w => (OutOfFuel, w).

(** Reading the receiver, and the assignments [c.Period = p] and
    [c.Counter = n], the only ones the package makes through a receiver. *)
Definition get_self : M Config := fun w => (Ret (self w), w).

Definition with_Period (c : Config) (p : Z) : Config :=
  {| Secret := Secret c; Digits := Digits c; Algorithm := Algorithm c;
     Period := p; Counter := Counter c; Issuer := Issuer c;
     AccountName := AccountName c |}.

Definition with_Counter (c : Config) (n : Z) : Config :=
  {| Secret := Secret c; Digits := Digits c; Algorithm := Algorithm c;
     Period := Period c; Counter := n; Issuer := Issuer c;
     AccountName := AccountName c |}.

Definition set_Period (p : Z) : M unit :=
  fun w => (Ret tt, {| self := with_Period (self w) p; clock := clock w |}).

Definition set_Counter (n : Z) : M unit :=
  fun w => (Ret tt, {| self := with_Counter (self w) n; clock := clock w |}).

(** time.Now(): the next reading of the clock. *)
Definition time_Now : M Time :=
  fun w => (Ret (clock w O),
            {| self := self w; clock := fun n => clock w (S n) |}).

(** Indexing, slicing and division, with Go's run-time checks. *)
Definition index (l : list Z) (i : Z) : M Z :=
  if (0 <=? i) && (i <? Z.of_nat (List.length l))
  then ret (nth (Z.to_nat i) l 0) else throw IndexOutOfRange.

Definition slice (l : list Z) (lo hi : Z) : M (list Z) :=
  if (0 <=? lo) && (lo <=? hi) && (hi <=? Z.of_nat (List.length l))
  then ret (firstn (Z.to_nat (hi - lo)) (skipn (Z.to_nat lo) l))
  else throw IndexOutOfRange.

(** [a / b] and [a % b] on unsigned operands. *)
Definition udiv (a b : Z) : M Z :=
  if b =? 0 then throw DivideByZero else ret (a / b).
Definition urem (a b : Z) : M Z :=
  if b =? 0 then throw DivideByZero else ret (a mod b).

(** [a / b] on [int64]. *)
Definition idiv (a b : Z) : M Z :=
  if b =? 0 then throw DivideByZero else ret (GoInt.int_quo a b).

(* ===================================================================== *)
(** ** otp.go *)

Definition IncrementCounter : M Z :=
  c <- get_self ;;
  set_Counter (GoInt.u64_add (Counter c) 1) ;;;
  c <- get_self ;;
  ret (Counter c).

Definition SetCounter (counter : Z) : M unit := set_Counter counter.

(** A hash constructor, as far as crypto/hmac uses it. *)
Record hash_Hash : Type := { Sum : list Z -> list Z; BlockSize : nat }.

Definition sha1_New : hash_Hash := {| Sum := Sha.sha1; BlockSize := 64 |}.
Definition sha256_New : hash_Hash := {| Sum := Sha.sha256; BlockSize := 64 |}.
Definition sha512_New : hash_Hash := {| Sum := Sha.sha512; BlockSize := 128 |}.

Definition getHash : M hash_Hash :=
  c <- get_self ;;
  if Algorithm c =? AlgorithmSHA256 then ret sha256_New
  else if Algorithm c =? AlgorithmSHA512 then ret sha512_New
  else ret sha1_New.

(** hmac.New(h, key); Write(msg); Sum(nil) *)
Definition hmac_Sum (h : hash_Hash) (key msg : list Z) : list Z :=
  Sha.hmac (Sum h) (BlockSize h) key msg.

(* ===================================================================== *)
(** ** Tactics and reduction settings *)

Arguments Sha.hmac : simpl never.
Arguments Sha.sha1 : simpl never.
Arguments Sha.sha2 : simpl never.
Arguments hmac_Sum : simpl never.
Arguments Base32.DecodeString : simpl never.
Arguments Strconv.Sprintf_0d : simpl never.
Arguments Z.pow : simpl never.
Arguments Z.land : simpl never.
Arguments Z.modulo : simpl never.
Arguments Z.div : simpl never.

(** The powers of two of the integer types, as numerals for [lia]. *)
Ltac pow2 :=
  change (2 ^ 64) with 18446744073709551616 in *;
  change (2 ^ 63) with 9223372036854775808 in *;
  change (2 ^ 32) with 4294967296 in *;
  change (2 ^ 31) with 2147483648 in *.

(** Case analysis on the 256 bytes. *)
Ltac by_byte a :=
  destruct a as [[] [] [] [] [] [] [] []]; vm_compute; intuition congruence.

(** Running the monad by unfolding. *)
Ltac run := unfold bind, ret, get_self, throw; cbn [fst snd self clock].

(* ===================================================================== *)
(** ** The package, for any mapping of non-ASCII texts *)

Section Package.
Context {U : Unicode}.

(** The secret file. *)
Definition decodeSecret : M (list Z * option error) :=
  c <- get_self ;;
  let secret := Strings.ToUpper (Strings.remove_byte " " (Secret c)) in
  match Base32.DecodeString secret with
  | Some bytes => ret (bytes, None)
  | None => ret ([], Some CorruptInputError)
  end.

(** math.Pow10(n) for the exponents that reach it, where the float64 is
    exactly the integer 10^n. *)
Definition math_Pow10 (n : Z) : Z := 10 ^ n.

(** The conversion [uint32(f)] of a float64 holding an integer.  Go leaves
    the result implementation-dependent when the value does not fit; the
    gc compiler on 64-bit targets converts to a 64-bit integer and keeps
    the low 32 bits. *)
Definition uint32_of_float64 (f : Z) : Z :=
  GoInt.uint32 (GoInt.wrap_int64 f).

Definition generateOTP (counter : Z) : M (string * option error) :=
  c <- get_self ;;
  if (Digits c <=? 0) || (10 <? Digits c) then ret ("", Some ErrInvalidDigits)
  else
    '(secretBytes, err) <- decodeSecret ;;
    match err with
    | Some e => ret ("", Some (Errorf_w "failed to decode secret: " e))
    | None =>
        (* Convert counter to byte array *)
        let counterBytes := Bytes.be_bytes 8 counter in
        (* Generate HMAC *)
        h <- getHash ;;
        let hash := hmac_Sum h secretBytes counterBytes in
        (* Dynamic truncation *)
        last <- index hash (Z.of_nat (List.length hash) - 1) ;;
        let offset := Z.land last 0x0f in
        window <- slice hash offset (offset + 4) ;;
        let truncatedHash := Z.land (Bytes.be_word window) 0x7fffffff in
        (* Generate OTP *)
        c <- get_self ;;
        otp <- urem truncatedHash (uint32_of_float64 (math_Pow10 (Digits c))) ;;
        (* Format with leading zeros *)
        c <- get_self ;;
        ret (Strconv.Sprintf_0d (Digits c) otp, None)
    end.

(* ===================================================================== *)
(** ** The HOTP file *)

Definition GenerateHOTP : M (string * option error) :=
  c <- get_self ;;
  generateOTP (Counter c).

Definition GenerateHOTPAt (counter : Z) : M (string * option error) :=
  generateOTP counter.

(** The loop [for i := 0; i <= windowSize; i++] of ValidateHOTP, entered
    with the current value of [i]. *)
Fixpoint ValidateHOTP_loop (fuel : nat) (code : string) (windowSize i : Z)
  : M (bool * Z * option error) :=
  match fuel with
  | O => out_of_fuel
  | S fuel' =>
      if i <=? windowSize then
        c <- get_self ;;
        let counter := GoInt.u64_add (Counter c) (GoInt.uint64 i) in
        '(expectedCode, err) <- generateOTP counter ;;
        match err with
        | Some e => ret (false, 0, Some e)
        | None =>
            if String.eqb code expectedCode then ret (true, counter, None)
            else ValidateHOTP_loop fuel' code windowSize (GoInt.int_add i 1)
        end
      else ret (false, 0, None)
  end.

Definition ValidateHOTP (fuel : nat) (code : string) (windowSize : Z)
  : M (bool * Z * option error) :=
  let windowSize := if windowSize <? 0 then 10 else windowSize in
  ValidateHOTP_loop fuel code windowSize 0.

(* ===================================================================== *)
(** ** The TOTP file *)

Definition GenerateTOTPAt (t : Time) : M (string * option error) :=
  c <- get_self ;;
  (if Period c <=? 0 then set_Period 30 else ret tt) ;;;
  c <- get_self ;;
  counter <- udiv (GoInt.uint64 (Unix t)) (GoInt.uint64 (Period c)) ;;
  generateOTP counter.

Definition GenerateTOTP : M (string * option error) :=
  now <- time_Now ;;
  GenerateTOTPAt now.

(** The loop [for i := -windowSize; i <= windowSize; i++] of
    ValidateTOTPAt, entered with the current value of [i]. *)
Fixpoint ValidateTOTPAt_loop (fuel : nat) (code : string)
    (currentCounter windowSize i : Z) : M (bool * option error) :=
  match fuel with
  | O => out_of_fuel
  | S fuel' =>
      if i <=? windowSize then
        let counter := GoInt.u64_add currentCounter (GoInt.uint64 i) in
        '(expectedCode, err) <- generateOTP counter ;;
        match err with
        | Some e => ret (false, Some e)
        | None =>
            if String.eqb code expectedCode then ret (true, None)
            else ValidateTOTPAt_loop fuel' code currentCounter windowSize
                   (GoInt.int_add i 1)
        end
      else ret (false, None)
  end.

Definition ValidateTOTPAt (fuel : nat) (code : string) (t : Time)
    (windowSize : Z) : M (bool * option error) :=
  let windowSize := if windowSize <? 0 then 1 else windowSize in
  c <- get_self ;;
  currentCounter <- udiv (GoInt.uint64 (Unix t)) (GoInt.uint64 (Period c)) ;;
  (* Check current time and surrounding windows *)
  ValidateTOTPAt_loop fuel code currentCounter windowSize
    (GoInt.int_neg windowSize).

Definition ValidateTOTP (fuel : nat) (code : string) (windowSize : Z)
  : M (bool * option error) :=
  now <- time_Now ;;
  ValidateTOTPAt fuel code now windowSize.

Definition GetRemainingTime : M Z :=
  c <- get_self ;;
  (if Period c <=? 0 then set_Period 30 else ret tt) ;;;
  now <- time_Now ;;
  c <- get_self ;;
  ret (GoInt.int_sub (Period c) (GoInt.int_rem (Unix now) (Period c))).

Definition GetNextTOTPTime : M Time :=
  c <- get_self ;;
  (if Period c <=? 0 then set_Period 30 else ret tt) ;;;
  now <- time_Now ;;
  c <- get_self ;;
  currentPeriod <- idiv (Unix now) (Period c) ;;
  let nextPeriod := GoInt.int_add currentPeriod 1 in
  ret (time_Unix (GoInt.int_mul nextPeriod (Period c))).

Definition GetCurrentTOTPWindow : M (Time * Time) :=
  c <- get_self ;;
  (if Period c <=? 0 then set_Period 30 else ret tt) ;;;
  now <- time_Now ;;
  c <- get_self ;;
  currentPeriod <- idiv (Unix now) (Period c) ;;
  let start := time_Unix (GoInt.int_mul currentPeriod (Period c)) in
  let end_ := time_Unix (GoInt.int_mul (GoInt.int_add currentPeriod 1)
                                       (Period c)) in
  ret (start, end_).

(** [time.Duration(n) * time.Second] *)
Definition seconds (n : Z) : Z := GoInt.int_mul n time_Second.

(** [entries[i] = e] *)
Definition set_entry (entries : list TOTPEntry) (i : Z) (e : TOTPEntry)
  : M (list TOTPEntry) :=
  if (0 <=? i) && (i <? Z.of_nat (List.length entries))
  then ret (firstn (Z.to_nat i) entries ++ e :: skipn (S (Z.to_nat i)) entries)
  else throw IndexOutOfRange.

(** The loop [for i := 0; i < windowCount; i++] of GenerateTOTPBatch;
    [todo] counts the iterations that remain, windowCount - i. *)
Fixpoint GenerateTOTPBatch_loop (todo : nat) (windowCount i : Z)
    (baseTime : Time) (entries : list TOTPEntry)
  : M (list TOTPEntry * option error) :=
  match todo with
  | O => ret (entries, None)
  | S todo' =>
      c <- get_self ;;
      (* Center around current time *)
      let offset := GoInt.int_sub i (GoInt.int_quo windowCount 2) in
      let targetTime :=
        time_Add baseTime (seconds (GoInt.int_mul offset (Period c))) in
      '(code, err) <- GenerateTOTPAt targetTime ;;
      match err with
      | Some e =>
          ret ([], Some (Errorf_w ("failed to generate TOTP for window "
                                   ++ Strconv.Itoa i ++ ": ")%string e))
      | None =>
          '(start, end_) <- GetCurrentTOTPWindow ;;
          c <- get_self ;;
          let shift := seconds (GoInt.int_mul offset (Period c)) in
          let start := if offset =? 0 then start else time_Add start shift in
          let end_ := if offset =? 0 then end_ else time_Add end_ shift in
          entries <- set_entry entries i
                       {| Code := code; ValidFrom := start; ValidTo := end_;
                          IsCurrent := offset =? 0 |} ;;
          GenerateTOTPBatch_loop todo' windowCount (GoInt.int_add i 1)
            baseTime entries
      end
  end.

Definition GenerateTOTPBatch (windowCount : Z)
  : M (list TOTPEntry * option error) :=
  let windowCount := if windowCount <=? 0 then 3 else windowCount in
  let entries := repeat zero_TOTPEntry (Z.to_nat windowCount) in
  baseTime <- time_Now ;;
  GenerateTOTPBatch_loop (Z.to_nat windowCount) windowCount 0 baseTime entries.

(* ===================================================================== *)
(** ** The URL file *)

Definition OTPAuthURL : M (string * option error) :=
  c <- get_self ;;
  if String.eqb (Secret c) "" then ret ("", Some ErrMissingSecret)
  else if String.eqb (AccountName c) "" then
    ret ("", Some ErrMissingAccountName)
  else
    let params : Url.Values := [] in
    let params := Url.Set_ "secret" (Secret c) params in
    let params := Url.Set_ "digits" (Strconv.Itoa (Digits c)) params in
    let params := Url.Set_ "algorithm" (Algorithm_String (Algorithm c))
                    params in
    let '(otpType, params) :=
      if 0 <? Period c then
        (* TOTP *)
        ("totp", Url.Set_ "period" (Strconv.Itoa (Period c)) params)
      else
        (* HOTP *)
        ("hotp", Url.Set_ "counter" (Strconv.FormatUint (Counter c)) params)
    in
    let '(label, params) :=
      if negb (String.eqb (Issuer c) "") then
        ((Issuer c ++ ":" ++ AccountName c)%string,
         Url.Set_ "issuer" (Issuer c) params)
      else (AccountName c, params) in
    ret (("otpauth://" ++ otpType ++ "/" ++ Url.QueryEscape label ++ "?"
          ++ Url.Encode params)%string, None).

Definition with_Secret (c : Config) (s : string) : Config :=
  {| Secret := s; Digits := Digits c; Algorithm := Algorithm c;
     Period := Period c; Counter := Counter c; Issuer := Issuer c;
     AccountName := AccountName c |}.

Definition with_Digits (c : Config) (d : Z) : Config :=
  {| Secret := Secret c; Digits := d; Algorithm := Algorithm c;
     Period := Period c; Counter := Counter c; Issuer := Issuer c;
     AccountName := AccountName c |}.

Definition with_Algorithm (c : Config) (a : AlgorithmT) : Config :=
  {| Secret := Secret c; Digits := Digits c; Algorithm := a;
     Period := Period c; Counter := Counter c; Issuer := Issuer c;
     AccountName := AccountName c |}.

Definition with_Issuer (c : Config) (s : string) : Config :=
  {| Secret := Secret c; Digits := Digits c; Algorithm := Algorithm c;
     Period := Period c; Counter := Counter c; Issuer := s;
     AccountName := AccountName c |}.

Definition with_AccountName (c : Config) (s : string) : Config :=
  {| Secret := Secret c; Digits := Digits c; Algorithm := Algorithm c;
     Period := Period c; Counter := Counter c; Issuer := Issuer c;
     AccountName := s |}.

(** ParseOTPAuthURL returns a configuration or an error. *)
Definition ParseOTPAuthURL (otpauthURL : string)
  : option Config * option error :=
  match Url.Parse otpauthURL with
  | None => (None, Some (Errorf "invalid URL: "))
  | Some u =>
      if negb (String.eqb (Url.Scheme u) "otpauth") then
        (None, Some (Errorf ("invalid scheme: expected otpauth, got "
                             ++ Url.Scheme u)%string))
      else
        let config := DefaultConfig in
        (* Parse OTP type *)
        let typed :=
          if String.eqb (Url.Host u) "totp" then Some (with_Period config 30)
          else if String.eqb (Url.Host u) "hotp"
          then Some (with_Period config 0)
          else None in
        match typed with
        | None =>
            (None, Some (Errorf ("unsupported OTP type: "
                                 ++ Url.Host u)%string))
        | Some config =>
            (* Parse label (issuer:account or just account) *)
            let label := Strings.TrimPrefix_slash (Url.Path u) in
            if String.eqb label "" then (None, Some ErrMissingAccountName)
            else
              let config :=
                match Strings.SplitN2_colon label with
                | [p0; p1] => with_AccountName (with_Issuer config p0) p1
                | p0 :: _ => with_AccountName config p0
                | [] => config
                end in
              (* Parse query parameters *)
              let params := Url.ParseQuery (Url.RawQuery u) in
              (* Secret (required) *)
              let secret := Url.Get "secret" params in
              if String.eqb secret "" then (None, Some ErrMissingSecret)
              else
                let config := with_Secret config secret in
                (* Digits *)
                let config :=
                  let digits := Url.Get "digits" params in
                  if negb (String.eqb digits "") then
                    match Strconv.Atoi digits with
                    | Some d =>
                        if (0 <? d) && (d <=? 10) then with_Digits config d
                        else config
                    | None => config
                    end
                  else config in
                (* Algorithm *)
                let config :=
                  let algorithm := Url.Get "algorithm" params in
                  if negb (String.eqb algorithm "") then
                    let upper := Strings.ToUpper algorithm in
                    if String.eqb upper "SHA1"
                    then with_Algorithm config AlgorithmSHA1
                    else if String.eqb upper "SHA256"
                    then with_Algorithm config AlgorithmSHA256
                    else if String.eqb upper "SHA512"
                    then with_Algorithm config AlgorithmSHA512
                    else config
                  else config in
                (* Period (for TOTP) *)
                let config :=
                  if 0 <? Period config then
                    let period := Url.Get "period" params in
                    if negb (String.eqb period "") then
                      match Strconv.Atoi period with
                      | Some p =>
                          if 0 <? p then with_Period config p else config
                      | None => config
                      end
                    else config
                  else config in
                (* Counter (for HOTP) *)
                let config :=
                  if Period config =? 0 then
                    let counter := Url.Get "counter" params in
                    if negb (String.eqb counter "") then
                      match Strconv.ParseUint counter with
                      | Some n => with_Counter config n
                      | None => config
                      end
                    else config
                  else config in
                (* Issuer (can override the one from label) *)
                let config :=
                  let issuer := Url.Get "issuer" params in
                  if negb (String.eqb issuer "") then with_Issuer config issuer
                  else config in
                (Some config, None)
        end
  end.

(* ===================================================================== *)
(** ** The functional reading of [generateOTP]

    What [generateOTP] computes once the digit count is accepted and the
    secret is decoded to [key]; the lemmas below relate it to the code. *)

Definition hash_of (c : Config) : hash_Hash :=
  if Algorithm c =? AlgorithmSHA256 then sha256_New
  else if Algorithm c =? AlgorithmSHA512 then sha512_New
  else sha1_New.

Definition truncatedHash (c : Config) (key : list Z) (counter : Z) : Z :=
  let hash := hmac_Sum (hash_of c) key (Bytes.be_bytes 8 counter) in
  let offset := Z.land (nth (List.length hash - 1) hash 0) 0x0f in
  Z.land (Bytes.be_word (firstn 4 (skipn (Z.to_nat offset) hash))) 0x7fffffff.

Definition otp_value (c : Config) (key : list Z) (counter : Z) : Z :=
  truncatedHash c key counter mod uint32_of_float64 (math_Pow10 (Digits c)).

Definition derive (c : Config) (key : list Z) (counter : Z) : string :=
  Strconv.Sprintf_0d (Digits c) (otp_value c key counter).

(** The first of [n] consecutive integers from [lo] on that satisfies [p]. *)
Fixpoint first_match (p : Z -> bool) (lo : Z) (n : nat) : option Z :=
  match n with
  | O => None
  | S n' => if p lo then Some lo else first_match p (lo + 1) n'
  end.

Definition valid_digits (c : Config) : Prop := 1 <= Digits c <= 10.

(** [generateOTP] returns [code] for [counter], leaving the world alone. *)
Definition derives (w : World) (counter : Z) (code : string) : Prop :=
  generateOTP counter w = (Ret (code, None), w).

(** The fields of [c'] are those of [c], the period apart. *)
Definition same_but_Period (c c' : Config) : Prop :=
  Secret c' = Secret c /\ Digits c' = Digits c /\
  Algorithm c' = Algorithm c /\ Counter c' = Counter c /\
  Issuer c' = Issuer c /\ AccountName c' = AccountName c.

(** The world after [if c.Period <= 0 { c.Period = 30 }]. *)
Definition defaulted (w : World) : World :=
  if Period (self w) <=? 0
  then {| self := with_Period (self w) 30; clock := clock w |}
  else w.

(** What the round trip through the interchange URL keeps: [c'] has the
    secret, digit count, algorithm, issuer and account name of [c], its
    period when [c] is a TOTP configuration (positive period), and its
    counter otherwise. *)
Definition roundtrip_ok (c c' : Config) : Prop :=
  Secret c' = Secret c /\ Digits c' = Digits c /\
  Algorithm c' = Algorithm c /\ Issuer c' = Issuer c /\
  AccountName c' = AccountName c /\
  (0 < Period c -> Period c' = Period c) /\
  (Period c <= 0 -> Counter c' = Counter c).

(** The world after one reading of the clock, and after [k] of them. *)
Definition tick (w : World) : World :=
  {| self := self w; clock := fun n => clock w (S n) |}.

Fixpoint advance (k : nat) (w : World) : World :=
  match k with
  | O => w
  | S k' => advance k' (tick w)
  end.

(** The entry of index [i] in a batch of [N] around the step [cur]: the
    step at offset [i - N / 2]. *)
Definition batch_entry (c : Config) (key : list Z) (cur N i : Z) : TOTPEntry :=
  let step := cur + (i - N / 2) in
  {| Code := derive c key step;
     ValidFrom := time_Unix (step * Period c);
     ValidTo := time_Unix ((step + 1) * Period c);
     IsCurrent := i - N / 2 =? 0 |}.

(* ===================================================================== *)
(** ** Byte classes of the URL, and reference configurations *)

(** The bytes of an escaped text: unreserved bytes, '%' and '+'. *)
Definition esc_byte (a : ascii) : bool :=
  Url.unreserved a || Ascii.eqb a "%" || Ascii.eqb a "+".

(** The bytes of an encoded query: those of escaped texts, '=' and '&'. *)
Definition query_byte (a : ascii) : bool :=
  esc_byte a || Ascii.eqb a "=" || Ascii.eqb a "&".

(** The bytes of one encoded setting: those of escaped texts and '='. *)
Definition setting_byte (a : ascii) : bool := esc_byte a || Ascii.eqb a "=".

(** One setting of a query as [Encode] writes it. *)
Definition enc_setting (p : string * string) : string :=
  (Url.QueryEscape (fst p) ++ "=" ++ Url.QueryEscape (snd p))%string.

(** What unescaping a path makes of an escaped space. *)
Definition plus_for_space (a : ascii) : ascii :=
  if Ascii.eqb a " " then "+"%char else a.

(** The key of RFC 4226, appendix D, and configurations that hold it. *)
Definition rfc_secret : string := "GEZDGNBVGY3TQOJQGEZDGNBVGY3TQOJQ".
Definition rfc_key : list Z := Bytes.of_string "12345678901234567890".

Definition rfc_hotp (counter : Z) : World :=
  {| self := NewHOTP rfc_secret "" "alice" 6 counter; clock := fun _ => 0 |}.

(** The RFC key as a TOTP configuration with the default period. *)
Definition rfc_totp : World :=
  {| self := NewTOTP rfc_secret "" "alice" 6 30;
     clock := fun _ => time_Unix 59 |}.

(** The RFC key on ten digits. *)
Definition rfc_hotp10 : World :=
  {| self := NewHOTP rfc_secret "" "alice" 10 0; clock := fun _ => 0 |}.

(** A TOTP configuration with an issuer. *)
Definition example_totp : World :=
  {| self := NewTOTP rfc_secret "Example Corp" "alice@example.com" 6 30;
     clock := fun _ => time_Unix 59 |}.

(** The batch of two entries of [rfc_totp] at second 59: the steps 0 and 1,
    the second one current. *)
Definition rfc_batch2 : list TOTPEntry :=
  [ {| Code := "755224"; ValidFrom := time_Unix 0; ValidTo := time_Unix 30;
       IsCurrent := false |};
    {| Code := "287082"; ValidFrom := time_Unix 30; ValidTo := time_Unix 60;
       IsCurrent := true |} ].

(* ===================================================================== *)
(** ** The secret file and the backup-code file *)

Definition ValidateSecret (secret : string) : option error :=
  let secret := Strings.ToUpper (Strings.remove_byte " " secret) in
  match Base32.DecodeString secret with
  | Some _ => None
  | None => Some (Errorf_w "invalid base32 secret: " CorruptInputError)
  end.

(** The loop [for i := 0; i < len(provided); i++] of ValidateBackupCode,
    entered with the current values of [i] and [result]; [todo] counts the
    iterations that remain.  The test of the lengths before the loop keeps
    both indices in range, and the bytes combined stay below 256. *)
Fixpoint ValidateBackupCode_loop (todo : nat) (provided stored : list Z)
    (i : nat) (result : Z) : Z :=
  match todo with
  | O => result
  | S todo' =>
      ValidateBackupCode_loop todo' provided stored (S i)
        (Z.lor result (Z.lxor (nth i provided 0) (nth i stored 0)))
  end.

Definition ValidateBackupCode (providedCode storedCode : string) : bool :=
  (* Normalize codes (remove spaces, convert to uppercase) *)
  let provided := Strings.ToUpper (Strings.remove_byte " " providedCode) in
  let provided := Strings.remove_byte "-" provided in
  let stored := Strings.ToUpper (Strings.remove_byte " " storedCode) in
  let stored := Strings.remove_byte "-" stored in
  if negb (String.length provided =? String.length stored)%nat then false
  else
    ValidateBackupCode_loop (String.length provided)
      (Bytes.of_string provided) (Bytes.of_string stored) 0 0 =? 0.

(* ===================================================================== *)
(** ** TOTPEntry.IsValid *)

(** [t.Before(u)] *)
Definition time_Before (t u : Time) : bool := t <? u.

Definition IsValid (e : TOTPEntry) (t : Time) : bool :=
  negb (time_Before t (ValidFrom e)) && time_Before t (ValidTo e).

(* ===================================================================== *)
(** ** The QR-code URLs of the URL file *)

Definition QRCodeURL : M (string * option error) :=
  c <- get_self ;;
  if String.eqb (Secret c) "" then ret ("", Some ErrMissingSecret)
  else if String.eqb (AccountName c) "" then
    ret ("", Some ErrMissingAccountName)
  else
    '(otpauthURL, err) <- OTPAuthURL ;;
    match err with
    | Some e => ret ("", Some e)
    | None =>
        ret (("https://api.qrserver.com/v1/create-qr-code/?size=200x200&data="
              ++ Url.QueryEscape otpauthURL)%string, None)
    end.

Definition QRCodeURLWithCustomSize (size : Z) : M (string * option error) :=
  let size := if size <=? 0 then 200 else size in
  c <- get_self ;;
  if String.eqb (Secret c) "" then ret ("", Some ErrMissingSecret)
  else if String.eqb (AccountName c) "" then
    ret ("", Some ErrMissingAccountName)
  else
    '(otpauthURL, err) <- OTPAuthURL ;;
    match err with
    | Some e => ret ("", Some e)
    | None =>
        ret (("https://api.qrserver.com/v1/create-qr-code/?size="
              ++ Strconv.Itoa size ++ "x" ++ Strconv.Itoa size ++ "&data="
              ++ Url.QueryEscape otpauthURL)%string, None)
    end.

Definition QRCodeURLQuickChart : M (string * option error) :=
  c <- get_self ;;
  if String.eqb (Secret c) "" then ret ("", Some ErrMissingSecret)
  else if String.eqb (AccountName c) "" then
    ret ("", Some ErrMissingAccountName)
  else
    '(otpauthURL, err) <- OTPAuthURL ;;
    match err with
    | Some e => ret ("", Some e)
    | None =>
        ret (("https://quickchart.io/qr?text="
              ++ Url.QueryEscape otpauthURL ++ "&size=200")%string, None)
    end.

Definition QRCodeURLGoQR : M (string * option error) :=
  c <- get_self ;;
  if String.eqb (Secret c) "" then ret ("", Some ErrMissingSecret)
  else if String.eqb (AccountName c) "" then
    ret ("", Some ErrMissingAccountName)
  else
    '(otpauthURL, err) <- OTPAuthURL ;;
    match err with
    | Some e => ret ("", Some e)
    | None =>
        ret (("https://api.qrserver.com/v1/create-qr-code/?size=200x200&data="
              ++ Url.QueryEscape otpauthURL)%string, None)
    end.

(* ===================================================================== *)
(** ** Configurations as ParseOTPAuthURL makes them *)

(** A configuration with the secret [s], a digit count that generateOTP
    accepts, one of the three algorithms, a period that is zero (HOTP) or
    positive, and a 64-bit counter that is zero when the period is
    positive. *)
Definition parsed (s : string) (c : Config) : Prop :=
  Secret c = s /\ 1 <= Digits c <= 10 /\
  (Algorithm c = AlgorithmSHA1 \/ Algorithm c = AlgorithmSHA256 \/
   Algorithm c = AlgorithmSHA512) /\
  0 <= Period c <= GoInt.max_int64 /\
  GoInt.is_uint64 (Counter c) /\
  (0 < Period c -> Counter c = 0).

(* ===================================================================== *)
(** * Properties *)

Section FixedWidth.
Import GoInt.

Lemma wrap_int64_id x : is_int64 x -> wrap_int64 x = x.
Proof.
  unfold is_int64, wrap_int64, min_int64, max_int64. pow2. intros H.
  rewrite Z.mod_small; lia.
Qed.

Lemma wrap_int64_range x : is_int64 (wrap_int64 x).
Proof.
  unfold is_int64, wrap_int64, min_int64, max_int64.
  pose proof (Z.mod_pos_bound (x + 2 ^ 63) (2 ^ 64) ltac:(pow2; lia)).
  pow2. lia.
Qed.

Lemma uint64_id x : is_uint64 x -> uint64 x = x.
Proof. unfold is_uint64, uint64, wrapu. intros. now apply Z.mod_small. Qed.

Lemma uint64_range x : is_uint64 (uint64 x).
Proof. unfold is_uint64, uint64, wrapu. apply Z.mod_pos_bound. pow2. lia. Qed.

Lemma u64_add_uint64 a i : u64_add a (uint64 i) = uint64 (a + i).
Proof.
  unfold u64_add, uint64, wrapu. now rewrite Z.add_mod_idemp_r by (pow2; lia).
Qed.

Lemma land_15_range x : 0 <= Z.land x 0x0f <= 15.
Proof.
  replace (Z.land x 0x0f) with (x mod 16)
    by (symmetry; apply (Z.land_ones x 4); lia).
  pose proof (Z.mod_pos_bound x 16 ltac:(lia)). lia.
Qed.

Lemma land_31bit_range x : 0 <= Z.land x 0x7fffffff < 2 ^ 31.
Proof.
  replace (Z.land x 0x7fffffff) with (x mod 2 ^ 31)
    by (symmetry; apply (Z.land_ones x 31); lia).
  apply Z.mod_pos_bound. pow2. lia.
Qed.

End FixedWidth.

Section HashLength.
Import Sha.

(** The digests of "abc" (FIPS 180-4 examples), first and last bytes. *)
Example sha_abc :
  firstn 4 (sha1 (Bytes.of_string "abc")) = [0xa9; 0x99; 0x3e; 0x36] /\
  skipn 16 (sha1 (Bytes.of_string "abc")) = [0x9c; 0xd0; 0xd8; 0x9d] /\
  firstn 4 (sha256 (Bytes.of_string "abc")) = [0xba; 0x78; 0x16; 0xbf] /\
  skipn 28 (sha256 (Bytes.of_string "abc")) = [0xf2; 0x00; 0x15; 0xad] /\
  firstn 4 (sha512 (Bytes.of_string "abc")) = [0xdd; 0xaf; 0x35; 0xa1] /\
  skipn 60 (sha512 (Bytes.of_string "abc")) = [0xa5; 0x4c; 0xa4; 0x9f].
Proof. vm_compute. repeat split. Qed.

Lemma be_bytes_length n x : List.length (Bytes.be_bytes n x) = n.
Proof. induction n; simpl; congruence. Qed.

Lemma sha1_length msg : List.length (sha1 msg) = 20%nat.
Proof.
  unfold sha1. destruct (fold_left _ _ _) as [[[[h0 h1] h2] h3] h4].
  rewrite !length_app, !be_bytes_length. reflexivity.
Qed.

Lemma sha256_length msg : List.length (sha256 msg) = 32%nat.
Proof.
  unfold sha256, sha2.
  destruct (fold_left _ _ _) as [[[[[[[h0 h1] h2] h3] h4] h5] h6] h7].
  rewrite !length_app, !be_bytes_length. reflexivity.
Qed.

Lemma sha512_length msg : List.length (sha512 msg) = 64%nat.
Proof.
  unfold sha512, sha2.
  destruct (fold_left _ _ _) as [[[[[[[h0 h1] h2] h3] h4] h5] h6] h7].
  rewrite !length_app, !be_bytes_length. reflexivity.
Qed.

(** Every hash the package selects yields at least 20 bytes, which is
    what the dynamic truncation needs: 15 + 4 <= 20. *)
Lemma hmac_Sum_length c key msg :
  (20 <= List.length (hmac_Sum (hash_of c) key msg))%nat.
Proof.
  unfold hmac_Sum, hmac, hash_of.
  destruct (Algorithm c =? AlgorithmSHA256);
    [|destruct (Algorithm c =? AlgorithmSHA512)]; cbn [Sum BlockSize].
  - rewrite sha256_length. lia.
  - rewrite sha512_length. lia.
  - rewrite sha1_length. lia.
Qed.

End HashLength.

(* ===================================================================== *)
(** ** Running the small steps *)

Section Steps.

(** On ASCII text the case functions are the byte-wise mappings, whatever
    the mappings of the other texts. *)
Lemma ToUpper_ascii s :
  Strings.is_ascii s = true ->
  Strings.ToUpper s = Strings.map_string Strings.upper_ascii s.
Proof. intros H. unfold Strings.ToUpper. now rewrite H. Qed.

Lemma ToLower_ascii s :
  Strings.is_ascii s = true ->
  Strings.ToLower s = Strings.map_string Strings.lower_ascii s.
Proof. intros H. unfold Strings.ToLower. now rewrite H. Qed.

Lemma getHash_run w : getHash w = (Ret (hash_of (self w)), w).
Proof.
  unfold getHash, hash_of. run.
  destruct (Algorithm (self w) =? AlgorithmSHA256); [reflexivity|].
  destruct (Algorithm (self w) =? AlgorithmSHA512); reflexivity.
Qed.

Lemma decodeSecret_run w : exists r, decodeSecret w = (Ret r, w).
Proof.
  unfold decodeSecret. run.
  destruct (Base32.DecodeString _); eexists; reflexivity.
Qed.

(** The decoded key depends on the secret alone. *)
Lemma decodeSecret_secret w1 w2 :
  Secret (self w1) = Secret (self w2) ->
  fst (decodeSecret w1) = fst (decodeSecret w2).
Proof.
  intros H. unfold decodeSecret. run. rewrite H.
  destruct (Base32.DecodeString _); reflexivity.
Qed.

Lemma decodeSecret_cases w :
  (exists key, decodeSecret w = (Ret (key, None), w)) \/
  decodeSecret w = (Ret ([], Some CorruptInputError), w).
Proof.
  unfold decodeSecret. run.
  destruct (Base32.DecodeString _); [left; eexists|right]; reflexivity.
Qed.

Lemma index_run l i w :
  0 <= i < Z.of_nat (List.length l) ->
  index l i w = (Ret (nth (Z.to_nat i) l 0), w).
Proof.
  intros H. unfold index.
  replace ((0 <=? i) && (i <? Z.of_nat (List.length l))) with true
    by (symmetry; apply andb_true_intro; split;
        [apply Z.leb_le|apply Z.ltb_lt]; lia).
  reflexivity.
Qed.

Lemma slice_run l lo hi w :
  0 <= lo <= hi -> hi <= Z.of_nat (List.length l) ->
  slice l lo hi w
  = (Ret (firstn (Z.to_nat (hi - lo)) (skipn (Z.to_nat lo) l)), w).
Proof.
  intros H1 H2. unfold slice.
  replace ((0 <=? lo) && (lo <=? hi) && (hi <=? Z.of_nat (List.length l)))
    with true; [reflexivity|].
  symmetry. rewrite !andb_true_iff, !Z.leb_le. lia.
Qed.

Lemma urem_run a b w : b <> 0 -> urem a b w = (Ret (a mod b), w).
Proof.
  intros H. unfold urem. destruct (Z.eqb_spec b 0); [contradiction|].
  reflexivity.
Qed.

Lemma udiv_run a b w : b <> 0 -> udiv a b w = (Ret (a / b), w).
Proof.
  intros H. unfold udiv. destruct (Z.eqb_spec b 0); [contradiction|].
  reflexivity.
Qed.

Lemma udiv_zero a w : udiv a 0 w = (Panicked DivideByZero, w).
Proof. reflexivity. Qed.

End Steps.

(* ===================================================================== *)
(** ** The modulus and the formatting *)

Section Modulus.

Lemma digits_cases d :
  1 <= d <= 10 ->
  d = 1 \/ d = 2 \/ d = 3 \/ d = 4 \/ d = 5 \/ d = 6 \/ d = 7 \/ d = 8 \/
  d = 9 \/ d = 10.
Proof. lia. Qed.

(** Up to nine digits the modulus is the power of ten. *)
Lemma modulus_pow10 d :
  1 <= d <= 9 -> uint32_of_float64 (math_Pow10 d) = 10 ^ d.
Proof.
  intros H. assert (Hc : 1 <= d <= 10) by lia.
  destruct (digits_cases d Hc) as [->|[->|[->|[->|[->|[->|[->|[->|[->| ->]]]]]]]]];
    try reflexivity. lia.
Qed.

(** At ten digits the power of ten does not fit in 32 bits. *)
Lemma modulus_ten : uint32_of_float64 (math_Pow10 10) = 1410065408.
Proof. reflexivity. Qed.

Lemma modulus_bounds d :
  1 <= d <= 10 -> 0 < uint32_of_float64 (math_Pow10 d) <= 10 ^ d.
Proof.
  intros H.
  destruct (digits_cases d H) as [->|[->|[->|[->|[->|[->|[->|[->|[->| ->]]]]]]]]];
    vm_compute; split; congruence.
Qed.

Lemma otp_value_range c key counter :
  valid_digits c -> 0 <= otp_value c key counter < 10 ^ Digits c.
Proof.
  intros H. unfold otp_value.
  pose proof (modulus_bounds (Digits c) H) as Hm.
  pose proof (Z.mod_pos_bound (truncatedHash c key counter)
                (uint32_of_float64 (math_Pow10 (Digits c))) (proj1 Hm)).
  lia.
Qed.

End Modulus.

Section Formatting.
Import Strconv Strings.

Lemma pad_left_length c n s :
  String.length (pad_left c n s) = (n + String.length s)%nat.
Proof. induction n; simpl; congruence. Qed.

Lemma digit_char_is_digit n : is_digit (digit_char n) = true.
Proof.
  unfold is_digit, digit_char.
  pose proof (Z.mod_pos_bound n 10 ltac:(lia)) as Hb.
  rewrite N_ascii_embedding by lia.
  apply andb_true_intro; split; apply N.leb_le; lia.
Qed.

Lemma digits_aux_length fuel :
  forall (k : nat) n acc,
    (1 <= k <= fuel)%nat -> 0 <= n < 10 ^ Z.of_nat k ->
    (String.length acc < String.length (digits_aux fuel n acc)
     <= k + String.length acc)%nat.
Proof.
  induction fuel as [|fuel IH]; intros k n acc Hk Hn; [lia|].
  cbn [digits_aux]. destruct (Z.ltb_spec n 10) as [Hlt|Hge].
  - cbn [String.length]. lia.
  - assert (2 <= k)%nat as Hk2.
    { destruct k as [|[|k]]; [lia| |lia].
      change (10 ^ Z.of_nat 1) with 10 in Hn. lia. }
    assert (0 <= n / 10 < 10 ^ Z.of_nat (k - 1)) as Hdiv.
    { split; [apply Z.div_pos; lia|].
      apply Z.div_lt_upper_bound; [lia|].
      replace (Z.of_nat k) with (Z.of_nat (k - 1) + 1) in Hn by lia.
      rewrite Z.pow_add_r in Hn by lia.
      change (10 ^ 1) with 10 in Hn. lia. }
    specialize (IH (k - 1)%nat (n / 10) (String (digit_char n) acc)
                   ltac:(lia) Hdiv).
    cbn [String.length] in IH. lia.
Qed.

Lemma digits_aux_digits fuel :
  forall n acc,
    forall_bytes is_digit acc = true ->
    forall_bytes is_digit (digits_aux fuel n acc) = true.
Proof.
  induction fuel as [|fuel IH]; intros n acc Hacc; [exact Hacc|].
  cbn [digits_aux].
  assert (forall_bytes is_digit (String (digit_char n) acc) = true) as H1.
  { cbn [forall_bytes]. now rewrite digit_char_is_digit. }
  destruct (n <? 10); [exact H1|]. now apply IH.
Qed.

Lemma pad_left_digits n s :
  forall_bytes is_digit s = true ->
  forall_bytes is_digit (pad_left "0" n s) = true.
Proof. intros H. induction n; [exact H|]. cbn. exact IHn. Qed.

(** A value below 10^d is printed on exactly d bytes, all of them
    decimal digits. *)
Lemma Sprintf_0d_length d v :
  1 <= d <= 20 -> 0 <= v < 10 ^ d ->
  String.length (Sprintf_0d d v) = Z.to_nat d.
Proof.
  intros Hd Hv. unfold Sprintf_0d, FormatUint.
  rewrite pad_left_length.
  pose proof (digits_aux_length 20 (Z.to_nat d) v EmptyString
                ltac:(lia) ltac:(rewrite Z2Nat.id by lia; exact Hv)) as H.
  cbn [String.length] in H. lia.
Qed.

Lemma Sprintf_0d_digits d v : forall_bytes is_digit (Sprintf_0d d v) = true.
Proof.
  unfold Sprintf_0d, FormatUint. apply pad_left_digits.
  now apply digits_aux_digits.
Qed.

End Formatting.

(* ===================================================================== *)
(** ** [generateOTP] *)

Section GenerateOTP.

Lemma generateOTP_invalid_digits counter w :
  Digits (self w) <= 0 \/ 10 < Digits (self w) ->
  generateOTP counter w = (Ret ("", Some ErrInvalidDigits), w).
Proof.
  intros H. unfold generateOTP. run.
  replace ((Digits (self w) <=? 0) || (10 <? Digits (self w))) with true;
    [reflexivity|].
  symmetry. rewrite orb_true_iff, Z.leb_le, Z.ltb_lt. exact H.
Qed.

Lemma digits_guard_passes c :
  valid_digits c -> (Digits c <=? 0) || (10 <? Digits c) = false.
Proof.
  unfold valid_digits. intros H.
  rewrite orb_false_iff, Z.leb_gt, Z.ltb_ge. lia.
Qed.

Lemma generateOTP_decode_error counter w e r :
  valid_digits (self w) ->
  decodeSecret w = (Ret (r, Some e), w) ->
  generateOTP counter w
  = (Ret ("", Some (Errorf_w "failed to decode secret: " e)), w).
Proof.
  intros Hd Hs. unfold generateOTP. run.
  rewrite (digits_guard_passes _ Hd). fold (@bind (list Z * option error)).
  unfold bind. rewrite Hs. reflexivity.
Qed.

(** With an accepted digit count and a decoded secret, the code is the
    functional reading [derive]; nothing panics and the world is left
    as it was. *)
Lemma generateOTP_ok counter w key :
  valid_digits (self w) ->
  decodeSecret w = (Ret (key, None), w) ->
  generateOTP counter w = (Ret (derive (self w) key counter, None), w).
Proof.
  intros Hd Hs. unfold generateOTP. run.
  rewrite (digits_guard_passes _ Hd). unfold bind. rewrite Hs.
  rewrite getHash_run.
  set (hash := hmac_Sum (hash_of (self w)) key (Bytes.be_bytes 8 counter)).
  pose proof (hmac_Sum_length (self w) key (Bytes.be_bytes 8 counter)) as Hlen.
  fold hash in Hlen.
  rewrite index_run by lia.
  replace (Z.to_nat (Z.of_nat (List.length hash) - 1))
    with (List.length hash - 1)%nat by lia.
  set (last := nth (List.length hash - 1) hash 0).
  pose proof (land_15_range last) as Hoff.
  rewrite slice_run by lia.
  replace (Z.land last 15 + 4 - Z.land last 15) with 4 by lia.
  rewrite urem_run by (pose proof (modulus_bounds _ Hd); lia).
  reflexivity.
Qed.

(** [generateOTP] always returns, and never writes to the receiver. *)
Lemma generateOTP_total counter w :
  exists r, generateOTP counter w = (Ret r, w).
Proof.
  destruct (Z_le_gt_dec (Digits (self w)) 0) as [H0|H0].
  { eexists. apply generateOTP_invalid_digits. lia. }
  destruct (Z_lt_le_dec 10 (Digits (self w))) as [H1|H1].
  { eexists. apply generateOTP_invalid_digits. lia. }
  assert (valid_digits (self w)) as Hd by (unfold valid_digits; lia).
  destruct (decodeSecret_cases w) as [[key Hk]|He].
  - eexists. now apply generateOTP_ok with (key := key).
  - eexists. eapply generateOTP_decode_error; eassumption.
Qed.

(** The code depends on the receiver through the secret, the digit
    count and the algorithm alone. *)
Lemma derive_ext c1 c2 key counter :
  Digits c1 = Digits c2 -> Algorithm c1 = Algorithm c2 ->
  derive c1 key counter = derive c2 key counter.
Proof.
  intros Hd Ha.
  unfold derive, otp_value, truncatedHash, hash_of. now rewrite Hd, Ha.
Qed.

End GenerateOTP.

(* ===================================================================== *)
(** ** Scanning a window *)

Section FirstMatch.

Lemma first_match_some p n :
  forall lo k,
    first_match p lo n = Some k ->
    lo <= k < lo + Z.of_nat n /\ p k = true /\
    forall j, lo <= j < k -> p j = false.
Proof.
  induction n as [|n IH]; intros lo k H; [discriminate|].
  cbn [first_match] in H. destruct (p lo) eqn:Hp.
  - injection H as <-. repeat split; try lia. exact Hp.
  - destruct (IH _ _ H) as (Hr & Hk & Hj). repeat split; try lia.
    + exact Hk.
    + intros j Hjr. destruct (Z.eq_dec j lo) as [->|]; [exact Hp|].
      apply Hj. lia.
Qed.

Lemma first_match_none p n :
  forall lo,
    first_match p lo n = None ->
    forall j, lo <= j < lo + Z.of_nat n -> p j = false.
Proof.
  induction n as [|n IH]; intros lo H j Hj; [lia|].
  cbn [first_match] in H. destruct (p lo) eqn:Hp; [discriminate|].
  destruct (Z.eq_dec j lo) as [->|]; [exact Hp|].
  apply (IH _ H). lia.
Qed.

End FirstMatch.

Section Loops.
Import GoInt.

Variable w : World.
Variable key : list Z.
Hypothesis Hdigits : valid_digits (self w).
Hypothesis Hkey : decodeSecret w = (Ret (key, None), w).

Lemma derives_iff counter code :
  derives w counter code <-> derive (self w) key counter = code.
Proof.
  unfold derives. rewrite (generateOTP_ok counter w key Hdigits Hkey).
  split; [intros H; now injection H|intros ->; reflexivity].
Qed.

Lemma int_add_1 i ws :
  min_int64 <= i -> i <= ws -> ws <= max_int64 - 1 -> int_add i 1 = i + 1.
Proof.
  intros. unfold int_add. apply wrap_int64_id. unfold is_int64. lia.
Qed.

(** The loop of ValidateHOTP is a search for the first offset, from [i]
    on, whose counter yields the presented code. *)
Lemma ValidateHOTP_loop_run code ws n :
  forall fuel i,
    ws < max_int64 -> min_int64 <= i <= ws + 1 ->
    n = Z.to_nat (ws - i + 1) -> (n < fuel)%nat ->
    ValidateHOTP_loop fuel code ws i w
    = (Ret match first_match
                   (fun j => String.eqb code
                               (derive (self w) key
                                  (uint64 (Counter (self w) + j)))) i n with
           | Some j => (true, uint64 (Counter (self w) + j), None)
           | None => (false, 0, None)
           end, w).
Proof.
  induction n as [|n IH]; intros fuel i Hws Hi Hn Hfuel;
    (destruct fuel as [|fuel]; [lia|]); cbn [ValidateHOTP_loop first_match].
  - replace (i <=? ws) with false by (symmetry; apply Z.leb_gt; lia).
    reflexivity.
  - replace (i <=? ws) with true by (symmetry; apply Z.leb_le; lia).
    run. unfold bind. rewrite u64_add_uint64.
    rewrite (generateOTP_ok _ w key Hdigits Hkey).
    destruct (String.eqb code _); [reflexivity|].
    rewrite (int_add_1 i ws) by lia.
    apply IH; lia.
Qed.

(** The loop of ValidateTOTPAt, likewise, around [cur]. *)
Lemma ValidateTOTPAt_loop_run code cur ws n :
  forall fuel i,
    ws < max_int64 -> min_int64 <= i <= ws + 1 ->
    n = Z.to_nat (ws - i + 1) -> (n < fuel)%nat ->
    ValidateTOTPAt_loop fuel code cur ws i w
    = (Ret match first_match
                   (fun j => String.eqb code
                               (derive (self w) key (uint64 (cur + j))))
                   i n with
           | Some j => (true, None)
           | None => (false, None)
           end, w).
Proof.
  induction n as [|n IH]; intros fuel i Hws Hi Hn Hfuel;
    (destruct fuel as [|fuel]; [lia|]);
    cbn [ValidateTOTPAt_loop first_match].
  - replace (i <=? ws) with false by (symmetry; apply Z.leb_gt; lia).
    reflexivity.
  - replace (i <=? ws) with true by (symmetry; apply Z.leb_le; lia).
    run. unfold bind. rewrite u64_add_uint64.
    rewrite (generateOTP_ok _ w key Hdigits Hkey).
    destruct (String.eqb code _); [reflexivity|].
    rewrite (int_add_1 i ws) by lia.
    apply IH; lia.
Qed.

End Loops.

(* ===================================================================== *)
(** ** HOTP validation *)

Example rfc4226_vectors :
  map (fun n => fst (generateOTP n (rfc_hotp 0))) [0; 1; 2; 3; 4; 5; 6; 7; 8; 9]
  = map (fun s => Ret (s, None))
      ["755224"; "287082"; "359152"; "969429"; "338314"; "254676"; "287922";
       "162583"; "399871"; "520489"].
Proof. vm_compute. reflexivity. Qed.

Section HOTP.
Import GoInt.

Lemma ValidateHOTP_search w key code ws fuel :
  valid_digits (self w) ->
  decodeSecret w = (Ret (key, None), w) ->
  0 <= ws < max_int64 -> (Z.to_nat ws + 1 < fuel)%nat ->
  ValidateHOTP fuel code ws w
  = (Ret match first_match
                 (fun j => String.eqb code
                             (derive (self w) key
                                (uint64 (Counter (self w) + j))))
                 0 (Z.to_nat (ws + 1)) with
         | Some j => (true, uint64 (Counter (self w) + j), None)
         | None => (false, 0, None)
         end, w).
Proof.
  intros Hd Hk Hws Hfuel. unfold ValidateHOTP.
  replace (ws <? 0) with false by (symmetry; apply Z.ltb_ge; lia).
  apply ValidateHOTP_loop_run; auto;
    unfold min_int64, max_int64 in *; pow2; try lia.
Qed.

End HOTP.

(** C1 (as amended).  With a valid digit count and a decodable secret, a
    window size 0 <= w < 2^63 - 1 and a stored counter C with C + w < 2^64
    (no wrap-around of the unsigned counter), and fuel for w + 1
    iterations, ValidateHOTP returns (true, k) for the lowest counter k of
    C, C+1, ..., C+w whose derived code is the presented one, never a
    counter below C, and (false, 0) when no counter of the range matches.
    In particular a code that matches C+3 and no earlier counter is
    accepted with window size 5, returning C+3, and rejected with window
    size 2. *)
Theorem ValidateHOTP_window (w : World) (key : list Z) (code : string)
    (fuel : nat) :
  valid_digits (self w) ->
  decodeSecret w = (Ret (key, None), w) ->
  0 <= Counter (self w) ->
  (forall ws,
      0 <= ws < GoInt.max_int64 -> Counter (self w) + ws < 2 ^ 64 ->
      (Z.to_nat ws + 1 < fuel)%nat ->
      (exists k,
          ValidateHOTP fuel code ws w = (Ret (true, k, None), w) /\
          Counter (self w) <= k <= Counter (self w) + ws /\
          derives w k code /\
          forall j, Counter (self w) <= j < k -> ~ derives w j code)
      \/
      (ValidateHOTP fuel code ws w = (Ret (false, 0, None), w) /\
       forall j, Counter (self w) <= j <= Counter (self w) + ws ->
                 ~ derives w j code))
  /\
  (Counter (self w) + 5 < 2 ^ 64 -> (6 < fuel)%nat ->
   derives w (Counter (self w) + 3) code ->
   (forall j, Counter (self w) <= j < Counter (self w) + 3 ->
              ~ derives w j code) ->
   ValidateHOTP fuel code 5 w = (Ret (true, Counter (self w) + 3, None), w) /\
   ValidateHOTP fuel code 2 w = (Ret (false, 0, None), w)).
Proof.
  intros Hd Hk HC. set (C := Counter (self w)) in *.
  assert (forall ws,
      0 <= ws < GoInt.max_int64 -> C + ws < 2 ^ 64 ->
      (Z.to_nat ws + 1 < fuel)%nat ->
      (exists k,
          ValidateHOTP fuel code ws w = (Ret (true, k, None), w) /\
          C <= k <= C + ws /\ derives w k code /\
          forall j, C <= j < k -> ~ derives w j code)
      \/
      (ValidateHOTP fuel code ws w = (Ret (false, 0, None), w) /\
       forall j, C <= j <= C + ws -> ~ derives w j code)) as General.
  { intros ws Hws Hno Hfuel.
    rewrite (ValidateHOTP_search w key code ws fuel Hd Hk Hws Hfuel).
    fold C.
    assert (forall j, 0 <= j <= ws -> GoInt.uint64 (C + j) = C + j) as Hu.
    { intros j Hj. apply uint64_id. unfold GoInt.is_uint64. lia. }
    destruct (first_match _ 0 (Z.to_nat (ws + 1))) as [j|] eqn:Hfm.
    - apply first_match_some in Hfm. destruct Hfm as (Hr & Hp & Hmin).
      left. exists (C + j). rewrite Hu in * by lia.
      repeat split; try lia.
      + apply (derives_iff w key Hd Hk). symmetry.
        now apply String.eqb_eq.
      + intros i Hi Hder. apply (derives_iff w key Hd Hk) in Hder.
        specialize (Hmin (i - C) ltac:(lia)). cbv beta in Hmin.
        rewrite Hu in Hmin by lia.
        replace (C + (i - C)) with i in Hmin by lia.
        apply String.eqb_neq in Hmin. congruence.
    - right. split; [reflexivity|].
      intros i Hi Hder. apply (derives_iff w key Hd Hk) in Hder.
      pose proof (first_match_none _ _ _ Hfm (i - C) ltac:(lia)) as Hf.
      cbv beta in Hf. rewrite Hu in Hf by lia.
      replace (C + (i - C)) with i in Hf by lia.
      apply String.eqb_neq in Hf. congruence. }
  split; [exact General|].
  intros Hno Hfuel Hder Hbelow.
  assert (0 <= 5 < GoInt.max_int64 /\ 0 <= 2 < GoInt.max_int64) as [H5 H2]
    by (unfold GoInt.max_int64; pow2; lia).
  split.
  - destruct (General 5 H5 Hno ltac:(simpl; lia))
      as [(k & Hrun & Hr & Hdk & Hmin)|(_ & Hnone)].
    + assert (k = C + 3) as ->; [|exact Hrun].
      destruct (Z.lt_trichotomy k (C + 3)) as [Hlt|[Heq|Hgt]]; [|exact Heq|].
      * exfalso. apply (Hbelow k); [lia|exact Hdk].
      * exfalso. apply (Hmin (C + 3)); [lia|exact Hder].
    + exfalso. apply (Hnone (C + 3)); [lia|exact Hder].
  - destruct (General 2 H2 ltac:(lia) ltac:(simpl; lia))
      as [(k & Hrun & Hr & Hdk & Hmin)|(Hrun & _)]; [|exact Hrun].
    exfalso. apply (Hbelow k); [lia|exact Hdk].
Qed.

Section LargestWindow.
Import GoInt.

(** With the largest window size the condition [i <= windowSize] holds
    for every [int], and the increment wraps around: when no counter
    yields the presented code the loop of ValidateHOTP does not end. *)
Lemma ValidateHOTP_loop_max_window w key code :
  valid_digits (self w) ->
  decodeSecret w = (Ret (key, None), w) ->
  (forall k, derive (self w) key k <> code) ->
  forall fuel i,
    is_int64 i -> ValidateHOTP_loop fuel code max_int64 i w = (OutOfFuel, w).
Proof.
  intros Hd Hk Hno. induction fuel as [|fuel IH]; intros i Hi; [reflexivity|].
  cbn [ValidateHOTP_loop].
  replace (i <=? max_int64) with true
    by (symmetry; apply Z.leb_le; apply Hi).
  run. unfold bind. rewrite (generateOTP_ok _ w key Hd Hk).
  replace (String.eqb code (derive (self w) key _)) with false
    by (symmetry; apply String.eqb_neq; intros E; eapply Hno; eauto).
  apply IH. apply wrap_int64_range.
Qed.

Lemma derive_digits c key k :
  Strings.forall_bytes Strings.is_digit (derive c key k) = true.
Proof. apply Sprintf_0d_digits. Qed.

(** A text that is not made of digits is the code of no counter: with
    the largest window size ValidateHOTP runs out of any fuel on it. *)
Lemma ValidateHOTP_max_window_no_return fuel :
  ValidateHOTP fuel "12345x" max_int64 (rfc_hotp 0)
  = (OutOfFuel, rfc_hotp 0).
Proof.
  unfold ValidateHOTP. change (max_int64 <? 0) with false. cbv iota.
  apply (ValidateHOTP_loop_max_window (rfc_hotp 0) rfc_key).
  - unfold valid_digits; simpl; lia.
  - vm_compute; reflexivity.
  - intros k E. pose proof (derive_digits (self (rfc_hotp 0)) rfc_key k) as H.
    rewrite E in H. discriminate H.
  - unfold is_int64, min_int64, max_int64. pow2. lia.
Qed.

End LargestWindow.

(* ===================================================================== *)
(** ** TOTP validation *)

Section TOTP.
Import GoInt.

Lemma int_neg_window ws : 0 <= ws <= max_int64 -> int_neg ws = - ws.
Proof.
  intros H. unfold int_neg. apply wrap_int64_id.
  unfold is_int64, min_int64, max_int64 in *. pow2. lia.
Qed.

Lemma ValidateTOTPAt_search w key code t ws fuel :
  valid_digits (self w) ->
  decodeSecret w = (Ret (key, None), w) ->
  0 < Period (self w) <= max_int64 -> 0 <= Unix t <= max_int64 ->
  0 <= ws < max_int64 -> (2 * Z.to_nat ws + 1 < fuel)%nat ->
  ValidateTOTPAt fuel code t ws w
  = (Ret match first_match
                 (fun j => String.eqb code
                             (derive (self w) key
                                (uint64 (Unix t / Period (self w) + j))))
                 (- ws) (Z.to_nat (2 * ws + 1)) with
         | Some j => (true, None)
         | None => (false, None)
         end, w).
Proof.
  intros Hd Hk HP Ht Hws Hfuel. unfold ValidateTOTPAt.
  replace (ws <? 0) with false by (symmetry; apply Z.ltb_ge; lia).
  run. unfold bind.
  rewrite !uint64_id
    by (unfold is_uint64, max_int64 in *; pow2; lia).
  rewrite udiv_run by lia.
  rewrite int_neg_window by lia.
  apply ValidateTOTPAt_loop_run; auto;
    unfold min_int64, max_int64 in *; pow2; try lia.
Qed.

End TOTP.

(** C2 (as amended).  With a valid digit count, a decodable secret and a
    positive period, for a timestamp at or after the Unix epoch and a
    window size 0 <= w < 2^63 - 1, ValidateTOTPAt takes
    current-step = floor(unix-seconds(t) / period) and returns true
    exactly when the derived code of some step of current-step - w ..
    current-step + w (steps taken modulo 2^64, as 64-bit unsigned
    counters) is the presented code, and false otherwise; the result is a
    boolean, with no offset. *)
Theorem ValidateTOTPAt_window (w : World) (key : list Z) (code : string)
    (t : Time) (ws : Z) (fuel : nat) :
  valid_digits (self w) ->
  decodeSecret w = (Ret (key, None), w) ->
  0 < Period (self w) <= GoInt.max_int64 ->
  0 <= Unix t <= GoInt.max_int64 ->
  0 <= ws < GoInt.max_int64 ->
  (2 * Z.to_nat ws + 1 < fuel)%nat ->
  exists b : bool,
    ValidateTOTPAt fuel code t ws w = (Ret (b, None), w) /\
    (b = true <->
     exists s, Unix t / Period (self w) - ws <= s
               <= Unix t / Period (self w) + ws /\
               derives w (GoInt.uint64 s) code).
Proof.
  intros Hd Hk HP Ht Hws Hfuel.
  rewrite (ValidateTOTPAt_search w key code t ws fuel Hd Hk HP Ht Hws Hfuel).
  set (cur := Unix t / Period (self w)).
  destruct (first_match _ (- ws) (Z.to_nat (2 * ws + 1))) as [j|] eqn:Hfm.
  - exists true. split; [reflexivity|]. split; [intros _|reflexivity].
    apply first_match_some in Hfm. destruct Hfm as (Hr & Hp & _).
    exists (cur + j). split; [lia|].
    apply (derives_iff w key Hd Hk). symmetry. now apply String.eqb_eq.
  - exists false. split; [reflexivity|]. split; [discriminate|].
    intros (s & Hs & Hder). exfalso.
    apply (derives_iff w key Hd Hk) in Hder.
    pose proof (first_match_none _ _ _ Hfm (s - cur) ltac:(lia)) as Hf.
    cbv beta in Hf. replace (cur + (s - cur)) with s in Hf by lia.
    apply String.eqb_neq in Hf. congruence.
Qed.

(** Around T = 1111111109 with the period 30: the code of T passes with
    window 0; the code of T - 30s fails with window 0 and passes with
    window 1; the code of T + 60s fails with window 1 and passes with
    window 2. *)
Example ValidateTOTPAt_drift_examples :
  let T := time_Unix 1111111109 in
  exists now before after,
    fst (GenerateTOTPAt T rfc_totp) = Ret (now, None) /\
    fst (GenerateTOTPAt (time_Add T (seconds (-30))) rfc_totp)
    = Ret (before, None) /\
    fst (GenerateTOTPAt (time_Add T (seconds 60)) rfc_totp)
    = Ret (after, None) /\
    fst (ValidateTOTPAt 10 now T 0 rfc_totp) = Ret (true, None) /\
    fst (ValidateTOTPAt 10 before T 0 rfc_totp) = Ret (false, None) /\
    fst (ValidateTOTPAt 10 before T 1 rfc_totp) = Ret (true, None) /\
    fst (ValidateTOTPAt 10 after T 1 rfc_totp) = Ret (false, None) /\
    fst (ValidateTOTPAt 10 after T 2 rfc_totp) = Ret (true, None).
Proof.
  cbv zeta. exists "081804", "731029", "266759".
  vm_compute. repeat split.
Qed.

(* ===================================================================== *)
(** ** Negative window sizes *)

(** C3.  A negative window size is replaced by the default of the
    algorithm: ValidateHOTP behaves exactly as with window size 10 and
    ValidateTOTPAt exactly as with window size 1, whatever the receiver,
    the code, the time and the fuel. *)
Theorem negative_window_defaults (w : World) (code : string) (ws : Z)
    (fuel : nat) :
  ws < 0 ->
  ValidateHOTP fuel code ws w = ValidateHOTP fuel code 10 w /\
  forall t, ValidateTOTPAt fuel code t ws w = ValidateTOTPAt fuel code t 1 w.
Proof.
  intros H. unfold ValidateHOTP, ValidateTOTPAt.
  replace (ws <? 0) with true by (symmetry; apply Z.ltb_lt; exact H).
  split; [reflexivity|]. intros t. reflexivity.
Qed.

(** With window size -1 the HOTP scan reaches counter 9 (within the
    default 10) and the TOTP scan reaches one step on each side. *)
Example negative_window_examples :
  fst (ValidateHOTP 20 "520489" (-1) (rfc_hotp 0)) = Ret (true, 9, None) /\
  fst (ValidateTOTPAt 20 "755224" (time_Unix 59) (-5) rfc_totp)
  = Ret (true, None) /\
  fst (ValidateTOTPAt 20 "755224" (time_Unix 60) (-5) rfc_totp)
  = Ret (false, None).
Proof. vm_compute. repeat split. Qed.

(* ===================================================================== *)
(** ** What the operations write *)

Section Clock.

Lemma advance_self k : forall w, self (advance k w) = self w.
Proof. induction k as [|k IH]; intros w; [reflexivity|]. apply (IH (tick w)). Qed.

Lemma advance_clock k : forall w n, clock (advance k w) n = clock w (k + n)%nat.
Proof.
  induction k as [|k IH]; intros w n; [reflexivity|].
  cbn [advance]. rewrite IH. reflexivity.
Qed.

Lemma time_Now_run w : time_Now w = (Ret (clock w O), tick w).
Proof. reflexivity. Qed.

Lemma decodeSecret_self w w' r :
  decodeSecret w = (Ret r, w) -> self w' = self w ->
  decodeSecret w' = (Ret r, w').
Proof.
  intros H Hs. destruct (decodeSecret_run w') as [r' Hr'].
  assert (fst (decodeSecret w') = fst (decodeSecret w)) as He
    by (apply decodeSecret_secret; now rewrite Hs).
  rewrite H, Hr' in He. cbn [fst] in He. injection He as ->. exact Hr'.
Qed.

End Clock.

Section Frame.

Lemma ValidateHOTP_loop_frame fuel :
  forall code ws i w,
  exists o, ValidateHOTP_loop fuel code ws i w = (o, w) /\
            forall p, o <> Panicked p.
Proof.
  induction fuel as [|fuel IH]; intros code ws i w; cbn [ValidateHOTP_loop].
  - eexists; split; [reflexivity|discriminate].
  - destruct (i <=? ws); [|eexists; split; [reflexivity|discriminate]].
    run. unfold bind.
    destruct (generateOTP_total
                (GoInt.u64_add (Counter (self w)) (GoInt.uint64 i)) w)
      as [[s e] H].
    rewrite H. destruct e as [e|].
    + eexists; split; [reflexivity|discriminate].
    + destruct (String.eqb code s); [|apply IH].
      eexists; split; [reflexivity|discriminate].
Qed.

Lemma ValidateTOTPAt_loop_frame fuel :
  forall code cur ws i w,
  exists o, ValidateTOTPAt_loop fuel code cur ws i w = (o, w) /\
            forall p, o <> Panicked p.
Proof.
  induction fuel as [|fuel IH]; intros code cur ws i w;
    cbn [ValidateTOTPAt_loop].
  - eexists; split; [reflexivity|discriminate].
  - destruct (i <=? ws); [|eexists; split; [reflexivity|discriminate]].
    run. unfold bind.
    destruct (generateOTP_total (GoInt.u64_add cur (GoInt.uint64 i)) w)
      as [[s e] H].
    rewrite H. destruct e as [e|].
    + eexists; split; [reflexivity|discriminate].
    + destruct (String.eqb code s); [|apply IH].
      eexists; split; [reflexivity|discriminate].
Qed.

Lemma ValidateHOTP_frame fuel code ws w :
  snd (ValidateHOTP fuel code ws w) = w.
Proof.
  unfold ValidateHOTP.
  destruct (ValidateHOTP_loop_frame fuel code
              (if ws <? 0 then 10 else ws) 0 w) as (o & H & _).
  now rewrite H.
Qed.

Lemma ValidateTOTPAt_frame fuel code t ws w :
  snd (ValidateTOTPAt fuel code t ws w) = w.
Proof.
  unfold ValidateTOTPAt. run. unfold bind, udiv.
  destruct (GoInt.uint64 (Period (self w)) =? 0); [reflexivity|].
  cbn [ret].
  match goal with
  | |- snd (ValidateTOTPAt_loop ?f ?c ?cur ?x ?i ?w) = _ =>
      destruct (ValidateTOTPAt_loop_frame f c cur x i w) as (o & H & _)
  end.
  now rewrite H.
Qed.

Lemma GenerateTOTPAt_frame t w : snd (GenerateTOTPAt t w) = defaulted w.
Proof.
  unfold GenerateTOTPAt, defaulted. run. unfold bind.
  destruct (Period (self w) <=? 0); cbn [set_Period ret self];
    unfold udiv;
    match goal with
    | |- context [if ?b then _ else _] => destruct b; [reflexivity|]
    end;
    cbn [ret];
    match goal with
    | |- snd (generateOTP ?n ?w) = _ =>
        destruct (generateOTP_total n w) as [r H]; now rewrite H
    end.
Qed.

Lemma defaulted_fields w :
  same_but_Period (self w) (self (defaulted w)) /\
  Period (self (defaulted w))
  = (if Period (self w) <=? 0 then 30 else Period (self w)).
Proof.
  unfold defaulted, same_but_Period.
  destruct (Period (self w) <=? 0); cbn; repeat split.
Qed.

End Frame.

Section BatchFrame.

Lemma defaulted_idem w : self (defaulted (defaulted w)) = self (defaulted w).
Proof.
  unfold defaulted. destruct (Z.leb_spec (Period (self w)) 0) as [H|H].
  - cbn. reflexivity.
  - destruct (Z.leb_spec (Period (self w)) 0); [lia|reflexivity].
Qed.

Lemma defaulted_tick w : self (defaulted (tick w)) = self (defaulted w).
Proof. unfold defaulted, tick. cbn. destruct (_ <=? 0); reflexivity. Qed.

Lemma defaulted_self_ext w1 w2 :
  self w1 = self w2 -> self (defaulted w1) = self (defaulted w2).
Proof.
  intros H. unfold defaulted. rewrite H.
  destruct (_ <=? 0); [reflexivity|exact H].
Qed.

Lemma GetCurrentTOTPWindow_frame w :
  snd (GetCurrentTOTPWindow w) = tick (defaulted w).
Proof.
  unfold GetCurrentTOTPWindow, defaulted. run. unfold bind.
  destruct (Period (self w) <=? 0);
    cbn [set_Period ret]; rewrite time_Now_run; cbn [tick self];
    unfold idiv;
    match goal with
    | |- context [if ?b then _ else _] => destruct b; reflexivity
    end.
Qed.

Lemma GenerateTOTPBatch_loop_frame todo :
  forall N i base entries w,
    self (snd (GenerateTOTPBatch_loop todo N i base entries w))
    = self (match todo with O => w | S _ => defaulted w end).
Proof.
  induction todo as [|todo IH]; intros N i base entries w; [reflexivity|].
  cbn [GenerateTOTPBatch_loop]. run. unfold bind.
  match goal with
  | |- context [GenerateTOTPAt ?t w] =>
      pose proof (GenerateTOTPAt_frame t w) as Hg;
      destruct (GenerateTOTPAt t w) as [o w1]
  end.
  cbn [snd] in Hg. subst w1.
  destruct o as [[code [e|]]|p|]; try reflexivity.
  pose proof (GetCurrentTOTPWindow_frame (defaulted w)) as Hw.
  destruct (GetCurrentTOTPWindow (defaulted w)) as [o w2].
  cbn [snd] in Hw. subst w2.
  assert (self (tick (defaulted (defaulted w))) = self (defaulted w)) as Hs
    by (cbn [tick self]; apply defaulted_idem).
  destruct o as [[start end_]|p|]; try exact Hs.
  unfold set_entry.
  match goal with
  | |- context [if ?b then _ else _] => destruct b; [|exact Hs]
  end.
  cbn [ret]. rewrite IH.
  destruct todo; [exact Hs|].
  rewrite (defaulted_self_ext _ (defaulted w) Hs). apply defaulted_idem.
Qed.

Lemma GenerateTOTPBatch_frame N w :
  self (snd (GenerateTOTPBatch N w)) = self (defaulted w).
Proof.
  unfold GenerateTOTPBatch, bind. rewrite time_Now_run.
  rewrite GenerateTOTPBatch_loop_frame.
  set (n := if N <=? 0 then 3 else N).
  assert (0 < n) as Hn by (unfold n; destruct (Z.leb_spec N 0); lia).
  destruct (Z.to_nat n) eqn:E; [lia|]. apply defaulted_tick.
Qed.

End BatchFrame.

Section TimeQueries.
Import GoInt.

(** At a step boundary the remaining time is the whole period, not zero. *)
Lemma GetRemainingTime_boundary w :
  0 < Period (self w) <= max_int64 ->
  0 <= Unix (clock w O) ->
  Unix (clock w O) mod Period (self w) = 0 ->
  fst (GetRemainingTime w) = Ret (Period (self w)).
Proof.
  intros HP Hnow Hmod. unfold GetRemainingTime. run. unfold bind.
  replace (Period (self w) <=? 0) with false
    by (symmetry; apply Z.leb_gt; lia).
  cbn [ret]. rewrite time_Now_run. cbn [tick self fst].
  unfold int_rem. rewrite Z.rem_mod_nonneg by lia. rewrite Hmod.
  unfold int_sub. rewrite Z.sub_0_r. f_equal. apply wrap_int64_id.
  unfold is_int64, min_int64, max_int64 in *. pow2. lia.
Qed.

End TimeQueries.


(** C9 (as amended).  GenerateHOTP, GenerateHOTPAt, ValidateHOTP and
    ValidateTOTPAt leave the receiver (and the clock) exactly as they were,
    so that in particular the stored Counter is the same after a HOTP
    validation; ValidateTOTP leaves the receiver as it was.  GenerateTOTPAt,
    GenerateTOTP and GenerateTOTPBatch leave Secret, Digits, Algorithm,
    Counter, Issuer and AccountName as they were, and Period too when it is
    positive; a Period that is zero or negative is overwritten with 30. *)
Theorem generate_validate_frame (w : World) :
  snd (GenerateHOTP w) = w /\
  (forall counter, snd (GenerateHOTPAt counter w) = w) /\
  (forall fuel code ws, snd (ValidateHOTP fuel code ws w) = w) /\
  (forall fuel code t ws, snd (ValidateTOTPAt fuel code t ws w) = w) /\
  (forall fuel code ws, self (snd (ValidateTOTP fuel code ws w)) = self w) /\
  (forall t,
      let c' := self (snd (GenerateTOTPAt t w)) in
      same_but_Period (self w) c' /\
      Period c' = if Period (self w) <=? 0 then 30 else Period (self w)) /\
  (let c' := self (snd (GenerateTOTP w)) in
   same_but_Period (self w) c' /\
   Period c' = if Period (self w) <=? 0 then 30 else Period (self w)) /\
  (forall N,
      let c' := self (snd (GenerateTOTPBatch N w)) in
      same_but_Period (self w) c' /\
      Period c' = if Period (self w) <=? 0 then 30 else Period (self w)).
Proof.
  split; [|split; [|split; [|split; [|split; [|split; [|split]]]]]].
  - unfold GenerateHOTP. run. unfold bind.
    destruct (generateOTP_total (Counter (self w)) w) as [r H].
    now rewrite H.
  - intros counter. unfold GenerateHOTPAt.
    destruct (generateOTP_total counter w) as [r H]. now rewrite H.
  - intros. apply ValidateHOTP_frame.
  - intros. apply ValidateTOTPAt_frame.
  - intros. unfold ValidateTOTP, time_Now, bind.
    rewrite ValidateTOTPAt_frame. reflexivity.
  - intros t. cbv zeta. rewrite GenerateTOTPAt_frame.
    apply defaulted_fields.
  - cbv zeta. unfold GenerateTOTP, time_Now, bind.
    rewrite GenerateTOTPAt_frame.
    apply (defaulted_fields {| self := self w;
                               clock := fun n => clock w (S n) |}).
  - intros N. cbv zeta. rewrite GenerateTOTPBatch_frame.
    apply defaulted_fields.
Qed.

(* ===================================================================== *)
(** ** The period in TOTP validation *)

Section PeriodDivision.
Import GoInt.

Lemma run_Ret_inj {A} (a b : A) (w1 w2 : World) :
  (Ret a, w1) = (Ret b, w2) -> a = b.
Proof. intros H. inversion H. reflexivity. Qed.

Lemma uint64_nonzero p : is_int64 p -> p <> 0 -> uint64 p <> 0.
Proof.
  unfold is_int64, min_int64, max_int64, uint64, wrapu. pow2.
  intros Hr Hp Hz. apply Z.mod_divide in Hz; [|lia].
  destruct Hz as [k Hk]. lia.
Qed.

Lemma uint64_negative p :
  min_int64 <= p < 0 -> uint64 p = 2 ^ 64 + p.
Proof.
  unfold min_int64, uint64, wrapu. pow2. intros H.
  symmetry. apply (Z.mod_unique_pos p 18446744073709551616 (-1)); lia.
Qed.

(** The quotient the code computes is the step floor(unix / period)
    (as a 64-bit unsigned counter) exactly when the period is positive:
    a zero period divides by zero, and a negative one is read as the
    unsigned 2^64 + period. *)
Lemma step_division_exact w t :
  is_int64 (Period (self w)) -> 0 < Unix t <= max_int64 ->
  (udiv (uint64 (Unix t)) (uint64 (Period (self w))) w
   = (Ret (uint64 (Unix t / Period (self w))), w)
   <-> 0 < Period (self w)).
Proof.
  intros HP Ht. set (P := Period (self w)) in *.
  assert (uint64 (Unix t) = Unix t) as Hu.
  { apply uint64_id. unfold is_uint64, max_int64 in *. pow2. lia. }
  rewrite Hu. split.
  - intros H. destruct (Z.lt_trichotomy P 0) as [Hneg|[Hz|Hpos]];
      [exfalso|exfalso|exact Hpos].
    + rewrite uint64_negative in H
        by (unfold is_int64 in HP; lia).
      unfold is_int64, min_int64, max_int64 in *. pow2.
      rewrite udiv_run in H by lia.
      apply run_Ret_inj in H.
      rewrite (Z.div_small (Unix t)) in H by lia.
      pose proof (Z.div_mod (Unix t) P ltac:(lia)) as Hdm.
      pose proof (Z.mod_neg_bound (Unix t) P Hneg) as Hm.
      assert (- Unix t <= Unix t / P < 0) as Hq by nia.
      rewrite uint64_negative in H by (unfold min_int64; pow2; lia).
      pow2. lia.
    + rewrite Hz in H. discriminate H.
  - intros Hpos.
    unfold is_int64, min_int64, max_int64 in *.
    rewrite (uint64_id P) by (unfold is_uint64; pow2; lia).
    rewrite udiv_run by lia. f_equal. f_equal. symmetry.
    apply uint64_id. unfold is_uint64. pow2.
    split; [apply Z.div_pos; lia|].
    apply Z.le_lt_trans with (Unix t); [|lia].
    apply Z.div_le_upper_bound; nia.
Qed.

End PeriodDivision.

(** C10.  ValidateTOTPAt does not replace a period that is not positive:
    with Period = 0 the division by the period panics (integer divide by
    zero), whatever the code, the time, the window and the digit count,
    whereas GenerateTOTPAt on the same receiver first stores the default 30
    and divides by it.  With a positive period the division is defined and
    ValidateTOTPAt runs its scan around floor(unix / period) without
    panicking; and the quotient it computes is that step only when the
    period is positive. *)
Theorem ValidateTOTPAt_needs_positive_period (w : World) :
  GoInt.is_int64 (Period (self w)) ->
  (Period (self w) = 0 ->
   (forall fuel code t ws,
       ValidateTOTPAt fuel code t ws w = (Panicked DivideByZero, w)) /\
   (forall t,
       GenerateTOTPAt t w
       = generateOTP (GoInt.uint64 (Unix t) / 30)
           {| self := with_Period (self w) 30; clock := clock w |})) /\
  (0 < Period (self w) ->
   forall fuel code t ws,
     0 <= Unix t <= GoInt.max_int64 ->
     ValidateTOTPAt fuel code t ws w
     = ValidateTOTPAt_loop fuel code (Unix t / Period (self w))
         (if ws <? 0 then 1 else ws)
         (GoInt.int_neg (if ws <? 0 then 1 else ws)) w /\
     forall p, fst (ValidateTOTPAt fuel code t ws w) <> Panicked p) /\
  (forall t,
      0 < Unix t <= GoInt.max_int64 ->
      udiv (GoInt.uint64 (Unix t)) (GoInt.uint64 (Period (self w))) w
      = (Ret (GoInt.uint64 (Unix t / Period (self w))), w)
      <-> 0 < Period (self w)).
Proof.
  intros HP. split; [|split].
  - intros Hz. split.
    + intros fuel code t ws. unfold ValidateTOTPAt. run. unfold bind.
      rewrite Hz. reflexivity.
    + intros t. unfold GenerateTOTPAt. run. unfold bind.
      rewrite Hz. reflexivity.
  - intros Hpos fuel code t ws Ht.
    assert (ValidateTOTPAt fuel code t ws w
            = ValidateTOTPAt_loop fuel code (Unix t / Period (self w))
                (if ws <? 0 then 1 else ws)
                (GoInt.int_neg (if ws <? 0 then 1 else ws)) w) as Heq.
    { unfold ValidateTOTPAt. run. unfold bind.
      unfold GoInt.is_int64, GoInt.min_int64, GoInt.max_int64 in *.
      rewrite !uint64_id by (unfold GoInt.is_uint64; pow2; lia).
      rewrite udiv_run by lia. reflexivity. }
    split; [exact Heq|]. intros p. rewrite Heq.
    match goal with
    | |- fst (ValidateTOTPAt_loop ?f ?c ?cur ?x ?i ?w) <> _ =>
        destruct (ValidateTOTPAt_loop_frame f c cur x i w) as (o & H & Hn)
    end.
    rewrite H. apply Hn.
  - intros t Ht. now apply step_division_exact.
Qed.

(* ===================================================================== *)
(** ** The digit count *)

Section InvalidDigits.
Import GoInt.

Lemma int_neg_le ws : 0 <= ws <= max_int64 -> int_neg ws <= ws.
Proof. intros H. rewrite int_neg_window by lia. lia. Qed.

End InvalidDigits.

(** C5 (as amended).  For every digit count outside [1,10] generateOTP
    returns the error ErrInvalidDigits and the empty string, before the
    secret is even decoded; the value is not clamped into the range.
    Hence every operation that reaches generateOTP fails with that error:
    GenerateHOTP, GenerateHOTPAt, ValidateHOTP (at its first counter),
    GenerateTOTPAt, GenerateTOTP, GenerateTOTPBatch (at its first entry,
    wrapped in the message of the batch), and, on a receiver whose period
    is not zero, ValidateTOTPAt and ValidateTOTP (at their first step).
    With a period of zero the two TOTP validations do not reach
    generateOTP: they divide by the period first. *)
Theorem invalid_digits_rejected (w : World) :
  Digits (self w) < 1 \/ 10 < Digits (self w) ->
  (forall counter,
      generateOTP counter w = (Ret ("", Some ErrInvalidDigits), w)) /\
  GenerateHOTP w = (Ret ("", Some ErrInvalidDigits), w) /\
  (forall counter,
      GenerateHOTPAt counter w = (Ret ("", Some ErrInvalidDigits), w)) /\
  (forall fuel code ws,
      (0 < fuel)%nat ->
      ValidateHOTP fuel code ws w
      = (Ret (false, 0, Some ErrInvalidDigits), w)) /\
  (forall t,
      GoInt.is_int64 (Period (self w)) ->
      fst (GenerateTOTPAt t w) = Ret ("", Some ErrInvalidDigits)) /\
  (forall fuel code t ws,
      (0 < fuel)%nat -> ws <= GoInt.max_int64 ->
      GoInt.is_int64 (Period (self w)) -> Period (self w) <> 0 ->
      ValidateTOTPAt fuel code t ws w
      = (Ret (false, Some ErrInvalidDigits), w)) /\
  (forall fuel code ws,
      (0 < fuel)%nat -> ws <= GoInt.max_int64 ->
      GoInt.is_int64 (Period (self w)) -> Period (self w) <> 0 ->
      fst (ValidateTOTP fuel code ws w)
      = Ret (false, Some ErrInvalidDigits)) /\
  (GoInt.is_int64 (Period (self w)) ->
   fst (GenerateTOTP w) = Ret ("", Some ErrInvalidDigits)) /\
  (forall N,
      GoInt.is_int64 (Period (self w)) ->
      exists e, fst (GenerateTOTPBatch N w) = Ret ([], Some e) /\
                errors_Is e ErrInvalidDigits = true).
Proof.
  intros Hd.
  assert (forall w', Digits (self w') = Digits (self w) ->
          forall counter,
            generateOTP counter w' = (Ret ("", Some ErrInvalidDigits), w'))
    as Hgen.
  { intros w' Hw' counter. apply generateOTP_invalid_digits.
    rewrite Hw'. lia. }
  assert (forall w' t, Digits (self w') = Digits (self w) ->
          GoInt.is_int64 (Period (self w')) ->
          fst (GenerateTOTPAt t w') = Ret ("", Some ErrInvalidDigits))
    as Hat.
  { intros w' t Hw' HP. unfold GenerateTOTPAt. run. unfold bind.
    destruct (Z.leb_spec (Period (self w')) 0) as [Hle|Hgt];
      cbn [set_Period ret self with_Period Period].
    + change (GoInt.uint64 30) with 30. rewrite udiv_run by lia.
      rewrite Hgen by exact Hw'. reflexivity.
    + rewrite udiv_run by (apply uint64_nonzero; [exact HP|lia]).
      rewrite Hgen by exact Hw'. reflexivity. }
  assert (forall w' fuel code t ws,
          Digits (self w') = Digits (self w) ->
          (0 < fuel)%nat -> ws <= GoInt.max_int64 ->
          GoInt.is_int64 (Period (self w')) -> Period (self w') <> 0 ->
          ValidateTOTPAt fuel code t ws w'
          = (Ret (false, Some ErrInvalidDigits), w')) as Hval.
  { intros w' fuel code t ws Hw' Hfuel Hws HP Hnz.
    destruct fuel as [|fuel]; [lia|].
    unfold ValidateTOTPAt. run. unfold bind.
    rewrite udiv_run by (now apply uint64_nonzero).
    cbn [ValidateTOTPAt_loop].
    set (ws' := if ws <? 0 then 1 else ws).
    assert (0 <= ws' <= GoInt.max_int64) as Hws'.
    { unfold ws'. destruct (Z.ltb_spec ws 0); [|lia].
      unfold GoInt.max_int64. pow2. lia. }
    replace (GoInt.int_neg ws' <=? ws') with true
      by (symmetry; apply Z.leb_le; now apply int_neg_le).
    unfold bind. rewrite Hgen by exact Hw'. reflexivity. }
  split; [|split; [|split; [|split; [|split; [|split; [|split; [|split]]]]]]].
  - apply Hgen. reflexivity.
  - unfold GenerateHOTP. run. unfold bind. apply Hgen. reflexivity.
  - intros counter. apply Hgen. reflexivity.
  - intros fuel code ws Hfuel. destruct fuel as [|fuel]; [lia|].
    unfold ValidateHOTP. cbn [ValidateHOTP_loop].
    replace (0 <=? (if ws <? 0 then 10 else ws)) with true
      by (symmetry; apply Z.leb_le; destruct (Z.ltb_spec ws 0); lia).
    run. unfold bind. rewrite Hgen by reflexivity. reflexivity.
  - intros t HP. apply Hat; [reflexivity|exact HP].
  - intros fuel code t ws Hfuel Hws HP Hnz.
    apply Hval; [reflexivity|assumption..].
  - intros fuel code ws Hfuel Hws HP Hnz.
    unfold ValidateTOTP, bind. rewrite time_Now_run.
    rewrite Hval; [reflexivity|reflexivity|assumption..].
  - intros HP. unfold GenerateTOTP, bind, time_Now.
    apply Hat; [reflexivity|exact HP].
  - intros N HP. unfold GenerateTOTPBatch, bind, time_Now.
    set (n := if N <=? 0 then 3 else N).
    assert (0 < n) as Hn by (unfold n; destruct (Z.leb_spec N 0); lia).
    destruct (Z.to_nat n) as [|todo] eqn:E; [lia|].
    cbn [GenerateTOTPBatch_loop]. run. unfold bind.
    match goal with
    | |- context [GenerateTOTPAt ?t ?w'] =>
        pose proof (Hat w' t eq_refl HP) as Hr;
        destruct (GenerateTOTPAt t w') as [o w1]
    end.
    cbn [fst] in Hr. subst o. cbn [fst].
    eexists. split; reflexivity.
Qed.

(* ===================================================================== *)
(** ** Determinism and width of the code *)

(** C4.  With a digit count in [1,10] and a secret that decodes,
    generateOTP returns a code and no error, writes nothing, and the code
    is a function of the secret, the counter, the digit count and the
    algorithm: a second receiver that agrees on these three fields (and
    may differ on the period, the stored counter, the issuer, the account
    name and the clock) yields the same code for the same counter.  The
    code is made of decimal digits and its length is exactly the digit
    count, being the value printed with zeros on the left. *)
Theorem generateOTP_deterministic (w1 w2 : World) (key : list Z)
    (counter : Z) :
  valid_digits (self w1) ->
  decodeSecret w1 = (Ret (key, None), w1) ->
  Secret (self w2) = Secret (self w1) ->
  Digits (self w2) = Digits (self w1) ->
  Algorithm (self w2) = Algorithm (self w1) ->
  exists code v,
    generateOTP counter w1 = (Ret (code, None), w1) /\
    generateOTP counter w2 = (Ret (code, None), w2) /\
    String.length code = Z.to_nat (Digits (self w1)) /\
    Strings.forall_bytes Strings.is_digit code = true /\
    0 <= v < 10 ^ Digits (self w1) /\
    code = Strings.pad_left "0"
             (Z.to_nat (Digits (self w1))
              - String.length (Strconv.FormatUint v))
             (Strconv.FormatUint v).
Proof.
  intros Hd Hk HS HD HA.
  assert (decodeSecret w2 = (Ret (key, None), w2)) as Hk2.
  { destruct (decodeSecret_run w2) as [r Hr].
    pose proof (decodeSecret_secret w2 w1 HS) as He.
    rewrite Hr, Hk in He. cbn [fst] in He. rewrite Hr.
    injection He as ->. reflexivity. }
  assert (valid_digits (self w2)) as Hd2
    by (unfold valid_digits in *; rewrite HD; exact Hd).
  exists (derive (self w1) key counter), (otp_value (self w1) key counter).
  split; [now apply generateOTP_ok|].
  split.
  { rewrite (generateOTP_ok counter w2 key Hd2 Hk2).
    now rewrite (derive_ext (self w2) (self w1)). }
  pose proof (otp_value_range (self w1) key counter Hd) as Hv.
  split.
  { unfold derive. apply Sprintf_0d_length; [unfold valid_digits in Hd; lia|].
    exact Hv. }
  split; [apply Sprintf_0d_digits|].
  split; [exact Hv|reflexivity].
Qed.

(* ===================================================================== *)
(** ** The reduction modulo a power of ten *)

Section Reduction.

(** Up to nine digits the value of the code is the truncated hash
    modulo 10^d. *)
Lemma otp_value_pow10 c key counter :
  1 <= Digits c <= 9 ->
  otp_value c key counter = truncatedHash c key counter mod 10 ^ Digits c.
Proof. intros H. unfold otp_value. now rewrite modulus_pow10. Qed.

Lemma truncatedHash_range c key counter :
  0 <= truncatedHash c key counter < 2 ^ 31.
Proof. unfold truncatedHash. apply land_31bit_range. Qed.

(** With ten digits the modulus is 10^10 mod 2^32 = 1410065408, and the
    value is the truncated hash modulo 10^10 only below that modulus. *)
Lemma otp_value_ten c key counter :
  Digits c = 10 ->
  (otp_value c key counter = truncatedHash c key counter mod 10 ^ 10
   <-> truncatedHash c key counter < 1410065408).
Proof.
  intros H. unfold otp_value. rewrite H, modulus_ten.
  pose proof (truncatedHash_range c key counter) as Hr. pow2.
  rewrite (Z.mod_small _ (10 ^ 10)) by (change (10 ^ 10) with 10000000000; lia).
  split.
  - intros He.
    pose proof (Z.mod_pos_bound (truncatedHash c key counter) 1410065408
                  ltac:(lia)). lia.
  - intros Hlt. apply Z.mod_small. lia.
Qed.

End Reduction.

(** C6, evaluated where it fails.  For the RFC key, counter 3 and ten
    digits the truncated hash is 1726969429, which is its own residue
    modulo 10^10; generateOTP reduces it modulo uint32(10^10) = 1410065408
    and returns the code 0316904021 instead of 1726969429. *)
Theorem generateOTP_ten_digits_overflow :
  valid_digits (self rfc_hotp10) /\
  decodeSecret rfc_hotp10 = (Ret (rfc_key, None), rfc_hotp10) /\
  truncatedHash (self rfc_hotp10) rfc_key 3 = 1726969429 /\
  Strconv.Sprintf_0d 10 (1726969429 mod 10 ^ 10) = "1726969429" /\
  generateOTP 3 rfc_hotp10 = (Ret ("0316904021", None), rfc_hotp10).
Proof.
  split; [unfold valid_digits; simpl; lia|].
  repeat split; vm_compute; reflexivity.
Qed.

(* ===================================================================== *)
(** ** Batch generation *)

Section Batch.
Import GoInt.

Variable c : Config.
Variable key : list Z.
Variable N : Z.
Variable base : Time.

Let P := Period c.
Let cur := Unix base / P.

Hypothesis Hd : valid_digits c.
Hypothesis HN : 1 <= N.
Hypothesis HP : 0 < P.
Hypothesis Hlo : N / 2 * P <= Unix base.
Hypothesis Hhi : (Unix base + (N / 2 + 1) * P) * time_Second <= max_int64.

Lemma half_bounds : 0 <= N / 2 < N /\ N - 1 <= 2 * (N / 2) <= N.
Proof.
  pose proof (Z.div_mod N 2 ltac:(lia)) as H.
  pose proof (Z.mod_pos_bound N 2 ltac:(lia)) as Hm.
  lia.
Qed.

Lemma offset_bounds off :
  - (N / 2) <= off <= N / 2 ->
  is_int64 (off * P) /\ is_int64 (off * P * time_Second) /\
  0 <= Unix base + off * P <= max_int64.
Proof.
  intros Hoff. pose proof half_bounds as Hh.
  unfold is_int64, min_int64, max_int64, time_Second in *.
  change (10 ^ 9) with 1000000000 in *. pow2.
  assert (- (N / 2 * P) <= off * P <= N / 2 * P) as Hm by nia.
  lia.
Qed.

Lemma step_bounds :
  0 <= cur /\ cur * P <= Unix base /\ is_int64 (cur * P) /\
  is_int64 (cur + 1) /\ is_int64 ((cur + 1) * P).
Proof.
  pose proof half_bounds as Hh.
  assert (0 <= Unix base) as Hb by nia.
  assert (0 <= cur) as Hc by (apply Z.div_pos; lia).
  assert (cur * P <= Unix base) as Hcp
    by (rewrite Z.mul_comm; apply Z.mul_div_le; lia).
  unfold is_int64, min_int64, max_int64, time_Second in *.
  change (10 ^ 9) with 1000000000 in *. pow2.
  repeat split; nia.
Qed.

Lemma GenerateTOTPAt_run w t :
  self w = c -> decodeSecret w = (Ret (key, None), w) ->
  0 <= Unix t <= max_int64 ->
  GenerateTOTPAt t w = (Ret (derive c key (Unix t / P), None), w).
Proof.
  intros Hs Hk Ht. unfold GenerateTOTPAt. run. unfold bind. rewrite Hs.
  fold P. replace (P <=? 0) with false by (symmetry; apply Z.leb_gt; lia).
  cbn [ret]. rewrite Hs. fold P.
  pose proof (offset_bounds 0 ltac:(pose proof half_bounds; lia)) as _.
  assert (P <= max_int64) as HPm.
  { pose proof half_bounds.
    unfold max_int64, time_Second in *. change (10 ^ 9) with 1000000000 in *.
    pow2. nia. }
  rewrite !uint64_id by (unfold is_uint64, max_int64 in *; pow2; lia).
  rewrite udiv_run by lia.
  rewrite <- Hs. apply generateOTP_ok; rewrite ?Hs; assumption.
Qed.

Lemma GetCurrentTOTPWindow_run w :
  self w = c -> 0 <= Unix (clock w O) -> Unix (clock w O) / P = cur ->
  GetCurrentTOTPWindow w
  = (Ret (time_Unix (cur * P), time_Unix ((cur + 1) * P)), tick w).
Proof.
  intros Hs Hnow Hcur. unfold GetCurrentTOTPWindow. run. unfold bind.
  rewrite Hs. fold P.
  replace (P <=? 0) with false by (symmetry; apply Z.leb_gt; lia).
  cbn [ret]. rewrite time_Now_run. cbn [tick self]. rewrite Hs. fold P.
  unfold idiv. replace (P =? 0) with false by (symmetry; apply Z.eqb_neq; lia).
  cbn [ret]. unfold int_quo.
  rewrite Z.quot_div_nonneg by lia. rewrite Hcur.
  destruct step_bounds as (Hc & Hcp & H1 & H2 & H3).
  rewrite (wrap_int64_id cur)
    by (unfold is_int64, min_int64, max_int64 in *; pow2; lia).
  unfold int_mul, int_add. rewrite (wrap_int64_id (cur + 1)) by exact H2.
  rewrite !wrap_int64_id by assumption.
  reflexivity.
Qed.

Lemma set_entry_run (done : list TOTPEntry) todo e w i :
  Z.of_nat (List.length done) = i ->
  set_entry (done ++ repeat zero_TOTPEntry (S todo)) i e w
  = (Ret ((done ++ [e]) ++ repeat zero_TOTPEntry todo), w).
Proof.
  intros Hi. unfold set_entry. rewrite length_app, repeat_length.
  replace ((0 <=? i) && (i <? Z.of_nat (List.length done + S todo))) with true
    by (symmetry; rewrite andb_true_iff, Z.leb_le, Z.ltb_lt; lia).
  replace (Z.to_nat i) with (List.length done) by lia.
  rewrite firstn_app, firstn_all, Nat.sub_diag. cbn [firstn].
  rewrite app_nil_r.
  replace (S (List.length done)) with (List.length done + 1)%nat by lia.
  rewrite skipn_app, skipn_all2 by lia.
  replace (List.length done + 1 - List.length done)%nat with 1%nat by lia.
  cbn [skipn repeat app]. rewrite <- app_assoc. reflexivity.
Qed.

(** The loop fills the entries from index [i] on with the entries of the
    steps at offsets [i - N/2], [i + 1 - N/2], ..., reading the clock once
    per entry. *)
Lemma GenerateTOTPBatch_loop_run todo :
  forall i (done : list TOTPEntry) w,
    self w = c -> decodeSecret w = (Ret (key, None), w) ->
    Z.of_nat todo = N - i -> 0 <= i ->
    Z.of_nat (List.length done) = i ->
    (forall n, (n < todo)%nat ->
               0 <= Unix (clock w n) /\ Unix (clock w n) / P = cur) ->
    GenerateTOTPBatch_loop todo N i base
      (done ++ repeat zero_TOTPEntry todo) w
    = (Ret (done ++ map (fun k => batch_entry c key cur N (i + Z.of_nat k))
                      (seq 0 todo), None),
       advance todo w).
Proof.
  induction todo as [|todo IH]; intros i done w Hs Hk Htodo Hi Hlen Hclock.
  - cbn. reflexivity.
  - cbn [GenerateTOTPBatch_loop]. run. unfold bind. rewrite Hs. fold P.
    pose proof half_bounds as Hh.
    assert (int_quo N 2 = N / 2) as Hq.
    { unfold int_quo. rewrite Z.quot_div_nonneg by lia.
      apply wrap_int64_id.
      unfold is_int64, min_int64, max_int64, time_Second in *.
      change (10 ^ 9) with 1000000000 in *. pow2. nia. }
    rewrite Hq.
    assert (- (N / 2) <= i - N / 2 <= N / 2) as Hoff by lia.
    destruct (offset_bounds _ Hoff) as (Ho1 & Ho2 & Ho3).
    assert (int_sub i (N / 2) = i - N / 2) as Hsub.
    { unfold int_sub. apply wrap_int64_id.
      unfold is_int64, min_int64, max_int64, time_Second in *.
      change (10 ^ 9) with 1000000000 in *. pow2. nia. }
    rewrite Hsub. set (off := i - N / 2) in *.
    assert (seconds (int_mul off P) = off * P * time_Second) as Hsec.
    { unfold seconds, int_mul.
      rewrite (wrap_int64_id (off * P)) by exact Ho1.
      apply wrap_int64_id. exact Ho2. }
    rewrite Hsec.
    assert (Unix (time_Add base (off * P * time_Second))
            = Unix base + off * P) as Htarget.
    { unfold Unix, time_Add. apply Z.div_add. unfold time_Second.
      change (10 ^ 9) with 1000000000. lia. }
    rewrite GenerateTOTPAt_run by (rewrite ?Htarget; assumption).
    rewrite Htarget.
    replace ((Unix base + off * P) / P) with (cur + off)
      by (unfold cur; symmetry; apply Z.div_add; lia).
    destruct (Hclock O ltac:(lia)) as [Hnow Hcur].
    rewrite GetCurrentTOTPWindow_run by assumption.
    cbn [tick self]. rewrite Hs. fold P. rewrite Hsec.
    set (e := {| Code := derive c key (cur + off);
                 ValidFrom := _; ValidTo := _; IsCurrent := _ |}).
    assert (e = batch_entry c key cur N (i + Z.of_nat 0)) as He.
    { unfold e, batch_entry. fold P.
      replace (i + Z.of_nat 0 - N / 2) with off by (unfold off; lia).
      destruct (Z.eqb_spec off 0) as [H0|H0].
      - rewrite H0, !Z.add_0_r. reflexivity.
      - unfold time_Add, time_Unix. f_equal; lia. }
    rewrite (set_entry_run done todo e (tick w) i Hlen).
    assert (int_add i 1 = i + 1) as Hinc.
    { unfold int_add. apply wrap_int64_id.
      unfold is_int64, min_int64, max_int64, time_Second in *.
      change (10 ^ 9) with 1000000000 in *. pow2. nia. }
    rewrite Hinc.
    rewrite (IH (i + 1) (done ++ [e]) (tick w)); cbn [tick self clock]; auto.
    + cbn [advance seq map]. rewrite <- app_assoc. cbn [app].
      rewrite He. rewrite <- seq_shift, map_map.
      rewrite (map_ext
                 (fun k => batch_entry c key cur N (i + 1 + Z.of_nat k))
                 (fun k => batch_entry c key cur N (i + Z.of_nat (S k))))
        by (intros k; f_equal; lia).
      reflexivity.
    + apply (decodeSecret_self w); [exact Hk|reflexivity].
    + lia.
    + lia.
    + rewrite length_app. cbn [List.length]. lia.
    + intros n Hn. apply (Hclock (S n)). lia.
Qed.

End Batch.

Section BatchResult.
Import GoInt.

Lemma GenerateTOTPBatch_run w key N :
  valid_digits (self w) ->
  decodeSecret w = (Ret (key, None), w) ->
  1 <= N -> 0 < Period (self w) ->
  N / 2 * Period (self w) <= Unix (clock w O) ->
  (Unix (clock w O) + (N / 2 + 1) * Period (self w)) * time_Second
  <= max_int64 ->
  (forall n, (n <= Z.to_nat N)%nat ->
             0 <= Unix (clock w n) /\
             Unix (clock w n) / Period (self w)
             = Unix (clock w O) / Period (self w)) ->
  GenerateTOTPBatch N w
  = (Ret (map (fun k => batch_entry (self w) key
                          (Unix (clock w O) / Period (self w)) N
                          (Z.of_nat k))
              (seq 0 (Z.to_nat N)), None),
     advance (Z.to_nat N) (tick w)).
Proof.
  intros Hd Hk HN HP Hlo Hhi Hclock. unfold GenerateTOTPBatch.
  replace (N <=? 0) with false by (symmetry; apply Z.leb_gt; lia).
  unfold bind. rewrite time_Now_run.
  pose proof (GenerateTOTPBatch_loop_run (self w) key N (clock w O)
                Hd HN HP Hlo Hhi (Z.to_nat N) 0 [] (tick w)) as H.
  cbn [app] in H. rewrite H; auto.
  - apply (decodeSecret_self w); [exact Hk|reflexivity].
  - lia.
  - lia.
  - intros n Hn. cbn [tick clock]. apply Hclock. lia.
Qed.

End BatchResult.

(** C8 (as amended).  For N >= 1, a valid digit count, a decodable secret
    and a positive period, when the clock stays within one step during
    the call and the times involved fit the 64-bit types,
    GenerateTOTPBatch returns exactly N entries, the entry of index i
    (from 0) being the one of the step at offset i - N/2 from the current
    step: its code is the code of that step and its validity interval is
    [step * period, (step + 1) * period).  The offsets thus run from
    -(N/2) to N - 1 - N/2, which is N/2 for an odd N and N/2 - 1 for an
    even N.  Exactly one entry is flagged current, the one of offset 0 at
    index N/2; the intervals are contiguous in the order of the entries,
    pairwise non-overlapping, and each one period long. *)
Theorem GenerateTOTPBatch_entries (w : World) (key : list Z) (N : Z) :
  valid_digits (self w) ->
  decodeSecret w = (Ret (key, None), w) ->
  1 <= N -> 0 < Period (self w) ->
  N / 2 * Period (self w) <= Unix (clock w O) ->
  (Unix (clock w O) + (N / 2 + 1) * Period (self w)) * time_Second
  <= GoInt.max_int64 ->
  (forall n, (n <= Z.to_nat N)%nat ->
             0 <= Unix (clock w n) /\
             Unix (clock w n) / Period (self w)
             = Unix (clock w O) / Period (self w)) ->
  exists entries,
    fst (GenerateTOTPBatch N w) = Ret (entries, None) /\
    Z.of_nat (List.length entries) = N /\
    let e i := nth (Z.to_nat i) entries zero_TOTPEntry in
    let step i := Unix (clock w O) / Period (self w) + (i - N / 2) in
    (forall i, 0 <= i < N ->
               derives w (step i) (Code (e i)) /\
               ValidFrom (e i) = time_Unix (step i * Period (self w)) /\
               ValidTo (e i) = time_Unix ((step i + 1) * Period (self w)) /\
               (IsCurrent (e i) = true <-> i - N / 2 = 0)) /\
    (0 - N / 2 = - (N / 2) /\ 0 <= (N - 1) - N / 2 <= N / 2 /\
     ((N - 1) - N / 2 = N / 2 <-> N mod 2 = 1)) /\
    (0 <= N / 2 < N /\
     forall i, 0 <= i < N -> (IsCurrent (e i) = true <-> i = N / 2)) /\
    (forall i, 0 <= i < N - 1 -> ValidTo (e i) = ValidFrom (e (i + 1))) /\
    (forall i j, 0 <= i < j -> j < N -> ValidTo (e i) <= ValidFrom (e j)) /\
    (forall i, 0 <= i < N ->
               ValidTo (e i) - ValidFrom (e i)
               = Period (self w) * time_Second).
Proof.
  intros Hd Hk HN HP Hlo Hhi Hclock.
  rewrite (GenerateTOTPBatch_run w key N Hd Hk HN HP Hlo Hhi Hclock).
  set (P := Period (self w)) in *.
  set (cur := Unix (clock w O) / P) in *.
  eexists. split; [reflexivity|].
  split; [rewrite length_map, length_seq; lia|].
  cbv zeta.
  assert (forall i, 0 <= i < N ->
            nth (Z.to_nat i)
                (map (fun k => batch_entry (self w) key cur N (Z.of_nat k))
                     (seq 0 (Z.to_nat N))) zero_TOTPEntry
            = batch_entry (self w) key cur N i) as Hnth.
  { intros i Hi.
    rewrite (nth_indep _ zero_TOTPEntry
               (batch_entry (self w) key cur N (Z.of_nat 0)))
      by (rewrite length_map, length_seq; lia).
    rewrite (map_nth (fun k => batch_entry (self w) key cur N (Z.of_nat k))).
    rewrite seq_nth by lia. f_equal. lia. }
  pose proof (Z.div_mod N 2 ltac:(lia)) as Hdm.
  pose proof (Z.mod_pos_bound N 2 ltac:(lia)) as Hmb.
  assert (0 < time_Second) as Hsec by reflexivity.
  split; [|split; [|split; [|split; [|split]]]].
  - intros i Hi. rewrite (Hnth i Hi). unfold batch_entry. cbn. fold P.
    split; [now apply (derives_iff w key Hd Hk)|].
    split; [reflexivity|]. split; [reflexivity|].
    apply Z.eqb_eq.
  - lia.
  - split; [lia|]. intros i Hi. rewrite (Hnth i Hi).
    unfold batch_entry. cbn. rewrite Z.eqb_eq. lia.
  - intros i Hi. rewrite (Hnth i), (Hnth (i + 1)) by lia.
    unfold batch_entry. cbn. f_equal. f_equal. lia.
  - intros i j Hij Hj. rewrite (Hnth i), (Hnth j) by lia.
    unfold batch_entry, time_Unix. cbn. fold P.
    apply Z.mul_le_mono_nonneg_r; [lia|].
    apply Z.mul_le_mono_nonneg_r; lia.
  - intros i Hi. rewrite (Hnth i Hi). unfold batch_entry, time_Unix. cbn.
    fold P. lia.
Qed.

(** What the conditions on the batch exclude.  With a period of zero the
    first offset is scaled by the period before the default 30 is stored:
    the first entry carries the code of the current step with the interval
    of the step before.  And when the clock passes a step boundary after
    the first reading, the intervals are those of the next step. *)
Example GenerateTOTPBatch_limits :
  let zero_period :=
    {| self := NewTOTP rfc_secret "" "alice" 6 0;
       clock := fun _ => time_Unix 59 |} in
  let moving_clock :=
    {| self := NewTOTP rfc_secret "" "alice" 6 30;
       clock := fun n => match n with
                         | O => time_Unix 59
                         | S _ => time_Unix 61
                         end |} in
  fst (GenerateTOTPBatch 3 zero_period)
  = Ret ([ {| Code := "287082"; ValidFrom := time_Unix 0;
              ValidTo := time_Unix 30; IsCurrent := false |};
           {| Code := "287082"; ValidFrom := time_Unix 30;
              ValidTo := time_Unix 60; IsCurrent := true |};
           {| Code := "359152"; ValidFrom := time_Unix 60;
              ValidTo := time_Unix 90; IsCurrent := false |} ], None) /\
  fst (GenerateTOTPBatch 1 moving_clock)
  = Ret ([ {| Code := "287082"; ValidFrom := time_Unix 60;
              ValidTo := time_Unix 90; IsCurrent := true |} ], None).
Proof. vm_compute. split; reflexivity. Qed.

(* ===================================================================== *)
(** ** Escaping *)

Section Escaping.
Import Strings Url.

Lemma unreserved_plain a :
  unreserved a = true ->
  Ascii.eqb a "%" = false /\ Ascii.eqb a "+" = false.
Proof. by_byte a. Qed.

Lemma escape_hex a :
  unhex (hex_char (N_of_ascii a / 16)) = Some (N_of_ascii a / 16)%N /\
  unhex (hex_char (N_of_ascii a mod 16)) = Some (N_of_ascii a mod 16)%N /\
  ascii_of_N (16 * (N_of_ascii a / 16) + N_of_ascii a mod 16) = a /\
  esc_byte (hex_char (N_of_ascii a / 16)) = true /\
  esc_byte (hex_char (N_of_ascii a mod 16)) = true.
Proof. by_byte a. Qed.

Lemma QueryEscape_bytes s : forall_bytes esc_byte (QueryEscape s) = true.
Proof.
  induction s as [|a s IH]; [reflexivity|]. cbn [QueryEscape].
  destruct (unreserved a) eqn:Hu.
  - cbn [forall_bytes]. unfold esc_byte at 1. now rewrite Hu, IH.
  - destruct (Ascii.eqb a " ").
    + cbn [forall_bytes]. now rewrite IH.
    + destruct (escape_hex a) as (_ & _ & _ & H1 & H2).
      cbn [forall_bytes]. now rewrite H1, H2, IH.
Qed.

(** Unescaping a query component gives the text back. *)
Lemma QueryUnescape_QueryEscape s : QueryUnescape (QueryEscape s) = Some s.
Proof.
  unfold QueryUnescape.
  induction s as [|a s IH]; [reflexivity|]. cbn [QueryEscape].
  destruct (unreserved a) eqn:Hu.
  - destruct (unreserved_plain a Hu) as [Hp Hq].
    cbn [unescape]. now rewrite Hp, Hq, IH.
  - destruct (Ascii.eqb_spec a " ") as [->|Hsp].
    + cbn [unescape]. now rewrite IH.
    + destruct (escape_hex a) as (H1 & H2 & H3 & _).
      cbn [unescape]. change (Ascii.eqb "%" "%") with true. cbv iota.
      now rewrite H1, H2, IH, H3.
Qed.

Lemma PathUnescape_QueryEscape s :
  PathUnescape (QueryEscape s) = Some (map_string plus_for_space s).
Proof.
  unfold PathUnescape.
  induction s as [|a s IH]; [reflexivity|]. cbn [QueryEscape map_string].
  unfold plus_for_space at 1.
  destruct (unreserved a) eqn:Hu.
  - destruct (unreserved_plain a Hu) as [Hp Hq].
    assert (Ascii.eqb a " " = false) as Hs by (revert Hu; by_byte a).
    cbn [unescape]. now rewrite Hp, Hs, IH.
  - destruct (Ascii.eqb_spec a " ") as [->|Hsp].
    + cbn [unescape]. now rewrite IH.
    + destruct (escape_hex a) as (H1 & H2 & H3 & _).
      cbn [unescape]. change (Ascii.eqb "%" "%") with true. cbv iota.
      now rewrite H1, H2, IH, H3.
Qed.

Lemma plus_for_space_id s :
  contains_byte " " s = false -> map_string plus_for_space s = s.
Proof.
  induction s as [|a s IH]; [reflexivity|]. cbn [contains_byte map_string].
  intros H. apply orb_false_iff in H. destruct H as [Ha Hs].
  unfold plus_for_space at 1. rewrite Ha, (IH Hs). reflexivity.
Qed.

Lemma plus_for_space_colon s :
  contains_byte ":" (map_string plus_for_space s) = contains_byte ":" s.
Proof.
  induction s as [|a s IH]; [reflexivity|]. cbn [contains_byte map_string].
  rewrite IH. f_equal. unfold plus_for_space.
  destruct (Ascii.eqb_spec a " ") as [->|]; reflexivity.
Qed.

Lemma esc_byte_class a :
  esc_byte a = true ->
  is_ctl a = false /\ Ascii.eqb a "#" = false /\ Ascii.eqb a "?" = false /\
  Ascii.eqb a "/" = false /\ Ascii.eqb a "&" = false /\
  Ascii.eqb a "=" = false /\ Ascii.eqb a ";" = false.
Proof. by_byte a. Qed.

Lemma query_byte_class a :
  query_byte a = true ->
  is_ctl a = false /\ Ascii.eqb a "#" = false /\ Ascii.eqb a "?" = false /\
  Ascii.eqb a ";" = false.
Proof. by_byte a. Qed.

Lemma esc_query_byte a : esc_byte a = true -> query_byte a = true.
Proof. unfold query_byte. now intros ->. Qed.

End Escaping.

(* ===================================================================== *)
(** ** Cutting and splitting strings *)

Section Cutting.
Import Strings Url.

Lemma forall_bytes_app p s t :
  forall_bytes p (s ++ t) = forall_bytes p s && forall_bytes p t.
Proof.
  induction s as [|a s IH]; [reflexivity|]. cbn. rewrite IH.
  now rewrite andb_assoc.
Qed.

Lemma forall_bytes_impl (p q : ascii -> bool) s :
  (forall a, p a = true -> q a = true) ->
  forall_bytes p s = true -> forall_bytes q s = true.
Proof.
  intros Hpq. induction s as [|a s IH]; [reflexivity|]. cbn.
  intros H. apply andb_true_iff in H. destruct H as [Ha Hs].
  now rewrite (Hpq a Ha), (IH Hs).
Qed.

Lemma forall_bytes_absent p c s :
  (forall a, p a = true -> Ascii.eqb a c = false) ->
  forall_bytes p s = true -> contains_byte c s = false.
Proof.
  intros Hp. induction s as [|a s IH]; [reflexivity|]. cbn.
  intros H. apply andb_true_iff in H. destruct H as [Ha Hs].
  now rewrite (Hp a Ha), (IH Hs).
Qed.

Lemma Cut_absent sep s :
  contains_byte sep s = false -> Cut sep s = (s, EmptyString, false).
Proof.
  induction s as [|a s IH]; [reflexivity|]. cbn.
  intros H. apply orb_false_iff in H. destruct H as [Ha Hs].
  now rewrite Ha, (IH Hs).
Qed.

Lemma Cut_first sep s t :
  contains_byte sep s = false ->
  Cut sep (s ++ String sep t) = (s, t, true).
Proof.
  induction s as [|a s IH]; cbn.
  - now rewrite Ascii.eqb_refl.
  - intros H. apply orb_false_iff in H. destruct H as [Ha Hs].
    now rewrite Ha, (IH Hs).
Qed.

Lemma split_on_absent sep s :
  contains_byte sep s = false -> split_on sep s = [s].
Proof.
  induction s as [|a s IH]; [reflexivity|]. cbn.
  intros H. apply orb_false_iff in H. destruct H as [Ha Hs].
  now rewrite Ha, (IH Hs).
Qed.

Lemma split_on_first sep s t :
  contains_byte sep s = false ->
  split_on sep (s ++ String sep t) = s :: split_on sep t.
Proof.
  induction s as [|a s IH]; cbn.
  - now rewrite Ascii.eqb_refl.
  - intros H. apply orb_false_iff in H. destruct H as [Ha Hs].
    now rewrite Ha, (IH Hs).
Qed.

Lemma split_on_join sep l :
  l <> [] ->
  Forall (fun s => contains_byte sep s = false) l ->
  split_on sep (join (String sep EmptyString) l) = l.
Proof.
  induction l as [|x l IH]; [congruence|]. intros _ Hall.
  inversion Hall as [|? ? Hx Hl]; subst.
  destruct l as [|y l].
  - cbn [join]. now apply split_on_absent.
  - change (join (String sep EmptyString) (x :: y :: l))
      with (x ++ String sep (join (String sep EmptyString) (y :: l)))%string.
    rewrite split_on_first by exact Hx.
    rewrite IH; [reflexivity|discriminate|exact Hl].
Qed.

Lemma last_byte_app s a t :
  last_byte (s ++ String a t) = last_byte (String a t).
Proof.
  induction s as [|b s IH]; [reflexivity|].
  cbn [append]. change (last_byte (String b (s ++ String a t)))
    with (match (s ++ String a t)%string with
          | EmptyString => Some b
          | _ => last_byte (s ++ String a t)
          end).
  destruct (s ++ String a t)%string eqn:E.
  - destruct s; discriminate.
  - exact IH.
Qed.

Lemma last_byte_some s : forall a, exists b, last_byte (String a s) = Some b.
Proof.
  induction s as [|c s IH]; intros a; [now exists a|].
  destruct (IH c) as [b Hb]. exists b. exact Hb.
Qed.

Lemma last_byte_forall p s a :
  forall_bytes p s = true -> last_byte s = Some a -> p a = true.
Proof.
  induction s as [|b s IH]; [discriminate|]. cbn [forall_bytes].
  intros H. apply andb_true_iff in H. destruct H as [Hb Hs].
  destruct s as [|c s].
  - cbn. intros E. injection E as <-. exact Hb.
  - intros E. apply (IH Hs). exact E.
Qed.

End Cutting.

(* ===================================================================== *)
(** ** Printing and reading numbers *)

Section Numbers.
Import Strings Strconv.

Lemma digit_val_char n : digit_val (digit_char n) = n mod 10.
Proof.
  unfold digit_val, digit_char.
  pose proof (Z.mod_pos_bound n 10 ltac:(lia)).
  rewrite N_ascii_embedding by lia. lia.
Qed.

(** Reading back the digits written in front of [acc]. *)
Lemma parse_digits_aux fuel :
  forall n acc a,
    0 <= n < 10 ^ Z.of_nat fuel ->
    exists k, 0 <= k /\
      parse_digits (digits_aux fuel n acc) a
      = parse_digits acc (a * 10 ^ k + n).
Proof.
  induction fuel as [|fuel IH]; intros n acc a Hn.
  - change (10 ^ Z.of_nat 0) with 1 in Hn. exists 0. split; [lia|].
    cbn [digits_aux]. f_equal. change (10 ^ 0) with 1. lia.
  - cbn [digits_aux]. destruct (Z.ltb_spec n 10) as [Hlt|Hge].
    + exists 1. split; [lia|]. cbn [parse_digits].
      rewrite digit_char_is_digit, digit_val_char.
      rewrite Z.mod_small by lia. change (10 ^ 1) with 10. reflexivity.
    + assert (0 <= n / 10 < 10 ^ Z.of_nat fuel) as Hdiv.
      { split; [apply Z.div_pos; lia|].
        apply Z.div_lt_upper_bound; [lia|].
        replace (Z.of_nat (S fuel)) with (Z.of_nat fuel + 1) in Hn by lia.
        rewrite Z.pow_add_r in Hn by lia.
        change (10 ^ 1) with 10 in Hn. lia. }
      destruct (IH (n / 10) (String (digit_char n) acc) a Hdiv)
        as (k & Hk & Hp).
      exists (k + 1). split; [lia|]. rewrite Hp. cbn [parse_digits].
      rewrite digit_char_is_digit, digit_val_char. f_equal.
      rewrite Z.pow_add_r by lia. change (10 ^ 1) with 10.
      pose proof (Z.div_mod n 10 ltac:(lia)). lia.
Qed.

Lemma parse_digits_FormatUint n :
  0 <= n < 10 ^ 20 -> parse_digits (FormatUint n) 0 = Some n.
Proof.
  intros Hn. unfold FormatUint.
  destruct (parse_digits_aux 20 n EmptyString 0 Hn) as (k & _ & H).
  rewrite H. cbn [parse_digits]. f_equal; lia.
Qed.

Lemma FormatUint_first n :
  0 <= n < 10 ^ 20 ->
  exists a s, FormatUint n = String a s /\ is_digit a = true.
Proof.
  intros Hn.
  pose proof (digits_aux_digits 20 n EmptyString eq_refl) as Hd.
  pose proof (digits_aux_length 20 20 n EmptyString ltac:(lia) Hn) as Hl.
  unfold FormatUint.
  destruct (digits_aux 20 n EmptyString) as [|a s];
    [cbn [String.length] in Hl; lia|].
  exists a, s. split; [reflexivity|]. cbn [forall_bytes] in Hd.
  now apply andb_true_iff in Hd.
Qed.

Lemma digit_not_sign a :
  is_digit a = true ->
  Ascii.eqb a "-" = false /\ Ascii.eqb a "+" = false.
Proof.
  destruct a as [[] [] [] [] [] [] [] []]; vm_compute; intuition congruence.
Qed.

(** Atoi reads back what Itoa and FormatUint print of a non-negative int. *)
Lemma Atoi_FormatUint n :
  0 <= n <= GoInt.max_int64 -> Atoi (FormatUint n) = Some n.
Proof.
  intros Hn.
  assert (0 <= n < 10 ^ 20) as Hr
    by (unfold GoInt.max_int64 in Hn; pow2;
        change (10 ^ 20) with 100000000000000000000; lia).
  destruct (FormatUint_first n Hr) as (a & s & He & Ha).
  destruct (digit_not_sign a Ha) as [Hm Hp].
  pose proof (parse_digits_FormatUint n Hr) as Hparse.
  unfold Atoi. rewrite He in *. rewrite Hm, Hp, Hparse.
  replace ((GoInt.min_int64 <=? n) && (n <=? GoInt.max_int64)) with true;
    [reflexivity|].
  symmetry. rewrite andb_true_iff, !Z.leb_le.
  unfold GoInt.min_int64, GoInt.max_int64 in *. pow2. lia.
Qed.

Lemma Atoi_Itoa n : 0 <= n <= GoInt.max_int64 -> Atoi (Itoa n) = Some n.
Proof.
  intros Hn. unfold Itoa.
  replace (n <? 0) with false by (symmetry; apply Z.ltb_ge; lia).
  now apply Atoi_FormatUint.
Qed.

Lemma ParseUint_FormatUint n :
  0 <= n < 2 ^ 64 -> ParseUint (FormatUint n) = Some n.
Proof.
  intros Hn.
  assert (0 <= n < 10 ^ 20) as Hr
    by (pow2; change (10 ^ 20) with 100000000000000000000; lia).
  destruct (FormatUint_first n Hr) as (a & s & He & _).
  pose proof (parse_digits_FormatUint n Hr) as Hparse.
  unfold ParseUint. rewrite He in *. rewrite Hparse.
  replace (n <? 2 ^ 64) with true by (symmetry; apply Z.ltb_lt; lia).
  reflexivity.
Qed.

Lemma FormatUint_nonempty n : 0 <= n < 10 ^ 20 -> FormatUint n <> EmptyString.
Proof.
  intros Hn. destruct (FormatUint_first n Hn) as (a & s & He & _).
  rewrite He. discriminate.
Qed.

End Numbers.

(* ===================================================================== *)
(** ** Parsing what OTPAuthURL builds *)

Section Parsing.
Import Strings Url.

Lemma contains_byte_app c s t :
  contains_byte c (s ++ t) = contains_byte c s || contains_byte c t.
Proof.
  induction s as [|a s IH]; [reflexivity|]. cbn. rewrite IH.
  now rewrite orb_assoc.
Qed.

Lemma esc_absent c s :
  (forall a, esc_byte a = true -> Ascii.eqb a c = false) ->
  contains_byte c (QueryEscape s) = false.
Proof.
  intros H. apply (forall_bytes_absent esc_byte); [exact H|].
  apply QueryEscape_bytes.
Qed.

Lemma enc_setting_bytes p : forall_bytes setting_byte (enc_setting p) = true.
Proof.
  assert (forall a, esc_byte a = true -> setting_byte a = true) as Himp
    by (intros a Ha; unfold setting_byte; now rewrite Ha).
  unfold enc_setting. rewrite !forall_bytes_app.
  rewrite !(forall_bytes_impl esc_byte setting_byte _ Himp
              (QueryEscape_bytes _)).
  reflexivity.
Qed.

Lemma setting_query_byte a : setting_byte a = true -> query_byte a = true.
Proof.
  unfold setting_byte, query_byte. intros ->. reflexivity.
Qed.

Lemma join_amp_bytes l :
  Forall (fun s => forall_bytes query_byte s = true) l ->
  forall_bytes query_byte (join "&" l) = true.
Proof.
  induction l as [|x l IH]; [reflexivity|]. intros H.
  inversion H as [|? ? Hx Hl]; subst. destruct l as [|y l]; [exact Hx|].
  change (join "&" (x :: y :: l)) with (x ++ "&" ++ join "&" (y :: l))%string.
  rewrite !forall_bytes_app, Hx, (IH Hl). reflexivity.
Qed.

Lemma Encode_bytes (m : Values) : forall_bytes query_byte (Encode m) = true.
Proof.
  unfold Encode. apply join_amp_bytes. apply Forall_forall.
  intros s Hs. apply in_map_iff in Hs. destruct Hs as (q & <- & _).
  apply (forall_bytes_impl setting_byte query_byte _ setting_query_byte).
  apply (enc_setting_bytes q).
Qed.

Lemma parse_setting_enc p : parse_setting (enc_setting p) = [p].
Proof.
  destruct p as [k v]. unfold parse_setting, enc_setting. cbn [fst snd].
  assert (contains_byte ";" (QueryEscape k ++ "=" ++ QueryEscape v) = false)
    as Hsemi.
  { rewrite !contains_byte_app.
    rewrite !esc_absent by (intros a Ha; apply (esc_byte_class a Ha)).
    reflexivity. }
  rewrite Hsemi.
  assert (Cut "=" (QueryEscape k ++ "=" ++ QueryEscape v)
          = (QueryEscape k, QueryEscape v, true)) as Hcut.
  { apply Cut_first. apply esc_absent.
    intros a Ha. apply (esc_byte_class a Ha). }
  destruct (QueryEscape k ++ "=" ++ QueryEscape v)%string eqn:E.
  - destruct (QueryEscape k); discriminate E.
  - rewrite Hcut. now rewrite !QueryUnescape_QueryEscape.
Qed.

(** Parsing an encoded query gives the settings back. *)
Lemma ParseQuery_Encode (m : Values) : ParseQuery (Encode m) = m.
Proof.
  unfold ParseQuery, Encode. fold enc_setting.
  change (fun p : string * string =>
            (QueryEscape (fst p) ++ "=" ++ QueryEscape (snd p))%string)
    with enc_setting.
  destruct m as [|p m]; [reflexivity|].
  rewrite split_on_join.
  - generalize (p :: m). intros l. induction l as [|q l IH]; [reflexivity|].
    cbn [map flat_map]. rewrite parse_setting_enc, IH. reflexivity.
  - discriminate.
  - apply Forall_forall. intros s Hs. apply in_map_iff in Hs.
    destruct Hs as (q & <- & _).
    apply (forall_bytes_absent setting_byte); [|apply enc_setting_bytes].
    intros a Ha. revert Ha.
    destruct a as [[] [] [] [] [] [] [] []]; vm_compute; intuition congruence.
Qed.

End Parsing.

Section ParseURL.
Import Strings Url.

Lemma string_app_assoc (s t u : string) :
  ((s ++ t) ++ u = s ++ (t ++ u))%string.
Proof. induction s as [|a s IH]; cbn; [reflexivity|now rewrite IH]. Qed.

Lemma getScheme_otpauth r : getScheme ("otpauth:" ++ r) = Some ("otpauth", r).
Proof. reflexivity. Qed.

(** The URL otpauth://<type>/<escaped label>?<encoded query> parses into
    its four parts. *)
Lemma Parse_otpauth ty E Q path :
  ty = "totp" \/ ty = "hotp" ->
  forall_bytes esc_byte E = true ->
  forall_bytes query_byte Q = true -> Q <> EmptyString ->
  PathUnescape E = Some path ->
  Parse ("otpauth://" ++ ty ++ "/" ++ E ++ "?" ++ Q)
  = Some {| Scheme := "otpauth"; Host := ty; Path := String "/" path;
            RawQuery := Q |}.
Proof.
  intros Hty HE HQ HQne Hpath.
  assert (contains_byte "#" (E ++ "?" ++ Q) = false) as Hhash.
  { rewrite !contains_byte_app.
    rewrite (forall_bytes_absent esc_byte "#" E)
      by (try exact HE; intros a Ha; apply (esc_byte_class a Ha)).
    rewrite (forall_bytes_absent query_byte "#" Q)
      by (try exact HQ; intros a Ha; apply (query_byte_class a Ha)).
    reflexivity. }
  assert (forall_bytes (fun a => negb (is_ctl a)) (E ++ "?" ++ Q) = true)
    as Hctl.
  { rewrite !forall_bytes_app.
    rewrite (forall_bytes_impl esc_byte (fun a => negb (is_ctl a)) E)
      by (try exact HE; intros a Ha;
          now rewrite (proj1 (esc_byte_class a Ha))).
    rewrite (forall_bytes_impl query_byte (fun a => negb (is_ctl a)) Q)
      by (try exact HQ; intros a Ha;
          now rewrite (proj1 (query_byte_class a Ha))).
    reflexivity. }
  assert (exists a, last_byte (E ++ "?" ++ Q) = Some a /\
                    Ascii.eqb a "?" = false)
    as (la & Hla & Hlq).
  { destruct Q as [|q Q']; [congruence|].
    change ("?" ++ String q Q')%string with (String "?" (String q Q')).
    rewrite (last_byte_app E "?" (String q Q')).
    change (last_byte (String "?" (String q Q')))
      with (last_byte (String q Q')).
    destruct (last_byte_some Q' q) as [a El]. rewrite El.
    exists a. split; [reflexivity|].
    apply (query_byte_class a). now apply (last_byte_forall _ _ _ HQ). }
  assert (contains_byte "?" E = false) as HEq
    by (apply (forall_bytes_absent esc_byte); [|exact HE];
        intros a Ha; apply (esc_byte_class a Ha)).
  assert (forall pre,
             Cut "?" (pre ++ E ++ "?" ++ Q)
             = if contains_byte "?" pre then Cut "?" (pre ++ E ++ "?" ++ Q)
               else ((pre ++ E)%string, Q, true)) as Hcut.
  { intros pre. destruct (contains_byte "?" pre) eqn:Hpre; [reflexivity|].
    replace (pre ++ E ++ "?" ++ Q)%string
      with ((pre ++ E) ++ String "?" Q)%string.
    - apply Cut_first. now rewrite contains_byte_app, Hpre, HEq.
    - apply string_app_assoc. }
  unfold PathUnescape in Hpath.
  remember (E ++ "?" ++ Q)%string as tail eqn:Htail.
  assert (forall pre, last_byte (pre ++ String "/" tail) = Some la) as Hlast.
  { intros pre. rewrite last_byte_app.
    destruct tail; [discriminate Hla|exact Hla]. }
  destruct Hty as [-> | ->].
  - change ("otpauth://" ++ "totp" ++ "/" ++ tail)%string
      with ("otpauth://totp/" ++ tail)%string.
    unfold Parse.
    rewrite Cut_absent by (rewrite contains_byte_app, Hhash; reflexivity).
    cbn [unescape].
    rewrite forall_bytes_app, Hctl. cbn [negb andb forall_bytes].
    change ("otpauth://totp/" ++ tail)%string
      with ("otpauth:" ++ ("//totp/" ++ tail))%string.
    rewrite getScheme_otpauth.
    change (ToLower "otpauth") with "otpauth".
    change ("//totp/" ++ tail)%string
      with ("//totp" ++ String "/" tail)%string.
    rewrite (Hlast "//totp"), Hlq. cbn [andb].
    change ("//totp" ++ String "/" tail)%string
      with ("//totp/" ++ tail)%string.
    rewrite (Hcut "//totp/"). cbn.
    rewrite Hpath. reflexivity.
  - change ("otpauth://" ++ "hotp" ++ "/" ++ tail)%string
      with ("otpauth://hotp/" ++ tail)%string.
    unfold Parse.
    rewrite Cut_absent by (rewrite contains_byte_app, Hhash; reflexivity).
    cbn [unescape].
    rewrite forall_bytes_app, Hctl. cbn [negb andb forall_bytes].
    change ("otpauth://hotp/" ++ tail)%string
      with ("otpauth:" ++ ("//hotp/" ++ tail))%string.
    rewrite getScheme_otpauth.
    change (ToLower "otpauth") with "otpauth".
    change ("//hotp/" ++ tail)%string
      with ("//hotp" ++ String "/" tail)%string.
    rewrite (Hlast "//hotp"), Hlq. cbn [andb].
    change ("//hotp" ++ String "/" tail)%string
      with ("//hotp/" ++ tail)%string.
    rewrite (Hcut "//hotp/"). cbn.
    rewrite Hpath. reflexivity.
Qed.

End ParseURL.

Section RoundTrip.
Import Strings Url.

Lemma map_string_app f s t :
  map_string f (s ++ t) = (map_string f s ++ map_string f t)%string.
Proof. induction s as [|a s IH]; cbn; [reflexivity|now rewrite IH]. Qed.

Lemma eqb_empty_false s : s <> EmptyString -> String.eqb s "" = false.
Proof. intros H. now apply String.eqb_neq. Qed.

Lemma map_string_nonempty f s :
  s <> EmptyString -> map_string f s <> EmptyString.
Proof. destruct s; [congruence|discriminate]. Qed.

Lemma app_nonempty_r (s t : string) :
  t <> EmptyString -> (s ++ t)%string <> EmptyString.
Proof. destruct s; [auto|discriminate]. Qed.

Lemma Algorithm_String_parses a :
  a = AlgorithmSHA1 \/ a = AlgorithmSHA256 \/ a = AlgorithmSHA512 ->
  Algorithm_String a <> EmptyString /\
  (if String.eqb (ToUpper (Algorithm_String a)) "SHA1" then AlgorithmSHA1
   else if String.eqb (ToUpper (Algorithm_String a)) "SHA256"
   then AlgorithmSHA256
   else if String.eqb (ToUpper (Algorithm_String a)) "SHA512"
   then AlgorithmSHA512 else 6) = a.
Proof. intros [->|[->| ->]]; split; (discriminate || reflexivity). Qed.

(** The settings that OTPAuthURL builds, in the order of their keys. *)
Lemma params_totp s d a p :
  Set_ "period" p (Set_ "algorithm" a (Set_ "digits" d (Set_ "secret" s [])))
  = [("algorithm", a); ("digits", d); ("period", p); ("secret", s)].
Proof. reflexivity. Qed.

Lemma params_totp_issuer s d a p i :
  Set_ "issuer" i
    (Set_ "period" p
       (Set_ "algorithm" a (Set_ "digits" d (Set_ "secret" s []))))
  = [("algorithm", a); ("digits", d); ("issuer", i); ("period", p);
     ("secret", s)].
Proof. reflexivity. Qed.

Lemma params_hotp s d a n :
  Set_ "counter" n (Set_ "algorithm" a (Set_ "digits" d (Set_ "secret" s [])))
  = [("algorithm", a); ("counter", n); ("digits", d); ("secret", s)].
Proof. reflexivity. Qed.

Lemma params_hotp_issuer s d a n i :
  Set_ "issuer" i
    (Set_ "counter" n
       (Set_ "algorithm" a (Set_ "digits" d (Set_ "secret" s []))))
  = [("algorithm", a); ("counter", n); ("digits", d); ("issuer", i);
     ("secret", s)].
Proof. reflexivity. Qed.

Lemma Get_totp s d a p :
  let m := [("algorithm", a); ("digits", d); ("period", p); ("secret", s)] in
  Get "secret" m = s /\ Get "digits" m = d /\ Get "algorithm" m = a /\
  Get "period" m = p /\ Get "issuer" m = "".
Proof. repeat split. Qed.

Lemma Get_totp_issuer s d a p i :
  let m := [("algorithm", a); ("digits", d); ("issuer", i); ("period", p);
            ("secret", s)] in
  Get "secret" m = s /\ Get "digits" m = d /\ Get "algorithm" m = a /\
  Get "period" m = p /\ Get "issuer" m = i.
Proof. repeat split. Qed.

Lemma Get_hotp s d a n :
  let m := [("algorithm", a); ("counter", n); ("digits", d); ("secret", s)] in
  Get "secret" m = s /\ Get "digits" m = d /\ Get "algorithm" m = a /\
  Get "counter" m = n /\ Get "issuer" m = "".
Proof. repeat split. Qed.

Lemma Get_hotp_issuer s d a n i :
  let m := [("algorithm", a); ("counter", n); ("digits", d); ("issuer", i);
            ("secret", s)] in
  Get "secret" m = s /\ Get "digits" m = d /\ Get "algorithm" m = a /\
  Get "counter" m = n /\ Get "issuer" m = i.
Proof. repeat split. Qed.

Lemma Itoa_nonempty n :
  0 <= n <= GoInt.max_int64 -> String.eqb (Strconv.Itoa n) "" = false.
Proof.
  intros Hn. apply eqb_empty_false. unfold Strconv.Itoa.
  replace (n <? 0) with false by (symmetry; apply Z.ltb_ge; lia).
  apply FormatUint_nonempty.
  unfold GoInt.max_int64 in Hn. pow2.
  change (10 ^ 20) with 100000000000000000000. lia.
Qed.

(** The stages of ParseOTPAuthURL, on what OTPAuthURL wrote. *)
Lemma label_stage_plain (X : Config) acct :
  contains_byte ":" acct = false ->
  match SplitN2_colon acct with
  | [p0; p1] => with_AccountName (with_Issuer X p0) p1
  | p0 :: _ => with_AccountName X p0
  | [] => X
  end = with_AccountName X acct.
Proof.
  intros H. unfold SplitN2_colon. now rewrite (Cut_absent ":" acct H).
Qed.

Lemma label_stage_issuer (X : Config) issuer acct :
  contains_byte ":" issuer = false ->
  match SplitN2_colon (issuer ++ ":" ++ acct) with
  | [p0; p1] => with_AccountName (with_Issuer X p0) p1
  | p0 :: _ => with_AccountName X p0
  | [] => X
  end = with_AccountName (with_Issuer X issuer) acct.
Proof.
  intros H. unfold SplitN2_colon.
  change (issuer ++ ":" ++ acct)%string with (issuer ++ String ":" acct)%string.
  now rewrite (Cut_first ":" issuer acct H).
Qed.

Lemma digits_stage (X : Config) d :
  1 <= d <= 10 ->
  (if negb (String.eqb (Strconv.Itoa d) "") then
     match Strconv.Atoi (Strconv.Itoa d) with
     | Some d' => if (0 <? d') && (d' <=? 10) then with_Digits X d' else X
     | None => X
     end
   else X) = with_Digits X d.
Proof.
  intros Hd.
  assert (0 <= d <= GoInt.max_int64) as Hr
    by (unfold GoInt.max_int64; pow2; lia).
  rewrite (Itoa_nonempty d Hr), (Atoi_Itoa d Hr). cbn [negb].
  replace ((0 <? d) && (d <=? 10)) with true; [reflexivity|].
  symmetry. rewrite andb_true_iff, Z.ltb_lt, Z.leb_le. lia.
Qed.

Lemma algorithm_stage (X : Config) a :
  a = AlgorithmSHA1 \/ a = AlgorithmSHA256 \/ a = AlgorithmSHA512 ->
  (if negb (String.eqb (Algorithm_String a) "") then
     if String.eqb (ToUpper (Algorithm_String a)) "SHA1"
     then with_Algorithm X AlgorithmSHA1
     else if String.eqb (ToUpper (Algorithm_String a)) "SHA256"
     then with_Algorithm X AlgorithmSHA256
     else if String.eqb (ToUpper (Algorithm_String a)) "SHA512"
     then with_Algorithm X AlgorithmSHA512
     else X
   else X) = with_Algorithm X a.
Proof. intros [->|[->| ->]]; reflexivity. Qed.

Lemma period_stage_totp (X : Config) p :
  0 < Period X -> 0 < p <= GoInt.max_int64 ->
  (if 0 <? Period X then
     if negb (String.eqb (Strconv.Itoa p) "") then
       match Strconv.Atoi (Strconv.Itoa p) with
       | Some p' => if 0 <? p' then with_Period X p' else X
       | None => X
       end
     else X
   else X) = with_Period X p.
Proof.
  intros HX Hp.
  replace (0 <? Period X) with true by (symmetry; apply Z.ltb_lt; lia).
  rewrite (Itoa_nonempty p), (Atoi_Itoa p) by lia. cbn [negb].
  replace (0 <? p) with true by (symmetry; apply Z.ltb_lt; lia).
  reflexivity.
Qed.

Lemma period_stage_hotp (X Y : Config) :
  Period X = 0 -> (if 0 <? Period X then Y else X) = X.
Proof. intros ->. reflexivity. Qed.

Lemma counter_stage_totp (X Y : Config) :
  0 < Period X -> (if Period X =? 0 then Y else X) = X.
Proof.
  intros H. replace (Period X =? 0) with false; [reflexivity|].
  symmetry. apply Z.eqb_neq. lia.
Qed.

Lemma counter_stage_hotp (X : Config) n :
  Period X = 0 -> 0 <= n < 2 ^ 64 ->
  (if Period X =? 0 then
     if negb (String.eqb (Strconv.FormatUint n) "") then
       match Strconv.ParseUint (Strconv.FormatUint n) with
       | Some n' => with_Counter X n'
       | None => X
       end
     else X
   else X) = with_Counter X n.
Proof.
  intros -> Hn. cbn [Z.eqb].
  rewrite (ParseUint_FormatUint n Hn).
  rewrite eqb_empty_false; [reflexivity|].
  apply FormatUint_nonempty. pow2.
  change (10 ^ 20) with 100000000000000000000. lia.
Qed.

Lemma Encode_nonempty k v m : Encode ((k, v) :: m) <> EmptyString.
Proof.
  unfold Encode. cbn [map fst snd].
  assert (QueryEscape k ++ "=" ++ QueryEscape v <> EmptyString)%string as H
    by (apply app_nonempty_r; discriminate).
  destruct m as [|q m]; cbn [join]; [exact H|].
  destruct (QueryEscape k ++ "=" ++ QueryEscape v)%string;
    [congruence|discriminate].
Qed.

End RoundTrip.

(** C7 (as amended).  For every configuration with a non-empty secret, a
    non-empty account name without spaces, a digit count in [1,10], one of
    the three algorithms, an issuer without a colon (and, when the issuer
    is empty, an account name without a colon), building the otpauth URL
    and parsing it back gives a configuration with the same secret, digit
    count, algorithm, issuer and account name, and the same period (TOTP,
    positive period) or the same counter (HOTP). *)
Theorem OTPAuthURL_roundtrip (w : World) :
  Secret (self w) <> "" ->
  AccountName (self w) <> "" ->
  1 <= Digits (self w) <= 10 ->
  Algorithm (self w) = AlgorithmSHA1 \/
  Algorithm (self w) = AlgorithmSHA256 \/
  Algorithm (self w) = AlgorithmSHA512 ->
  Period (self w) <= GoInt.max_int64 ->
  0 <= Counter (self w) < 2 ^ 64 ->
  Strings.contains_byte " " (AccountName (self w)) = false ->
  Strings.contains_byte ":" (Issuer (self w)) = false ->
  (Issuer (self w) = "" ->
   Strings.contains_byte ":" (AccountName (self w)) = false) ->
  exists url c',
    OTPAuthURL w = (Ret (url, None), w) /\
    ParseOTPAuthURL url = (Some c', None) /\
    roundtrip_ok (self w) c'.
Proof.
  intros HS HA HD Halg HP HC Hsp Hic Hac.
  destruct (Algorithm_String_parses _ Halg) as [Hane Haparse].
  unfold OTPAuthURL. run.
  rewrite (eqb_empty_false _ HS), (eqb_empty_false _ HA).
  destruct (Z.ltb_spec 0 (Period (self w))) as [Hpos|Hnpos];
    destruct (String.eqb_spec (Issuer (self w)) "") as [Hie|Hine];
    cbn [negb];
    rewrite ?params_totp_issuer, ?params_totp, ?params_hotp_issuer,
      ?params_hotp;
    eexists; eexists; (split; [reflexivity|]).
  - match goal with
    | |- context [Url.Encode ?l] => remember l as m eqn:Hm
    end.
    assert (Url.Encode m <> "") as Hne by (rewrite Hm; apply Encode_nonempty).
    pose proof (Get_totp (Secret (self w)) (Strconv.Itoa (Digits (self w)))
                (Algorithm_String (Algorithm (self w)))
                (Strconv.Itoa (Period (self w)))) as G.
    cbv zeta in G. rewrite <- Hm in G. destruct G as (G1 & G2 & G3 & G4 & G5).
    clear Hm. unfold ParseOTPAuthURL.
    rewrite (Parse_otpauth "totp" _ _ _ (or_introl eq_refl)
               (QueryEscape_bytes _) (Encode_bytes _)
               Hne (PathUnescape_QueryEscape _)).
    cbn [Url.Scheme Url.Host Url.Path Url.RawQuery].
    change (String.eqb "otpauth" "otpauth") with true.
    change (String.eqb "totp" "totp") with true.
    change (String.eqb "hotp" "hotp") with true.
    cbn [negb]. cbv beta iota.
    rewrite ParseQuery_Encode.
    rewrite ?G1, ?G2, ?G3, ?G4, ?G5.
    rewrite (plus_for_space_id _ Hsp).
    cbn [Strings.TrimPrefix_slash].
    rewrite label_stage_plain by (apply Hac; exact Hie).
    rewrite (eqb_empty_false _ HA), (eqb_empty_false _ HS).
    rewrite digits_stage by exact HD.
    rewrite algorithm_stage by exact Halg.
    rewrite period_stage_totp by (try reflexivity; lia).
    rewrite counter_stage_totp by (cbn; lia).
    change (String.eqb "" "") with true. cbn [negb].
    split; [reflexivity|].
    unfold roundtrip_ok. cbn. rewrite ?Hie.
    repeat split; try reflexivity; intros; lia.
  - match goal with
    | |- context [Url.Encode ?l] => remember l as m eqn:Hm
    end.
    assert (Url.Encode m <> "") as Hne by (rewrite Hm; apply Encode_nonempty).
    pose proof (Get_totp_issuer (Secret (self w)) (Strconv.Itoa (Digits (self w)))
                (Algorithm_String (Algorithm (self w)))
                (Strconv.Itoa (Period (self w))) (Issuer (self w))) as G.
    cbv zeta in G. rewrite <- Hm in G. destruct G as (G1 & G2 & G3 & G4 & G5).
    clear Hm. unfold ParseOTPAuthURL.
    rewrite (Parse_otpauth "totp" _ _ _ (or_introl eq_refl)
               (QueryEscape_bytes _) (Encode_bytes _)
               Hne (PathUnescape_QueryEscape _)).
    cbn [Url.Scheme Url.Host Url.Path Url.RawQuery].
    change (String.eqb "otpauth" "otpauth") with true.
    change (String.eqb "totp" "totp") with true.
    change (String.eqb "hotp" "hotp") with true.
    cbn [negb]. cbv beta iota.
    rewrite ParseQuery_Encode.
    rewrite ?G1, ?G2, ?G3, ?G4, ?G5.
    rewrite map_string_app.
    change (Strings.map_string plus_for_space (":" ++ AccountName (self w)))
      with (":" ++ Strings.map_string plus_for_space (AccountName (self w)))%string.
    rewrite (plus_for_space_id _ Hsp).
    cbn [Strings.TrimPrefix_slash].
    rewrite label_stage_issuer by (now rewrite plus_for_space_colon).
    rewrite (eqb_empty_false (_ ++ ":" ++ _))
      by (apply app_nonempty_r; discriminate).
    rewrite (eqb_empty_false _ HS).
    rewrite digits_stage by exact HD.
    rewrite algorithm_stage by exact Halg.
    rewrite period_stage_totp by (try reflexivity; lia).
    rewrite counter_stage_totp by (cbn; lia).
    rewrite (eqb_empty_false _ Hine). cbn [negb].
    split; [reflexivity|].
    unfold roundtrip_ok. cbn.
    repeat split; try reflexivity; intros; lia.
  - match goal with
    | |- context [Url.Encode ?l] => remember l as m eqn:Hm
    end.
    assert (Url.Encode m <> "") as Hne by (rewrite Hm; apply Encode_nonempty).
    pose proof (Get_hotp (Secret (self w)) (Strconv.Itoa (Digits (self w)))
                (Algorithm_String (Algorithm (self w)))
                (Strconv.FormatUint (Counter (self w)))) as G.
    cbv zeta in G. rewrite <- Hm in G. destruct G as (G1 & G2 & G3 & G4 & G5).
    clear Hm. unfold ParseOTPAuthURL.
    rewrite (Parse_otpauth "hotp" _ _ _ (or_intror eq_refl)
               (QueryEscape_bytes _) (Encode_bytes _)
               Hne (PathUnescape_QueryEscape _)).
    cbn [Url.Scheme Url.Host Url.Path Url.RawQuery].
    change (String.eqb "otpauth" "otpauth") with true.
    change (String.eqb "hotp" "totp") with false.
    change (String.eqb "hotp" "hotp") with true.
    cbn [negb]. cbv beta iota.
    rewrite ParseQuery_Encode.
    rewrite ?G1, ?G2, ?G3, ?G4, ?G5.
    rewrite (plus_for_space_id _ Hsp).
    cbn [Strings.TrimPrefix_slash].
    rewrite label_stage_plain by (apply Hac; exact Hie).
    rewrite (eqb_empty_false _ HA), (eqb_empty_false _ HS).
    rewrite digits_stage by exact HD.
    rewrite algorithm_stage by exact Halg.
    rewrite period_stage_hotp by reflexivity.
    rewrite counter_stage_hotp by (try reflexivity; exact HC).
    change (String.eqb "" "") with true. cbn [negb].
    split; [reflexivity|].
    unfold roundtrip_ok. cbn. rewrite ?Hie.
    repeat split; try reflexivity; intros; lia.
  - match goal with
    | |- context [Url.Encode ?l] => remember l as m eqn:Hm
    end.
    assert (Url.Encode m <> "") as Hne by (rewrite Hm; apply Encode_nonempty).
    pose proof (Get_hotp_issuer (Secret (self w)) (Strconv.Itoa (Digits (self w)))
                (Algorithm_String (Algorithm (self w)))
                (Strconv.FormatUint (Counter (self w))) (Issuer (self w))) as G.
    cbv zeta in G. rewrite <- Hm in G. destruct G as (G1 & G2 & G3 & G4 & G5).
    clear Hm. unfold ParseOTPAuthURL.
    rewrite (Parse_otpauth "hotp" _ _ _ (or_intror eq_refl)
               (QueryEscape_bytes _) (Encode_bytes _)
               Hne (PathUnescape_QueryEscape _)).
    cbn [Url.Scheme Url.Host Url.Path Url.RawQuery].
    change (String.eqb "otpauth" "otpauth") with true.
    change (String.eqb "hotp" "totp") with false.
    change (String.eqb "hotp" "hotp") with true.
    cbn [negb]. cbv beta iota.
    rewrite ParseQuery_Encode.
    rewrite ?G1, ?G2, ?G3, ?G4, ?G5.
    rewrite map_string_app.
    change (Strings.map_string plus_for_space (":" ++ AccountName (self w)))
      with (":" ++ Strings.map_string plus_for_space (AccountName (self w)))%string.
    rewrite (plus_for_space_id _ Hsp).
    cbn [Strings.TrimPrefix_slash].
    rewrite label_stage_issuer by (now rewrite plus_for_space_colon).
    rewrite (eqb_empty_false (_ ++ ":" ++ _))
      by (apply app_nonempty_r; discriminate).
    rewrite (eqb_empty_false _ HS).
    rewrite digits_stage by exact HD.
    rewrite algorithm_stage by exact Halg.
    rewrite period_stage_hotp by reflexivity.
    rewrite counter_stage_hotp by (try reflexivity; exact HC).
    rewrite (eqb_empty_false _ Hine). cbn [negb].
    split; [reflexivity|].
    unfold roundtrip_ok. cbn.
    repeat split; try reflexivity; intros; lia.
Qed.

(** The configuration of the example program, whose account name has a
    space: the label is escaped as a query component and read back as a
    path, and the space comes back as a plus sign. *)
Example OTPAuthURL_space_in_account :
  let w := {| self := NewTOTP rfc_secret "Myapp" "Mateo Caicedo" 6 300;
              clock := fun _ => 0 |} in
  fst (OTPAuthURL w)
  = Ret ("otpauth://totp/Myapp%3AMateo+Caicedo?algorithm=SHA1&digits=6&issuer=Myapp&period=300&secret=GEZDGNBVGY3TQOJQGEZDGNBVGY3TQOJQ",
         None) /\
  option_map AccountName
    (fst (ParseOTPAuthURL
            "otpauth://totp/Myapp%3AMateo+Caicedo?algorithm=SHA1&digits=6&issuer=Myapp&period=300&secret=GEZDGNBVGY3TQOJQGEZDGNBVGY3TQOJQ"))
  = Some "Mateo+Caicedo".
Proof. vm_compute. split; reflexivity. Qed.

(** A digit count outside [1,10] is written to the URL and replaced by
    the default 6 when read back. *)
Example OTPAuthURL_digits_out_of_range :
  option_map Digits
    (fst (ParseOTPAuthURL
            "otpauth://totp/alice?algorithm=SHA1&digits=12&period=30&secret=GEZDGNBVGY3TQOJQGEZDGNBVGY3TQOJQ"))
  = Some 6.
Proof. vm_compute. reflexivity. Qed.

(** What the conditions of the round trip exclude: a digit count outside
    [1,10] comes back as 6, an algorithm outside the three comes back as
    SHA1, and an issuer with a colon cuts the label too early. *)
Example OTPAuthURL_roundtrip_limits :
  let run c :=
    match fst (OTPAuthURL {| self := c; clock := fun _ => 0 |}) with
    | Ret (url, None) => fst (ParseOTPAuthURL url)
    | _ => None
    end in
  option_map Digits (run (NewTOTP rfc_secret "" "alice" 12 30)) = Some 6 /\
  option_map Algorithm
    (run (with_Algorithm (NewTOTP rfc_secret "" "alice" 6 30) 7))
  = Some AlgorithmSHA1 /\
  option_map AccountName (run (NewTOTP rfc_secret "a:b" "alice" 6 30))
  = Some "b:alice".
Proof. vm_compute. repeat split. Qed.

(* ===================================================================== *)
(** * Further properties *)

(* ===================================================================== *)
(** * Further properties *)

(** ** Generating, then validating *)

Section Composition.
Import GoInt.

Lemma first_match_least p n :
  forall lo j,
    lo <= j < lo + Z.of_nat n -> p j = true ->
    exists k, first_match p lo n = Some k /\ lo <= k <= j.
Proof.
  induction n as [|n IH]; intros lo j Hj Hp; [lia|].
  cbn [first_match]. destruct (p lo) eqn:Hlo.
  - exists lo. split; [reflexivity|lia].
  - assert (j <> lo) as Hne by (intros ->; congruence).
    destruct (IH (lo + 1) j ltac:(lia) Hp) as (k & Hk & Hr).
    exists k. split; [exact Hk|lia].
Qed.


(** A successful [generateOTP] tells that the digit count is accepted and
    that the secret decodes. *)
Lemma generateOTP_success counter w code :
  fst (generateOTP counter w) = Ret (code, None) ->
  valid_digits (self w) /\
  exists key, decodeSecret w = (Ret (key, None), w) /\
              code = derive (self w) key counter.
Proof.
  intros H.
  destruct (Z_le_gt_dec (Digits (self w)) 0) as [H0|H0].
  { rewrite generateOTP_invalid_digits in H by lia. discriminate H. }
  destruct (Z_lt_le_dec 10 (Digits (self w))) as [H1|H1].
  { rewrite generateOTP_invalid_digits in H by lia. discriminate H. }
  assert (valid_digits (self w)) as Hd by (unfold valid_digits; lia).
  split; [exact Hd|].
  destruct (decodeSecret_cases w) as [[key Hk]|He].
  - exists key. split; [exact Hk|].
    rewrite (generateOTP_ok counter w key Hd Hk) in H. cbn [fst] in H.
    inversion H. reflexivity.
  - rewrite (generateOTP_decode_error counter w _ _ Hd He) in H.
    discriminate H.
Qed.

End Composition.

(** X1.  A code that GenerateHOTP returns is accepted by ValidateHOTP on
    the same receiver with any window size (a negative one included), at
    the stored counter itself: the first counter scanned is the stored
    one. *)
Theorem GenerateHOTP_then_ValidateHOTP (w : World) (code : string)
    (ws : Z) (fuel : nat) :
  GoInt.is_uint64 (Counter (self w)) ->
  fst (GenerateHOTP w) = Ret (code, None) ->
  ValidateHOTP (S fuel) code ws w
  = (Ret (true, Counter (self w), None), w).
Proof.
  intros HC Hgen. unfold GenerateHOTP in Hgen. run. unfold bind in Hgen.
  cbn [fst snd self] in Hgen.
  destruct (generateOTP_success _ _ _ Hgen) as (Hd & key & Hk & ->).
  unfold ValidateHOTP. cbn [ValidateHOTP_loop].
  replace (0 <=? (if ws <? 0 then 10 else ws)) with true
    by (symmetry; apply Z.leb_le; destruct (Z.ltb_spec ws 0); lia).
  run. unfold bind. rewrite u64_add_uint64, Z.add_0_r.
  rewrite (uint64_id _ HC).
  rewrite (generateOTP_ok _ w key Hd Hk). rewrite String.eqb_refl.
  reflexivity.
Qed.

Section Widening.
Import GoInt.



End Widening.

Section Scan.
Import GoInt.

Lemma uint64_quotient a b : uint64 b <> 0 -> is_uint64 (uint64 a / uint64 b).
Proof.
  intros Hb. pose proof (uint64_range a) as Ha.
  pose proof (uint64_range b) as Hb'. unfold is_uint64 in *.
  split; [apply Z.div_pos; lia|].
  apply Z.le_lt_trans with (uint64 a); [|lia].
  apply Z.div_le_upper_bound; nia.
Qed.

(** ValidateTOTPAt as a search, whatever the sign of the time: the
    current step is the quotient of the unsigned readings. *)
Lemma ValidateTOTPAt_scan w key code t ws fuel :
  valid_digits (self w) ->
  decodeSecret w = (Ret (key, None), w) ->
  uint64 (Period (self w)) <> 0 ->
  0 <= ws < max_int64 -> (2 * Z.to_nat ws + 1 < fuel)%nat ->
  ValidateTOTPAt fuel code t ws w
  = (Ret match first_match
                 (fun j => String.eqb code
                             (derive (self w) key
                                (uint64 (uint64 (Unix t)
                                         / uint64 (Period (self w)) + j))))
                 (- ws) (Z.to_nat (2 * ws + 1)) with
         | Some j => (true, None)
         | None => (false, None)
         end, w).
Proof.
  intros Hd Hk HP Hws Hfuel. unfold ValidateTOTPAt.
  replace (ws <? 0) with false by (symmetry; apply Z.ltb_ge; lia).
  run. unfold bind. rewrite udiv_run by exact HP.
  rewrite int_neg_window by lia.
  apply ValidateTOTPAt_loop_run; auto;
    unfold min_int64, max_int64 in *; pow2; try lia.
Qed.

End Scan.


(** X3.  ValidateHOTP modulo 2^64, wrap-around included.  With a valid
    digit count and a decodable secret, for a window size
    0 <= ws < 2^63 - 1: the code of any counter (C + j) mod 2^64 with
    0 <= j <= ws is accepted, at some offset not after j; an accepted
    code is the code of the returned counter, which is (C + j) mod 2^64
    for some 0 <= j <= ws; and the code is rejected exactly when it is
    the code of none of these counters. *)
Theorem ValidateHOTP_modular (w : World) (key : list Z) (code : string)
    (ws : Z) (fuel : nat) :
  valid_digits (self w) ->
  decodeSecret w = (Ret (key, None), w) ->
  0 <= ws < GoInt.max_int64 -> (Z.to_nat ws + 1 < fuel)%nat ->
  let C := Counter (self w) in
  (forall j, 0 <= j <= ws -> derives w (GoInt.uint64 (C + j)) code ->
     exists i, 0 <= i <= j /\
       ValidateHOTP fuel code ws w
       = (Ret (true, GoInt.uint64 (C + i), None), w)) /\
  (forall k, ValidateHOTP fuel code ws w = (Ret (true, k, None), w) ->
     derives w k code /\ exists j, 0 <= j <= ws /\ k = GoInt.uint64 (C + j)) /\
  (ValidateHOTP fuel code ws w = (Ret (false, 0, None), w) <->
   forall j, 0 <= j <= ws -> ~ derives w (GoInt.uint64 (C + j)) code).
Proof.
  intros Hd Hk Hws Hfuel C.
  rewrite (ValidateHOTP_search w key code ws fuel Hd Hk Hws Hfuel). fold C.
  set (p := fun j => String.eqb code
                       (derive (self w) key (GoInt.uint64 (C + j)))).
  assert (forall j, p j = true <-> derives w (GoInt.uint64 (C + j)) code) as Hp.
  { intros j. unfold p. rewrite String.eqb_eq, (derives_iff w key Hd Hk).
    split; congruence. }
  split; [|split].
  - intros j Hj Hder.
    destruct (first_match_least p (Z.to_nat (ws + 1)) 0 j ltac:(lia)
                (proj2 (Hp j) Hder)) as (i & Hi & Hr).
    exists i. split; [exact Hr|]. now rewrite Hi.
  - intros k H. destruct (first_match p 0 (Z.to_nat (ws + 1))) as [j|] eqn:Hfm;
      [|discriminate].
    apply first_match_some in Hfm. destruct Hfm as (Hr & Hpj & _).
    apply run_Ret_inj in H. inversion H; subst k.
    split; [now apply Hp|]. exists j. split; [lia|reflexivity].
  - destruct (first_match p 0 (Z.to_nat (ws + 1))) as [j|] eqn:Hfm.
    + apply first_match_some in Hfm. destruct Hfm as (Hr & Hpj & _).
      split; [discriminate|]. intros Hno. exfalso.
      apply (Hno j); [lia|]. now apply Hp.
    + split; [|reflexivity]. intros _ j Hj Hder.
      pose proof (first_match_none _ _ _ Hfm j ltac:(lia)) as Hf.
      apply Hp in Hder. congruence.
Qed.

Section GenerateTOTP.
Import GoInt.

(** What a run of GenerateTOTPAt that returns a code tells. *)
Lemma GenerateTOTPAt_success t w code :
  fst (GenerateTOTPAt t w) = Ret (code, None) ->
  let w' := defaulted w in
  let cur := uint64 (Unix t) / uint64 (Period (self w')) in
  snd (GenerateTOTPAt t w) = w' /\
  uint64 (Period (self w')) <> 0 /\
  valid_digits (self w') /\
  exists key, decodeSecret w' = (Ret (key, None), w') /\
              code = derive (self w') key cur.
Proof.
  intros H. cbv zeta. split; [apply GenerateTOTPAt_frame|].
  revert H. unfold GenerateTOTPAt, defaulted. run. unfold bind.
  destruct (Period (self w) <=? 0); cbn [set_Period ret self];
    unfold udiv;
    match goal with
    | |- context [if ?b =? 0 then _ else _] =>
        destruct (Z.eqb_spec b 0) as [|HP]; [discriminate|]
    end;
    cbn [ret]; intros H;
    destruct (generateOTP_success _ _ _ H) as (Hd & key & Hk & ->);
    (split; [exact HP|]); (split; [exact Hd|]);
    exists key; (split; [exact Hk|reflexivity]).
Qed.

End GenerateTOTP.

(** X4.  A code that GenerateTOTPAt returns for the time t is accepted by
    ValidateTOTPAt at the same time t on the receiver as GenerateTOTPAt
    left it (with the default period stored when the period was not
    positive), for every window size below 2^63 - 1, a negative one
    included. *)
Theorem GenerateTOTPAt_then_ValidateTOTPAt (w : World) (t : Time)
    (code : string) (ws : Z) (fuel : nat) :
  fst (GenerateTOTPAt t w) = Ret (code, None) ->
  ws < GoInt.max_int64 -> (2 * Z.to_nat ws + 3 < fuel)%nat ->
  let w' := snd (GenerateTOTPAt t w) in
  ValidateTOTPAt fuel code t ws w' = (Ret (true, None), w').
Proof.
  intros Hgen Hws Hfuel.
  destruct (GenerateTOTPAt_success t w code Hgen)
    as (Hsnd & HP & Hd & key & Hk & Hcode).
  cbv zeta. rewrite Hsnd. set (w' := defaulted w) in *.
  assert (forall ws0, 0 <= ws0 < GoInt.max_int64 ->
            (2 * Z.to_nat ws0 + 1 < fuel)%nat ->
            ValidateTOTPAt fuel code t ws0 w' = (Ret (true, None), w')) as Hpos.
  { intros ws0 Hws0 Hf0.
    rewrite (ValidateTOTPAt_scan w' key code t ws0 fuel Hd Hk HP Hws0 Hf0).
    match goal with
    | |- context [first_match ?p ?lo ?n] =>
        destruct (first_match_least p n lo 0 ltac:(lia)) as (k & Hfm & _);
        [|rewrite Hfm; reflexivity]
    end.
    cbv beta. rewrite Z.add_0_r.
    rewrite (uint64_id _ (uint64_quotient _ _ HP)).
    rewrite Hcode. apply String.eqb_refl. }
  destruct (Z.ltb_spec ws 0) as [Hneg|Hnn].
  - replace (ValidateTOTPAt fuel code t ws w')
      with (ValidateTOTPAt fuel code t 1 w').
    + apply Hpos; [unfold GoInt.max_int64; pow2; lia|simpl; lia].
    + unfold ValidateTOTPAt.
      replace (ws <? 0) with true by (symmetry; apply Z.ltb_lt; lia).
      reflexivity.
  - apply Hpos; lia.
Qed.


(** ** Steps of time *)

Section TimeSteps.
Import GoInt.

Lemma time_Second_pos : 0 < time_Second.
Proof. reflexivity. Qed.

Lemma Unix_time_Unix sec : Unix (time_Unix sec) = sec.
Proof. unfold Unix, time_Unix. apply Z.div_mul. discriminate. Qed.

(** The instants of the step [k] are those from [k * P] seconds on and
    before [(k + 1) * P] seconds. *)
Lemma step_of_instant P k (t : Time) :
  0 < P ->
  (time_Unix (k * P) <= t < time_Unix ((k + 1) * P) <-> Unix t / P = k).
Proof.
  intros HP. unfold time_Unix, Unix.
  pose proof time_Second_pos as Hs. set (S := time_Second) in *.
  pose proof (Z.div_mod t S ltac:(lia)) as Ht.
  pose proof (Z.mod_pos_bound t S Hs) as Htm.
  pose proof (Z.div_mod (t / S) P ltac:(lia)) as Hq.
  pose proof (Z.mod_pos_bound (t / S) P HP) as Hqm.
  split.
  - intros [Hlo Hhi].
    assert (k * P <= t / S) as H1 by (apply Z.div_le_lower_bound; lia).
    assert (t / S < (k + 1) * P) as H2 by (apply Z.div_lt_upper_bound; lia).
    symmetry. apply (Z.div_unique (t / S) P k (t / S - k * P)); lia.
  - intros <-. nia.
Qed.

Lemma GenerateTOTPAt_positive t w :
  0 < Period (self w) <= max_int64 -> 0 <= Unix t <= max_int64 ->
  GenerateTOTPAt t w = generateOTP (Unix t / Period (self w)) w.
Proof.
  intros HP Ht. unfold GenerateTOTPAt. run. unfold bind.
  replace (Period (self w) <=? 0) with false
    by (symmetry; apply Z.leb_gt; lia).
  cbn [ret].
  rewrite !uint64_id by (unfold is_uint64, max_int64 in *; pow2; lia).
  rewrite udiv_run by lia. reflexivity.
Qed.

End TimeSteps.

(** X6.  With a positive period and a time at or after the epoch, the
    TOTP code of a time is the HOTP code of the counter
    floor(unix-seconds / period); hence every instant of one step, to the
    nanosecond, has the same code. *)
Theorem GenerateTOTPAt_is_HOTP_at_step (w : World) (t : Time) :
  0 < Period (self w) <= GoInt.max_int64 ->
  0 <= Unix t <= GoInt.max_int64 ->
  let k := Unix t / Period (self w) in
  GenerateTOTPAt t w = GenerateHOTPAt k w /\
  forall t' : Time,
    Unix t' <= GoInt.max_int64 ->
    time_Unix (k * Period (self w)) <= t'
                                    < time_Unix ((k + 1) * Period (self w)) ->
    GenerateTOTPAt t' w = GenerateTOTPAt t w.
Proof.
  intros HP Ht k. unfold GenerateHOTPAt.
  split; [now apply GenerateTOTPAt_positive|].
  intros t' Hmax Ht'. apply step_of_instant in Ht'; [|lia].
  assert (0 <= Unix t') as Hu.
  { pose proof (Z.div_mod (Unix t') (Period (self w)) ltac:(lia)) as Hq.
    pose proof (Z.mod_pos_bound (Unix t') (Period (self w)) ltac:(lia)) as Hm.
    assert (0 <= k) by (apply Z.div_pos; lia).
    rewrite Ht' in Hq. nia. }
  rewrite !GenerateTOTPAt_positive by (try assumption; lia).
  now rewrite Ht'.
Qed.

(** X7.  GenerateTOTP and then ValidateTOTP on the same receiver, each
    reading the clock once: with a positive period and both readings at
    or after the epoch, the generated code is accepted whenever the steps
    of the two readings are at most the window size apart. *)
Theorem GenerateTOTP_then_ValidateTOTP (w : World) (code : string) (ws : Z)
    (fuel : nat) :
  let P := Period (self w) in
  let t0 := clock w 0 in
  let t1 := clock w 1 in
  0 < P <= GoInt.max_int64 ->
  0 <= Unix t0 <= GoInt.max_int64 -> 0 <= Unix t1 <= GoInt.max_int64 ->
  fst (GenerateTOTP w) = Ret (code, None) ->
  0 <= ws < GoInt.max_int64 -> (2 * Z.to_nat ws + 1 < fuel)%nat ->
  Z.abs (Unix t1 / P - Unix t0 / P) <= ws ->
  fst (ValidateTOTP fuel code ws (snd (GenerateTOTP w))) = Ret (true, None).
Proof.
  intros P t0 t1 HP Ht0 Ht1 Hgen Hws Hfuel Hdrift.
  unfold GenerateTOTP, bind in *. rewrite time_Now_run in *.
  fold t0 in Hgen |- *.
  assert (Period (self (tick w)) = P) as HPt by reflexivity.
  rewrite (GenerateTOTPAt_positive t0 (tick w)) in *
    by (rewrite ?HPt; assumption).
  rewrite HPt in *.
  destruct (generateOTP_success _ _ _ Hgen) as (Hd & key & Hk & ->).
  rewrite (generateOTP_ok _ _ key Hd Hk). cbn [snd].
  unfold ValidateTOTP, bind. rewrite time_Now_run.
  change (clock (tick w) 0) with t1.
  assert (decodeSecret (tick (tick w)) = (Ret (key, None), tick (tick w)))
    as Hk' by (apply (decodeSecret_self (tick w)); [exact Hk|reflexivity]).
  rewrite (ValidateTOTPAt_search (tick (tick w)) key _ t1 ws fuel)
    by (try assumption; cbn [tick self]; fold P; lia).
  cbn [tick self fst]. fold P.
  match goal with
  | |- context [first_match ?p ?lo ?n] =>
      destruct (first_match_least p n lo (Unix t0 / P - Unix t1 / P)
                  ltac:(lia)) as (k & Hfm & _);
      [|rewrite Hfm; reflexivity]
  end.
  cbv beta.
  replace (Unix t1 / P + (Unix t0 / P - Unix t1 / P)) with (Unix t0 / P)
    by lia.
  rewrite uint64_id; [apply String.eqb_refl|].
  unfold GoInt.is_uint64, GoInt.max_int64 in *. pow2.
  split; [apply Z.div_pos; lia|].
  apply Z.le_lt_trans with (Unix t0); [|lia].
  apply Z.div_le_upper_bound; nia.
Qed.

(** ** The time queries *)

Section Queries.
Import GoInt.

(** The period the time queries work with: they store 30 in place of a
    period that is not positive. *)
Lemma defaulted_Period w :
  Period (self (defaulted w))
  = (if Period (self w) <=? 0 then 30 else Period (self w)) /\
  0 < Period (self (defaulted w)).
Proof.
  unfold defaulted. destruct (Z.leb_spec (Period (self w)) 0); cbn; lia.
Qed.

Lemma GetRemainingTime_run w :
  GetRemainingTime w
  = (Ret (int_sub (Period (self (defaulted w)))
            (int_rem (Unix (clock w O)) (Period (self (defaulted w))))),
     tick (defaulted w)).
Proof.
  unfold GetRemainingTime, defaulted. run. unfold bind.
  destruct (Period (self w) <=? 0); reflexivity.
Qed.

Lemma time_query_run w :
  let P := Period (self (defaulted w)) in
  let cur := Unix (clock w O) / P in
  0 <= Unix (clock w O) -> Unix (clock w O) + P <= max_int64 ->
  GetCurrentTOTPWindow w
  = (Ret (time_Unix (cur * P), time_Unix ((cur + 1) * P)),
     tick (defaulted w)) /\
  GetNextTOTPTime w = (Ret (time_Unix ((cur + 1) * P)), tick (defaulted w)).
Proof.
  intros P cur Hnow Hmax.
  destruct (defaulted_Period w) as [_ HP]. fold P in HP.
  assert (0 <= cur) as Hc by (apply Z.div_pos; lia).
  assert (cur * P <= Unix (clock w O)) as Hcp
    by (rewrite Z.mul_comm; apply Z.mul_div_le; lia).
  assert (cur <= Unix (clock w O)) as Hcu by nia.
  assert (int_quo (Unix (clock w O)) P = cur) as Hq.
  { unfold int_quo. rewrite Z.quot_div_nonneg by lia.
    apply wrap_int64_id.
    unfold is_int64, min_int64, max_int64 in *. pow2. lia. }
  assert (int_mul cur P = cur * P) as Hm1.
  { unfold int_mul. apply wrap_int64_id.
    unfold is_int64, min_int64, max_int64 in *. pow2. nia. }
  assert (int_mul (int_add cur 1) P = (cur + 1) * P) as Hm2.
  { unfold int_mul, int_add. rewrite (wrap_int64_id (cur + 1)).
    - apply wrap_int64_id.
      unfold is_int64, min_int64, max_int64 in *. pow2. nia.
    - unfold is_int64, min_int64, max_int64 in *. pow2. nia. }
  assert ((P =? 0) = false) as Hnz by (apply Z.eqb_neq; lia).
  unfold GetCurrentTOTPWindow, GetNextTOTPTime. run. unfold bind.
  unfold P, cur, defaulted in *.
  destruct (Period (self w) <=? 0);
    cbn [set_Period ret self clock] in *; rewrite !time_Now_run;
    cbn [tick self clock] in *; unfold idiv; rewrite Hnz; cbn [ret];
    rewrite Hq, Hm1, Hm2; split; reflexivity.
Qed.

End Queries.

(** X8.  GetRemainingTime works with the period 30 in place of a period
    that is not positive, reads the clock once and stores that period.
    At or after the epoch the result is between 1 and the period, never
    zero, and leads to the next step boundary: the seconds of the clock
    plus the result are a multiple of the period.  Before the epoch the
    remainder of Go's division is not positive, and the result is between
    the period and twice the period. *)
Theorem GetRemainingTime_range (w : World) :
  let P := if Period (self w) <=? 0 then 30 else Period (self w) in
  let now := Unix (clock w O) in
  P <= GoInt.max_int64 ->
  exists r,
    GetRemainingTime w = (Ret r, tick (defaulted w)) /\
    Period (self (defaulted w)) = P /\
    (0 <= now -> 1 <= r <= P /\ (now + r) mod P = 0) /\
    (now < 0 -> 2 * P - 1 <= GoInt.max_int64 -> P <= r <= 2 * P - 1).
Proof.
  intros P now HPmax. rewrite GetRemainingTime_run.
  destruct (defaulted_Period w) as [HPe HP]. rewrite HPe in *. fold P in HP |- *.
  eexists. split; [reflexivity|]. split; [reflexivity|].
  fold now. unfold GoInt.int_sub, GoInt.int_rem. split.
  - intros Hnow. rewrite Z.rem_mod_nonneg by lia.
    pose proof (Z.mod_pos_bound now P HP) as Hm.
    rewrite wrap_int64_id
      by (unfold GoInt.is_int64, GoInt.min_int64, GoInt.max_int64 in *;
          pow2; lia).
    split; [lia|].
    replace (now + (P - now mod P)) with (now - now mod P + 1 * P) by lia.
    rewrite Z.mod_add by lia.
    rewrite (Z.div_mod now P) at 1 by lia.
    replace (P * (now / P) + now mod P - now mod P) with ((now / P) * P)
      by lia.
    apply Z.mod_mul. lia.
  - intros Hneg H2.
    pose proof (Z.rem_bound_pos_neg now P HP ltac:(lia)) as Hr.
    rewrite wrap_int64_id
      by (unfold GoInt.is_int64, GoInt.min_int64, GoInt.max_int64 in *;
          pow2; lia).
    lia.
Qed.

(** X9.  GetCurrentTOTPWindow at or after the epoch (and with the end of
    the step within the 64-bit range): the window it returns holds the
    reading of the clock, start <= now < end, it is one period long (30
    seconds in place of a period that is not positive), it starts at a
    multiple of the period, and every instant of it has the TOTP code of
    the reading. *)
Theorem GetCurrentTOTPWindow_bounds (w : World) :
  let P := if Period (self w) <=? 0 then 30 else Period (self w) in
  let now := clock w O in
  0 <= Unix now -> Unix now + P <= GoInt.max_int64 ->
  exists start end_ : Time,
    GetCurrentTOTPWindow w = (Ret (start, end_), tick (defaulted w)) /\
    start <= now < end_ /\
    end_ - start = P * time_Second /\
    Unix start mod P = 0 /\
    forall t : Time,
      start <= t < end_ ->
      GenerateTOTPAt t (tick (defaulted w))
      = GenerateTOTPAt now (tick (defaulted w)).
Proof.
  intros P now Hnow Hmax.
  destruct (defaulted_Period w) as [HPe HP]. fold P in HPe.
  rewrite HPe in HP.
  destruct (time_query_run w) as [Hwin _]; rewrite ?HPe; try assumption.
  rewrite HPe in Hwin. fold now in Hwin. rewrite Hwin.
  set (cur := Unix now / P) in *.
  do 2 eexists. split; [reflexivity|].
  assert (time_Unix (cur * P) <= now < time_Unix ((cur + 1) * P)) as Hin
    by (apply step_of_instant; [exact HP|reflexivity]).
  split; [exact Hin|].
  split; [unfold time_Unix; lia|].
  split; [rewrite Unix_time_Unix; apply Z.mod_mul; lia|].
  intros t Ht.
  assert (Period (self (tick (defaulted w))) = P) as HPt by exact HPe.
  assert (Unix t / P = cur) as Hstep by (apply step_of_instant; assumption).
  assert (0 <= cur) as Hc by (apply Z.div_pos; lia).
  pose proof (Z.div_mod (Unix t) P ltac:(lia)) as Hq.
  pose proof (Z.mod_pos_bound (Unix t) P HP) as Hm.
  pose proof (Z.div_mod (Unix now) P ltac:(lia)) as Hq'.
  pose proof (Z.mod_pos_bound (Unix now) P HP) as Hm'.
  fold cur in Hq'. rewrite Hstep in Hq.
  rewrite !GenerateTOTPAt_positive by (rewrite ?HPt; nia).
  rewrite HPt, Hstep. reflexivity.
Qed.

(** X10.  The three time queries agree on one reading of the clock (at
    or after the epoch): GetNextTOTPTime returns the end of the window of
    GetCurrentTOTPWindow, which lies after the reading by the number of
    seconds that GetRemainingTime returns. *)
Theorem GetNextTOTPTime_agrees (w : World) :
  let P := if Period (self w) <=? 0 then 30 else Period (self w) in
  let now := clock w O in
  0 <= Unix now -> Unix now + P <= GoInt.max_int64 ->
  exists (next start : Time) (r : Z),
    GetNextTOTPTime w = (Ret next, tick (defaulted w)) /\
    fst (GetCurrentTOTPWindow w) = Ret (start, next) /\
    fst (GetRemainingTime w) = Ret r /\
    next = time_Unix (Unix now + r) /\
    now < next.
Proof.
  intros P now Hnow Hmax.
  destruct (defaulted_Period w) as [HPe HP]. fold P in HPe.
  rewrite HPe in HP.
  destruct (time_query_run w) as [Hwin Hnext]; rewrite ?HPe; try assumption.
  rewrite HPe in Hwin, Hnext. fold now in Hwin, Hnext.
  rewrite Hwin, Hnext, GetRemainingTime_run, HPe. fold now.
  set (cur := Unix now / P) in *.
  do 3 eexists. split; [reflexivity|]. split; [reflexivity|].
  split; [reflexivity|].
  pose proof (Z.div_mod (Unix now) P ltac:(lia)) as Hq. fold cur in Hq.
  pose proof (Z.mod_pos_bound (Unix now) P HP) as Hm.
  unfold GoInt.int_sub, GoInt.int_rem. rewrite Z.rem_mod_nonneg by lia.
  rewrite wrap_int64_id
    by (unfold GoInt.is_int64, GoInt.min_int64, GoInt.max_int64 in *;
        pow2; lia).
  split; [f_equal; lia|].
  apply (step_of_instant P cur now HP). reflexivity.
Qed.

(** ** The entries of a batch and the instants they are valid at *)

Section Entries.

Lemma IsValid_iff e t : IsValid e t = true <-> ValidFrom e <= t < ValidTo e.
Proof.
  unfold IsValid, time_Before.
  rewrite andb_true_iff, negb_true_iff, Z.ltb_ge, Z.ltb_lt. reflexivity.
Qed.

End Entries.

(** X11.  The entries of a batch and TOTPEntry.IsValid, under the
    conditions of a regular batch (N >= 1, valid digit count, decodable
    secret, positive period, a clock that stays in one step, times within
    the 64-bit range): the entry flagged current is valid at the reading
    of the clock; no instant is valid for two entries; and an entry that
    is valid at an instant carries the code that GenerateTOTPAt returns
    for that instant. *)
Theorem GenerateTOTPBatch_IsValid (w : World) (key : list Z) (N : Z) :
  valid_digits (self w) ->
  decodeSecret w = (Ret (key, None), w) ->
  1 <= N -> 0 < Period (self w) ->
  N / 2 * Period (self w) <= Unix (clock w O) ->
  (Unix (clock w O) + (N / 2 + 1) * Period (self w)) * time_Second
  <= GoInt.max_int64 ->
  (forall n, (n <= Z.to_nat N)%nat ->
             0 <= Unix (clock w n) /\
             Unix (clock w n) / Period (self w)
             = Unix (clock w O) / Period (self w)) ->
  exists entries,
    fst (GenerateTOTPBatch N w) = Ret (entries, None) /\
    (forall e, In e entries -> IsCurrent e = true ->
               IsValid e (clock w O) = true) /\
    (forall i j t,
        (i < List.length entries)%nat -> (j < List.length entries)%nat ->
        IsValid (nth i entries zero_TOTPEntry) t = true ->
        IsValid (nth j entries zero_TOTPEntry) t = true -> i = j) /\
    (forall e t, In e entries -> IsValid e t = true ->
                 fst (GenerateTOTPAt t w) = Ret (Code e, None)).
Proof.
  intros Hd Hk HN HP Hlo Hhi Hclock.
  rewrite (GenerateTOTPBatch_run w key N Hd Hk HN HP Hlo Hhi Hclock).
  set (P := Period (self w)) in *.
  set (cur := Unix (clock w O) / P) in *.
  set (entries := map _ _).
  exists entries. split; [reflexivity|].
  assert (forall e, In e entries ->
            exists i, 0 <= i < N /\ e = batch_entry (self w) key cur N i) as Hin.
  { intros e He. unfold entries in He. apply in_map_iff in He.
    destruct He as (k & <- & Hk'). apply in_seq in Hk'.
    exists (Z.of_nat k). split; [lia|reflexivity]. }
  assert (forall i, (i < List.length entries)%nat ->
            nth i entries zero_TOTPEntry
            = batch_entry (self w) key cur N (Z.of_nat i) /\
            0 <= Z.of_nat i < N) as Hnth.
  { intros i Hi. unfold entries in *.
    rewrite length_map, length_seq in Hi.
    rewrite (nth_indep _ zero_TOTPEntry
               (batch_entry (self w) key cur N (Z.of_nat 0)))
      by (rewrite length_map, length_seq; lia).
    rewrite (map_nth (fun k => batch_entry (self w) key cur N (Z.of_nat k))).
    rewrite seq_nth by lia. split; [reflexivity|lia]. }
  pose proof time_Second_pos as Hsec.
  assert (forall i t,
            IsValid (batch_entry (self w) key cur N i) t = true <->
            Unix t / P = cur + (i - N / 2)) as Hstep.
  { intros i t. rewrite IsValid_iff. unfold batch_entry.
    cbn [ValidFrom ValidTo]. fold P. apply step_of_instant. exact HP. }
  split; [|split].
  - intros e He Hcur. destruct (Hin e He) as (i & Hi & ->).
    apply Hstep. unfold batch_entry in Hcur. cbn [IsCurrent] in Hcur.
    apply Z.eqb_eq in Hcur. fold cur. lia.
  - intros i j t Hi Hj.
    destruct (Hnth i Hi) as [-> _]. destruct (Hnth j Hj) as [-> _].
    rewrite !Hstep. lia.
  - intros e t He Hv. destruct (Hin e He) as (i & Hi & ->).
    apply Hstep in Hv.
    pose proof (Z.div_mod N 2 ltac:(lia)) as HdN.
    pose proof (Z.mod_pos_bound N 2 ltac:(lia)) as HmN.
    assert (N / 2 <= cur) as Hhalf
      by (apply Z.div_le_lower_bound; lia).
    pose proof (Z.div_mod (Unix t) P ltac:(lia)) as Hq.
    pose proof (Z.mod_pos_bound (Unix t) P HP) as Hm.
    pose proof (Z.div_mod (Unix (clock w O)) P ltac:(lia)) as Hq'.
    pose proof (Z.mod_pos_bound (Unix (clock w O)) P HP) as Hm'.
    fold cur in Hq'. rewrite Hv in Hq.
    assert (0 <= Unix t <= GoInt.max_int64 /\ P <= GoInt.max_int64) as [Ht HPm].
    { unfold GoInt.max_int64, time_Second in *.
      change (10 ^ 9) with 1000000000 in *. pow2. split; nia. }
    rewrite GenerateTOTPAt_positive by (fold P; lia).
    fold P. rewrite Hv, (generateOTP_ok _ w key Hd Hk). reflexivity.
Qed.

(** ** The counter, the algorithm and the secret *)

Section Receiver.
Import GoInt.

(** [generateOTP] reads the secret, the digit count and the algorithm
    (through its name) and nothing else. *)
Lemma hash_of_name c1 c2 :
  Algorithm_String (Algorithm c1) = Algorithm_String (Algorithm c2) ->
  hash_of c1 = hash_of c2.
Proof.
  unfold Algorithm_String, hash_of, AlgorithmSHA1, AlgorithmSHA256,
    AlgorithmSHA512.
  destruct (Z.eqb_spec (Algorithm c1) 0), (Z.eqb_spec (Algorithm c1) 1),
    (Z.eqb_spec (Algorithm c1) 2), (Z.eqb_spec (Algorithm c2) 0),
    (Z.eqb_spec (Algorithm c2) 1), (Z.eqb_spec (Algorithm c2) 2);
    intros H; try reflexivity; try discriminate H; lia.
Qed.

Lemma derive_name c1 c2 key counter :
  Digits c1 = Digits c2 ->
  Algorithm_String (Algorithm c1) = Algorithm_String (Algorithm c2) ->
  derive c1 key counter = derive c2 key counter.
Proof.
  intros Hd Ha. unfold derive, otp_value, truncatedHash.
  now rewrite Hd, (hash_of_name c1 c2 Ha).
Qed.

Lemma decodeSecret_fst w :
  fst (decodeSecret w)
  = Ret match Base32.DecodeString
                (Strings.ToUpper (Strings.remove_byte " " (Secret (self w))))
        with
        | Some bytes => (bytes, None)
        | None => ([], Some CorruptInputError)
        end.
Proof.
  unfold decodeSecret. run. destruct (Base32.DecodeString _); reflexivity.
Qed.

Lemma generateOTP_reads w1 w2 counter :
  Strings.ToUpper (Strings.remove_byte " " (Secret (self w1)))
  = Strings.ToUpper (Strings.remove_byte " " (Secret (self w2))) ->
  Digits (self w1) = Digits (self w2) ->
  Algorithm_String (Algorithm (self w1))
  = Algorithm_String (Algorithm (self w2)) ->
  fst (generateOTP counter w1) = fst (generateOTP counter w2).
Proof.
  intros HS HD HA.
  destruct (Z_le_gt_dec (Digits (self w1)) 0) as [H0|H0].
  { rewrite !generateOTP_invalid_digits by (rewrite <- ?HD; lia).
    reflexivity. }
  destruct (Z_lt_le_dec 10 (Digits (self w1))) as [H1|H1].
  { rewrite !generateOTP_invalid_digits by (rewrite <- ?HD; lia).
    reflexivity. }
  assert (valid_digits (self w1)) as Hd1 by (unfold valid_digits; lia).
  assert (valid_digits (self w2)) as Hd2
    by (unfold valid_digits; rewrite <- HD; lia).
  pose proof (decodeSecret_fst w1) as F1.
  pose proof (decodeSecret_fst w2) as F2. rewrite <- HS in F2.
  destruct (decodeSecret_cases w1) as [[k1 E1]|E1];
    destruct (decodeSecret_cases w2) as [[k2 E2]|E2];
    rewrite E1 in F1; rewrite E2 in F2; cbn [fst] in F1, F2;
    destruct (Base32.DecodeString _); try discriminate.
  - rewrite (generateOTP_ok _ _ _ Hd1 E1), (generateOTP_ok _ _ _ Hd2 E2).
    cbn [fst]. inversion F1. inversion F2. subst.
    now rewrite (derive_name (self w1) (self w2)).
  - rewrite (generateOTP_decode_error _ _ _ _ Hd1 E1),
      (generateOTP_decode_error _ _ _ _ Hd2 E2). reflexivity.
Qed.

End Receiver.

(** X12.  IncrementCounter adds one to the stored counter modulo 2^64
    (from 2^64 - 1 it goes to 0), returns the value it stored and writes
    nothing else; GenerateHOTP on the receiver it leaves gives what
    GenerateHOTPAt gives for that value. *)
Theorem IncrementCounter_advances (w : World) :
  let C' := (Counter (self w) + 1) mod 2 ^ 64 in
  exists w',
    IncrementCounter w = (Ret C', w') /\
    self w' = with_Counter (self w) C' /\ clock w' = clock w /\
    (Counter (self w) = 2 ^ 64 - 1 -> C' = 0) /\
    (0 <= Counter (self w) < 2 ^ 64 - 1 -> C' = Counter (self w) + 1) /\
    fst (GenerateHOTP w') = fst (GenerateHOTPAt C' w).
Proof.
  cbv zeta. eexists. split; [reflexivity|].
  cbn [self clock]. split; [reflexivity|]. split; [reflexivity|].
  split; [intros ->; reflexivity|].
  split; [intros H; apply Z.mod_small; lia|].
  unfold GenerateHOTP, GenerateHOTPAt. run. unfold bind.
  cbn [with_Counter Counter]. apply generateOTP_reads; reflexivity.
Qed.

(** X13.  The algorithm counts through its name alone: two receivers
    with the same secret and digit count whose algorithms have the same
    name generate the same codes; the name is one of SHA1, SHA256 and
    SHA512, and every value other than AlgorithmSHA256 and
    AlgorithmSHA512 is named, and hashes as, SHA1. *)
Theorem algorithm_by_name (w1 w2 : World) :
  Secret (self w1) = Secret (self w2) ->
  Digits (self w1) = Digits (self w2) ->
  Algorithm_String (Algorithm (self w1))
  = Algorithm_String (Algorithm (self w2)) ->
  (forall counter,
      fst (generateOTP counter w1) = fst (generateOTP counter w2)) /\
  (Algorithm (self w1) <> AlgorithmSHA256 ->
   Algorithm (self w1) <> AlgorithmSHA512 ->
   Algorithm_String (Algorithm (self w1)) = "SHA1" /\
   fst (getHash w1) = Ret sha1_New) /\
  (Algorithm_String (Algorithm (self w1)) = "SHA1" \/
   Algorithm_String (Algorithm (self w1)) = "SHA256" \/
   Algorithm_String (Algorithm (self w1)) = "SHA512").
Proof.
  intros HS HD HA. split; [|split].
  - intros counter. apply generateOTP_reads; [now rewrite HS|exact HD|exact HA].
  - intros H1 H2. rewrite getHash_run.
    unfold Algorithm_String, hash_of.
    destruct (Z.eqb_spec (Algorithm (self w1)) AlgorithmSHA1);
      destruct (Z.eqb_spec (Algorithm (self w1)) AlgorithmSHA256);
      destruct (Z.eqb_spec (Algorithm (self w1)) AlgorithmSHA512);
      try contradiction; split; reflexivity.
  - unfold Algorithm_String.
    destruct (_ =? AlgorithmSHA1); [now left|].
    destruct (_ =? AlgorithmSHA256); [now right; left|].
    destruct (_ =? AlgorithmSHA512); [now right; right|now left].
Qed.

Section CodeValue.
Import Strings Strconv.

Lemma parse_digits_pad n s :
  parse_digits (pad_left "0" n s) 0 = parse_digits s 0.
Proof. induction n as [|n IH]; [reflexivity|]. cbn. exact IH. Qed.

Lemma pad_left_nonempty c n s : s <> EmptyString -> pad_left c n s <> EmptyString.
Proof. intros H. destruct n; [exact H|discriminate]. Qed.

(** A code read back as a number. *)
Lemma ParseUint_Sprintf_0d d v :
  0 <= v < 2 ^ 64 -> ParseUint (Sprintf_0d d v) = Some v.
Proof.
  intros Hv.
  assert (0 <= v < 10 ^ 20) as Hr
    by (pow2; change (10 ^ 20) with 100000000000000000000; lia).
  unfold ParseUint, Sprintf_0d.
  pose proof (pad_left_nonempty "0"
                (Z.to_nat d - String.length (FormatUint v)) (FormatUint v)
                (FormatUint_nonempty v Hr)) as Hne.
  destruct (pad_left _ _ _) eqn:E; [contradiction|].
  rewrite <- E, parse_digits_pad, (parse_digits_FormatUint v Hr).
  replace (v <? 2 ^ 64) with true by (symmetry; apply Z.ltb_lt; lia).
  reflexivity.
Qed.

End CodeValue.

(** X14.  The number a code spells.  With a valid digit count and a
    decoded secret, the code of generateOTP, read as a decimal number, is
    the 31-bit value of the dynamic truncation reduced by the modulus;
    for 1 to 9 digits that is the truncated value modulo 10^Digits, and
    the truncated value itself lies in [0, 2^31). *)
Theorem generateOTP_code_value (w : World) (key : list Z) (counter : Z) :
  valid_digits (self w) ->
  decodeSecret w = (Ret (key, None), w) ->
  exists code,
    generateOTP counter w = (Ret (code, None), w) /\
    Strconv.ParseUint code = Some (otp_value (self w) key counter) /\
    0 <= truncatedHash (self w) key counter < 2 ^ 31 /\
    (Digits (self w) <= 9 ->
     Strconv.ParseUint code
     = Some (truncatedHash (self w) key counter mod 10 ^ Digits (self w))).
Proof.
  intros Hd Hk. exists (derive (self w) key counter).
  split; [now apply generateOTP_ok|].
  pose proof (otp_value_range (self w) key counter Hd) as Hv.
  assert (Strconv.ParseUint (derive (self w) key counter)
          = Some (otp_value (self w) key counter)) as Hp.
  { unfold derive. apply ParseUint_Sprintf_0d.
    unfold valid_digits in Hd.
    assert (10 ^ Digits (self w) <= 10 ^ 10)
      by (apply Z.pow_le_mono_r; lia).
    change (10 ^ 10) with 10000000000 in *. pow2. lia. }
  split; [exact Hp|]. split; [apply truncatedHash_range|].
  intros H9. rewrite Hp. f_equal. apply otp_value_pow10.
  unfold valid_digits in Hd. lia.
Qed.

Section Secrets.
Import Strings.

Lemma ValidateSecret_decodes w :
  (ValidateSecret (Secret (self w)) = None /\
   exists key, decodeSecret w = (Ret (key, None), w)) \/
  (ValidateSecret (Secret (self w))
   = Some (Errorf_w "invalid base32 secret: " CorruptInputError) /\
   decodeSecret w = (Ret ([], Some CorruptInputError), w)).
Proof.
  unfold ValidateSecret, decodeSecret. run.
  destruct (Base32.DecodeString _) as [key|].
  - left. split; [reflexivity|]. exists key. reflexivity.
  - right. split; reflexivity.
Qed.

Lemma remove_space_all s :
  forall_bytes (fun a => Ascii.eqb a " ") s = true ->
  remove_byte " " s = EmptyString.
Proof.
  induction s as [|a s IH]; [reflexivity|]. cbn [forall_bytes remove_byte].
  intros H. apply andb_true_iff in H. destruct H as [Ha Hs].
  rewrite Ha. now apply IH.
Qed.

End Secrets.

(** X15.  ValidateSecret accepts exactly the secrets generateOTP can work
    with: for a receiver with a valid digit count, ValidateSecret of its
    secret returns nil if and only if generateOTP returns a code.  A
    rejected secret makes generateOTP return the empty string and an
    error that wraps base32's CorruptInputError; neither function ever
    returns the package's ErrInvalidSecret. *)
Theorem ValidateSecret_iff_generateOTP (w : World) (counter : Z) :
  valid_digits (self w) ->
  (ValidateSecret (Secret (self w)) = None <->
   exists code, generateOTP counter w = (Ret (code, None), w)) /\
  (forall e, ValidateSecret (Secret (self w)) = Some e ->
     errors_Is e CorruptInputError = true /\
     errors_Is e ErrInvalidSecret = false /\
     exists e', generateOTP counter w = (Ret ("", Some e'), w) /\
                errors_Is e' CorruptInputError = true /\
                errors_Is e' ErrInvalidSecret = false).
Proof.
  intros Hd.
  destruct (ValidateSecret_decodes w) as [[Hv [key Hk]]|[Hv Hk]]; rewrite Hv.
  - split.
    + split; [|reflexivity]. intros _. eexists.
      now apply generateOTP_ok with (key := key).
    + intros e He. discriminate He.
  - rewrite (generateOTP_decode_error counter w _ _ Hd Hk). split.
    + split; [discriminate|]. intros [code H]. discriminate H.
    + intros e He. injection He as <-.
      split; [reflexivity|]. split; [reflexivity|].
      eexists. split; [reflexivity|]. split; reflexivity.
Qed.

(** X16.  generateOTP has no check for a missing secret: with a valid
    digit count, a secret that is empty or made of spaces only decodes to
    the empty key, ValidateSecret accepts it, and generateOTP returns the
    code of the empty key. *)
Theorem empty_secret_accepted (w : World) (counter : Z) :
  valid_digits (self w) ->
  Strings.forall_bytes (fun a => Ascii.eqb a " ") (Secret (self w)) = true ->
  ValidateSecret (Secret (self w)) = None /\
  generateOTP counter w = (Ret (derive (self w) [] counter, None), w).
Proof.
  intros Hd Hs. apply remove_space_all in Hs.
  split.
  - unfold ValidateSecret. rewrite Hs. reflexivity.
  - apply generateOTP_ok; [exact Hd|].
    unfold decodeSecret. run. rewrite Hs. reflexivity.
Qed.

(** ** The spelling of secrets and backup codes *)

Section Spelling.
Import Strings.

Lemma upper_lower_ascii a : upper_ascii (lower_ascii a) = upper_ascii a.
Proof. destruct a as [[] [] [] [] [] [] [] []]; reflexivity. Qed.

Lemma map_upper_lower s :
  map_string upper_ascii (map_string lower_ascii s) = map_string upper_ascii s.
Proof.
  induction s as [|a s IH]; [reflexivity|]. cbn [map_string].
  now rewrite upper_lower_ascii, IH.
Qed.

Lemma remove_byte_ascii c s :
  is_ascii s = true -> is_ascii (remove_byte c s) = true.
Proof.
  unfold is_ascii. induction s as [|a s IH]; [reflexivity|].
  cbn [forall_bytes remove_byte]. intros H.
  apply andb_true_iff in H. destruct H as [Ha Hs].
  destruct (Ascii.eqb a c); [now apply IH|].
  cbn [forall_bytes]. now rewrite Ha, IH.
Qed.

Lemma of_string_length s : List.length (Bytes.of_string s) = String.length s.
Proof. induction s as [|a s IH]; [reflexivity|]. cbn. now rewrite IH. Qed.

Lemma of_ascii_inj a b : Bytes.of_ascii a = Bytes.of_ascii b -> a = b.
Proof.
  unfold Bytes.of_ascii. intros H. apply N2Z.inj in H.
  rewrite <- (ascii_N_embedding a), <- (ascii_N_embedding b). now rewrite H.
Qed.

Lemma of_string_inj s :
  forall t, Bytes.of_string s = Bytes.of_string t -> s = t.
Proof.
  induction s as [|a s IH]; intros [|b t] H; try discriminate H;
    [reflexivity|].
  cbn [Bytes.of_string] in H. injection H as Ha Hs.
  now rewrite (of_ascii_inj a b Ha), (IH t Hs).
Qed.

(** The accumulator of the comparison ends at zero exactly when it
    started at zero and the bytes agree at every index visited. *)
Lemma ValidateBackupCode_loop_zero todo :
  forall provided stored i result,
    ValidateBackupCode_loop todo provided stored i result = 0 <->
    result = 0 /\
    forall k, (k < todo)%nat ->
              nth (i + k) provided 0 = nth (i + k) stored 0.
Proof.
  induction todo as [|todo IH]; intros p s i r;
    cbn [ValidateBackupCode_loop].
  - split; [intros ->; split; [reflexivity|intros k Hk; lia]|].
    intros [H _]. exact H.
  - rewrite IH, Z.lor_eq_0_iff, Z.lxor_eq_0_iff. split.
    + intros [[Hr He] Hk]. split; [exact Hr|]. intros k Hlt.
      destruct k as [|k].
      * rewrite Nat.add_0_r. exact He.
      * replace (i + S k)%nat with (S i + k)%nat by lia. apply Hk. lia.
    + intros [Hr Hk]. split; [split; [exact Hr|]|].
      * specialize (Hk O ltac:(lia)). now rewrite Nat.add_0_r in Hk.
      * intros k Hlt. replace (S i + k)%nat with (i + S k)%nat by lia.
        apply Hk. lia.
Qed.

Lemma ValidateBackupCode_iff providedCode storedCode :
  ValidateBackupCode providedCode storedCode = true <->
  remove_byte "-" (ToUpper (remove_byte " " providedCode))
  = remove_byte "-" (ToUpper (remove_byte " " storedCode)).
Proof.
  unfold ValidateBackupCode.
  set (p := remove_byte "-" (ToUpper (remove_byte " " providedCode))).
  set (s := remove_byte "-" (ToUpper (remove_byte " " storedCode))).
  destruct (Nat.eqb_spec (String.length p) (String.length s)) as [Hl|Hl];
    cbn [negb].
  - rewrite Z.eqb_eq, ValidateBackupCode_loop_zero. split.
    + intros [_ H]. apply of_string_inj.
      apply (nth_ext _ _ 0 0); [now rewrite !of_string_length|].
      intros n Hn. rewrite of_string_length in Hn. exact (H n Hn).
    + intros ->. split; reflexivity.
  - split; [discriminate|]. intros E. rewrite E in Hl. contradiction.
Qed.

End Spelling.

(** X17.  Secrets are read without regard to case and spaces: two
    receivers whose secrets are ASCII texts that are equal once the
    spaces are removed and the letters put in lower case, and which agree
    on the digit count and the algorithm, get the same answer from
    ValidateSecret and the same codes (or the same error) from
    generateOTP. *)
Theorem secret_spelling (w1 w2 : World) :
  Strings.is_ascii (Secret (self w1)) = true ->
  Strings.is_ascii (Secret (self w2)) = true ->
  Strings.ToLower (Strings.remove_byte " " (Secret (self w1)))
  = Strings.ToLower (Strings.remove_byte " " (Secret (self w2))) ->
  Digits (self w1) = Digits (self w2) ->
  Algorithm (self w1) = Algorithm (self w2) ->
  ValidateSecret (Secret (self w1)) = ValidateSecret (Secret (self w2)) /\
  forall counter,
    fst (generateOTP counter w1) = fst (generateOTP counter w2).
Proof.
  intros H1 H2 HS HD HA.
  pose proof (remove_byte_ascii " " _ H1) as R1.
  pose proof (remove_byte_ascii " " _ H2) as R2.
  rewrite !ToLower_ascii in HS by assumption.
  assert (Strings.ToUpper (Strings.remove_byte " " (Secret (self w1)))
          = Strings.ToUpper (Strings.remove_byte " " (Secret (self w2))))
    as HU.
  { rewrite !ToUpper_ascii by assumption.
    rewrite <- (map_upper_lower (Strings.remove_byte " " (Secret (self w1)))).
    rewrite HS. apply map_upper_lower. }
  split.
  - unfold ValidateSecret. now rewrite HU.
  - intros counter. apply generateOTP_reads; [exact HU|exact HD|].
    now rewrite HA.
Qed.

(** X18.  ValidateBackupCode compares the two codes in their normal form
    (spaces removed, upper case, dashes removed): it returns true exactly
    when the normal forms are equal, byte for byte; a stored code
    validates against itself, and the answer does not depend on which of
    the two codes is the stored one. *)
Theorem ValidateBackupCode_compares (providedCode storedCode : string) :
  let normal s :=
    Strings.remove_byte "-" (Strings.ToUpper (Strings.remove_byte " " s)) in
  (ValidateBackupCode providedCode storedCode = true <->
   normal providedCode = normal storedCode) /\
  ValidateBackupCode storedCode storedCode = true /\
  ValidateBackupCode providedCode storedCode
  = ValidateBackupCode storedCode providedCode.
Proof.
  cbv zeta. split; [apply ValidateBackupCode_iff|].
  split; [now apply ValidateBackupCode_iff|].
  pose proof (ValidateBackupCode_iff providedCode storedCode) as H1.
  pose proof (ValidateBackupCode_iff storedCode providedCode) as H2.
  destruct (ValidateBackupCode providedCode storedCode);
    destruct (ValidateBackupCode storedCode providedCode); try reflexivity.
  - symmetry. apply H2. symmetry. now apply H1.
  - apply H1. symmetry. now apply H2.
Qed.

(** ** The URL functions *)

Section URLs.
Import Strings.

Lemma OTPAuthURL_run w :
  Secret (self w) <> "" -> AccountName (self w) <> "" ->
  exists rest,
    OTPAuthURL w
    = (Ret (("otpauth://"
             ++ (if (0 <? Period (self w))%Z then "totp" else "hotp")
             ++ "/" ++ rest)%string, None), w).
Proof.
  intros HS HA. unfold OTPAuthURL. run.
  rewrite (eqb_empty_false _ HS), (eqb_empty_false _ HA).
  destruct (0 <? Period (self w));
    destruct (negb (String.eqb (Issuer (self w)) ""));
    eexists; reflexivity.
Qed.

Lemma QueryEscape_unreserved s :
  forall_bytes Url.unreserved s = true -> Url.QueryEscape s = s.
Proof.
  induction s as [|a s IH]; [reflexivity|]. cbn [forall_bytes Url.QueryEscape].
  intros H. apply andb_true_iff in H. destruct H as [Ha Hs].
  now rewrite Ha, IH.
Qed.

Lemma digit_unreserved a : is_digit a = true -> Url.unreserved a = true.
Proof.
  intros H. unfold Url.unreserved. rewrite H.
  now rewrite !orb_true_r.
Qed.

Lemma Itoa_unreserved n :
  forall_bytes Url.unreserved (Strconv.Itoa n) = true.
Proof.
  unfold Strconv.Itoa, Strconv.FormatUint.
  destruct (n <? 0); cbn [forall_bytes];
    rewrite ?andb_true_l;
    apply (forall_bytes_impl is_digit Url.unreserved _ digit_unreserved);
    now apply digits_aux_digits.
Qed.

End URLs.


(** Running one of the four QR functions past its two checks and its
    call of OTPAuthURL. *)
Ltac qr_run HS HA H :=
  unfold QRCodeURL, QRCodeURLGoQR, QRCodeURLWithCustomSize,
    QRCodeURLQuickChart;
  run; rewrite ?(eqb_empty_false _ HS), ?(eqb_empty_false _ HA);
  unfold bind; rewrite ?H; cbv beta iota.

Ltac qr_fail HS :=
  unfold QRCodeURL, QRCodeURLGoQR, QRCodeURLWithCustomSize,
    QRCodeURLQuickChart;
  run; rewrite ?HS; reflexivity.

(** X19.  The five URL functions check the receiver in the same order:
    an empty secret makes each of them return ErrMissingSecret, also when
    the account name is empty too; with a secret, an empty account name
    makes each return ErrMissingAccountName; otherwise none fails,
    OTPAuthURL returns a URL of type totp for a positive period and hotp
    otherwise, QRCodeURLGoQR returns what QRCodeURL returns, and so does
    QRCodeURLWithCustomSize for the size 200 and for every size that is
    not positive.  None of them writes to the receiver. *)
Theorem URL_functions_errors (w : World) (size : Z) :
  let all_return r :=
    OTPAuthURL w = (Ret r, w) /\ QRCodeURL w = (Ret r, w) /\
    QRCodeURLWithCustomSize size w = (Ret r, w) /\
    QRCodeURLQuickChart w = (Ret r, w) /\ QRCodeURLGoQR w = (Ret r, w) in
  (Secret (self w) = "" -> all_return ("", Some ErrMissingSecret)) /\
  (Secret (self w) <> "" -> AccountName (self w) = "" ->
   all_return ("", Some ErrMissingAccountName)) /\
  (Secret (self w) <> "" -> AccountName (self w) <> "" ->
   exists url rest qr qr' qr'',
     OTPAuthURL w = (Ret (url, None), w) /\
     url = ("otpauth://"
            ++ (if (0 <? Period (self w))%Z then "totp" else "hotp")
            ++ "/" ++ rest)%string /\
     QRCodeURL w = (Ret (qr, None), w) /\
     QRCodeURLGoQR w = (Ret (qr, None), w) /\
     QRCodeURLWithCustomSize 200 w = (Ret (qr, None), w) /\
     (size <= 0 -> QRCodeURLWithCustomSize size w = (Ret (qr, None), w)) /\
     QRCodeURLWithCustomSize size w = (Ret (qr', None), w) /\
     QRCodeURLQuickChart w = (Ret (qr'', None), w)).
Proof.
  cbv zeta. split; [|split].
  - intros HS.
    split; [unfold OTPAuthURL; run; rewrite HS; reflexivity|].
    repeat split; qr_fail HS.
  - intros HS HA.
    split; [unfold OTPAuthURL; run;
            rewrite (eqb_empty_false _ HS), HA; reflexivity|].
    repeat split;
      (unfold QRCodeURL, QRCodeURLGoQR, QRCodeURLWithCustomSize,
         QRCodeURLQuickChart;
       run; rewrite (eqb_empty_false _ HS), HA; reflexivity).
  - intros HS HA. destruct (OTPAuthURL_run w HS HA) as [rest H].
    do 5 eexists. split; [exact H|]. split; [reflexivity|].
    split; [qr_run HS HA H; reflexivity|].
    split; [qr_run HS HA H; reflexivity|].
    split; [qr_run HS HA H; reflexivity|].
    split.
    + intros Hsize. unfold QRCodeURLWithCustomSize.
      replace (size <=? 0) with true by (symmetry; apply Z.leb_le; lia).
      qr_run HS HA H. reflexivity.
    + split; qr_run HS HA H; reflexivity.
Qed.

(** X20.  The QR-code URLs carry the otpauth URL intact.  With a secret
    and an account name, the URL of QRCodeURLWithCustomSize is the
    address of the service followed by a query whose settings, decoded as
    a query is, are the size (the decimal size, 200 in place of a size
    that is not positive, twice around an x) and, under data, the very
    URL that OTPAuthURL returns; the URL of QRCodeURLQuickChart carries it
    under text, followed by the size 200. *)
Theorem QRCodeURL_data (w : World) (size : Z) :
  Secret (self w) <> "" -> AccountName (self w) <> "" ->
  exists url q q',
    OTPAuthURL w = (Ret (url, None), w) /\
    QRCodeURLWithCustomSize size w
    = (Ret (("https://api.qrserver.com/v1/create-qr-code/?" ++ q)%string,
            None), w) /\
    QRCodeURLQuickChart w
    = (Ret (("https://quickchart.io/qr?" ++ q')%string, None), w) /\
    let s := Strconv.Itoa (if size <=? 0 then 200 else size) in
    Url.ParseQuery q = [("size", (s ++ "x" ++ s)%string); ("data", url)] /\
    Url.Get "data" (Url.ParseQuery q) = url /\
    Url.ParseQuery q' = [("text", url); ("size", "200")] /\
    Url.Get "text" (Url.ParseQuery q') = url.
Proof.
  intros HS HA. destruct (OTPAuthURL_run w HS HA) as [rest H].
  set (url := ("otpauth://"
               ++ (if (0 <? Period (self w))%Z then "totp" else "hotp")
               ++ "/" ++ rest)%string) in *.
  set (s := Strconv.Itoa (if size <=? 0 then 200 else size)).
  exists url, (Url.Encode [("size", (s ++ "x" ++ s)%string); ("data", url)]),
    (Url.Encode [("text", url); ("size", "200")]).
  assert (Url.QueryEscape (s ++ "x" ++ s) = (s ++ "x" ++ s)%string) as Hs.
  { apply QueryEscape_unreserved. rewrite !forall_bytes_app.
    unfold s. rewrite !Itoa_unreserved. reflexivity. }
  split; [exact H|]. split; [|split].
  - unfold QRCodeURLWithCustomSize. fold s.
    qr_run HS HA H. do 3 f_equal.
    unfold Url.Encode. cbn [map Strings.join fst snd]. rewrite Hs.
    change (Url.QueryEscape "size") with "size".
    change (Url.QueryEscape "data") with "data".
    cbn [String.append]. rewrite ?string_app_assoc. cbn [String.append].
    reflexivity.
  - qr_run HS HA H. reflexivity.
  - cbv zeta. rewrite !ParseQuery_Encode. repeat split.
Qed.

(** ** What ParseOTPAuthURL returns *)

Section Parsed.
Import Strings Strconv.

Lemma Atoi_range s n :
  Atoi s = Some n -> GoInt.min_int64 <= n <= GoInt.max_int64.
Proof.
  unfold Atoi.
  destruct (match s with
            | EmptyString => (false, s)
            | String a s' =>
                if Ascii.eqb a "-" then (true, s')
                else if Ascii.eqb a "+" then (false, s') else (false, s)
            end) as [neg body].
  destruct body as [|b body]; [discriminate|].
  destruct (parse_digits (String b body) 0) as [m|]; [|discriminate].
  destruct (andb _ _) eqn:E; [|discriminate].
  intros H. injection H as <-.
  apply andb_true_iff in E. rewrite !Z.leb_le in E. exact E.
Qed.

Lemma digit_val_nonneg a : is_digit a = true -> 0 <= digit_val a.
Proof.
  unfold is_digit, digit_val. intros H. apply andb_true_iff in H.
  destruct H as [H _]. apply N.leb_le in H. lia.
Qed.

Lemma parse_digits_nonneg s :
  forall acc n, 0 <= acc -> parse_digits s acc = Some n -> 0 <= n.
Proof.
  induction s as [|a s IH]; intros acc n Hacc; cbn [parse_digits].
  - intros H. injection H as <-. exact Hacc.
  - destruct (is_digit a) eqn:Ha; [|discriminate].
    apply IH. pose proof (digit_val_nonneg a Ha). lia.
Qed.

Lemma ParseUint_range s n : ParseUint s = Some n -> GoInt.is_uint64 n.
Proof.
  unfold ParseUint. destruct s as [|a s]; [discriminate|].
  destruct (parse_digits (String a s) 0) as [m|] eqn:E; [|discriminate].
  destruct (Z.ltb_spec m (2 ^ 64)) as [Hlt|Hge]; [|discriminate].
  intros H. injection H as <-. split; [|exact Hlt].
  apply (parse_digits_nonneg _ 0 m ltac:(lia) E).
Qed.

Lemma parsed_label s X label :
  parsed s X ->
  parsed s match SplitN2_colon label with
           | [p0; p1] => with_AccountName (with_Issuer X p0) p1
           | p0 :: _ => with_AccountName X p0
           | [] => X
           end.
Proof.
  intros H. destruct (SplitN2_colon label) as [|p0 [|p1 [|p2 l]]]; exact H.
Qed.

Lemma parsed_secret s X s' : parsed s X -> parsed s' (with_Secret X s').
Proof. intros (_ & H). split; [reflexivity|exact H]. Qed.

Lemma parsed_digits s X d :
  parsed s X ->
  parsed s (if negb (String.eqb d "") then
              match Atoi d with
              | Some d' =>
                  if (0 <? d') && (d' <=? 10) then with_Digits X d' else X
              | None => X
              end
            else X).
Proof.
  intros H. destruct (negb _); [|exact H].
  destruct (Atoi d) as [d'|]; [|exact H].
  destruct (andb _ _) eqn:E; [|exact H].
  apply andb_true_iff in E. rewrite Z.ltb_lt, Z.leb_le in E.
  destruct H as (H1 & _ & H3). split; [exact H1|].
  split; [cbn; lia|exact H3].
Qed.

Lemma parsed_algorithm s X a :
  parsed s X ->
  parsed s (if negb (String.eqb a "") then
              if String.eqb (ToUpper a) "SHA1"
              then with_Algorithm X AlgorithmSHA1
              else if String.eqb (ToUpper a) "SHA256"
              then with_Algorithm X AlgorithmSHA256
              else if String.eqb (ToUpper a) "SHA512"
              then with_Algorithm X AlgorithmSHA512
              else X
            else X).
Proof.
  intros H. pose proof H as (H1 & H2 & H3 & H4).
  destruct (negb _); [|exact H].
  destruct (String.eqb (ToUpper a) "SHA1");
    [|destruct (String.eqb (ToUpper a) "SHA256");
      [|destruct (String.eqb (ToUpper a) "SHA512"); [|exact H]]];
    (split; [exact H1|]); (split; [exact H2|]);
    (split; [cbn; auto|exact H4]).
Qed.

Lemma parsed_period s X p :
  parsed s X ->
  parsed s (if 0 <? Period X then
              if negb (String.eqb p "") then
                match Atoi p with
                | Some p' => if 0 <? p' then with_Period X p' else X
                | None => X
                end
              else X
            else X).
Proof.
  intros H. destruct (Z.ltb_spec 0 (Period X)) as [HP|HP]; [|exact H].
  destruct (negb _); [|exact H].
  destruct (Atoi p) as [p'|] eqn:E; [|exact H].
  destruct (Z.ltb_spec 0 p') as [Hp|Hp]; [|exact H].
  apply Atoi_range in E.
  destruct H as (H1 & H2 & H3 & H4 & H5 & H6).
  split; [exact H1|]. split; [exact H2|]. split; [exact H3|].
  split; [cbn; lia|]. split; [exact H5|]. intros _. apply H6. exact HP.
Qed.

Lemma parsed_counter s X c :
  parsed s X ->
  parsed s (if Period X =? 0 then
              if negb (String.eqb c "") then
                match ParseUint c with
                | Some n => with_Counter X n
                | None => X
                end
              else X
            else X).
Proof.
  intros H. destruct (Z.eqb_spec (Period X) 0) as [HP|HP]; [|exact H].
  destruct (negb _); [|exact H].
  destruct (ParseUint c) as [n|] eqn:E; [|exact H].
  apply ParseUint_range in E.
  destruct H as (H1 & H2 & H3 & H4 & H5 & H6).
  split; [exact H1|]. split; [exact H2|]. split; [exact H3|].
  split; [exact H4|]. split; [exact E|]. cbn. lia.
Qed.

Lemma parsed_issuer s X i :
  parsed s X ->
  parsed s (if negb (String.eqb i "") then with_Issuer X i else X).
Proof. intros H. destruct (negb _); exact H. Qed.

Lemma parsed_default p :
  p = 30 \/ p = 0 -> parsed "" (with_Period DefaultConfig p).
Proof.
  intros Hp. unfold parsed. cbn. unfold GoInt.is_uint64, GoInt.max_int64.
  pow2. repeat split; try lia; left; reflexivity.
Qed.

End Parsed.

(** X21.  ParseOTPAuthURL returns either a configuration and no error or
    no configuration and an error.  Every configuration it returns has a
    secret that is not empty, a digit count within [1,10] (so that
    generateOTP never rejects it for its digits), one of the three
    algorithms, a period that is zero or positive and a counter within 64
    bits, zero when the period is positive: what the URL gives outside
    these bounds is left out and the default kept. *)
Theorem ParseOTPAuthURL_parsed (otpauthURL : string) :
  (exists c,
     ParseOTPAuthURL otpauthURL = (Some c, None) /\
     Secret c <> "" /\ parsed (Secret c) c /\
     forall counter w,
       self w = c ->
       fst (generateOTP counter w) <> Ret ("", Some ErrInvalidDigits)) \/
  (exists e, ParseOTPAuthURL otpauthURL = (None, Some e)).
Proof.
  assert (forall s c, s <> "" -> parsed s c ->
            Secret c <> "" /\ parsed (Secret c) c /\
            forall counter w,
              self w = c ->
              fst (generateOTP counter w) <> Ret ("", Some ErrInvalidDigits))
    as Hfin.
  { intros s c Hs Hc. pose proof Hc as (H1 & H2 & _).
    split; [now rewrite H1|]. split; [now rewrite H1|].
    intros counter w Hw Hgen. subst c.
    assert (valid_digits (self w)) as Hd by exact H2.
    destruct (decodeSecret_cases w) as [[key Hk]|He].
    - rewrite (generateOTP_ok counter w key Hd Hk) in Hgen. discriminate Hgen.
    - rewrite (generateOTP_decode_error counter w _ _ Hd He) in Hgen.
      discriminate Hgen. }
  unfold ParseOTPAuthURL.
  destruct (Url.Parse otpauthURL) as [u|]; [|right; eexists; reflexivity].
  destruct (negb _); [right; eexists; reflexivity|].
  cbv zeta.
  destruct (String.eqb (Url.Host u) "totp");
    [|destruct (String.eqb (Url.Host u) "hotp");
      [|right; eexists; reflexivity]];
    (destruct (String.eqb (Strings.TrimPrefix_slash (Url.Path u)) "");
     [right; eexists; reflexivity|]);
    (destruct (String.eqb_spec
                 (Url.Get "secret" (Url.ParseQuery (Url.RawQuery u))) "")
       as [Hsec|Hsec];
     [right; eexists; reflexivity|]);
    left; eexists; (split; [reflexivity|]);
    apply (Hfin _ _ Hsec);
    apply parsed_issuer, parsed_counter, parsed_period, parsed_algorithm,
      parsed_digits, (parsed_secret ""), parsed_label, parsed_default;
    auto.
Qed.

End Package.

(* ===================================================================== *)
(** * Witnesses and counterexamples

    The texts below (secrets, names, URLs) are ASCII, on which the
    mappings of non-ASCII texts are never called ([ToUpper_ascii],
    [ToLower_ascii]); the instance that stands for them here is the
    identity. *)

#[export] Instance ascii_only : Unicode :=
  {| Map_ToUpper := fun s => s; Map_ToLower := fun s => s |}.

(** The RFC 4226 key with stored counter 0: the code of counter 3 is
    accepted with window size 5, at counter 3, and rejected with 2. *)
Lemma ValidateHOTP_window_witness :
  ValidateHOTP 10 "969429" 5 (rfc_hotp 0)
  = (Ret (true, Counter (self (rfc_hotp 0)) + 3, None), rfc_hotp 0) /\
  ValidateHOTP 10 "969429" 2 (rfc_hotp 0) = (Ret (false, 0, None), rfc_hotp 0).
Proof.
  refine (proj2 (ValidateHOTP_window (rfc_hotp 0) rfc_key "969429" 10
                   _ _ _) _ _ _ _).
  - unfold valid_digits; simpl; lia.
  - vm_compute; reflexivity.
  - simpl; lia.
  - simpl; pow2; lia.
  - lia.
  - vm_compute; reflexivity.
  - intros j Hj. simpl in Hj.
    assert (j = 0 \/ j = 1 \/ j = 2) as [->|[->| ->]] by lia;
      vm_compute; discriminate.
Defined.

(** C1 as stated fails where the unsigned counter wraps around: with the
    stored counter C = 2^64 - 1 and window size 1 the second counter
    scanned is 0, and the code of counter 0 is accepted with matched
    counter 0, which is below C and outside C .. C+1. *)
Lemma ValidateHOTP_wraps_below_counter :
  let w := rfc_hotp (2 ^ 64 - 1) in
  valid_digits (self w) /\
  decodeSecret w = (Ret (rfc_key, None), w) /\
  ValidateHOTP 3 "755224" 1 w = (Ret (true, 0, None), w) /\
  ~ (Counter (self w) <= 0 <= Counter (self w) + 1).
Proof.
  cbv zeta. split; [unfold valid_digits; simpl; lia|].
  split; [vm_compute; reflexivity|].
  split; [vm_compute; reflexivity|].
  simpl. pow2. lia.
Qed.

(** At second 59 the step is 1: the code of step 0 fails with window 0 and
    passes with window 1. *)
Lemma ValidateTOTPAt_window_witness :
  exists b : bool,
    ValidateTOTPAt 10 "755224" (time_Unix 59) 1 rfc_totp
    = (Ret (b, None), rfc_totp) /\
    (b = true <->
     exists s, Unix (time_Unix 59) / Period (self rfc_totp) - 1 <= s
               <= Unix (time_Unix 59) / Period (self rfc_totp) + 1 /\
               derives rfc_totp (GoInt.uint64 s) "755224").
Proof.
  apply (ValidateTOTPAt_window rfc_totp rfc_key "755224" (time_Unix 59) 1 10).
  - unfold valid_digits; simpl; lia.
  - vm_compute; reflexivity.
  - vm_compute; split; congruence.
  - vm_compute; split; congruence.
  - vm_compute; split; congruence.
  - simpl; lia.
Defined.

(** C2 as stated fails before the Unix epoch.  For the zero [time.Time]
    (unix seconds -62135596800) and period 30, floor(unix / period) is
    -2071186560, but the code divides the unsigned reading of the seconds
    and scans step 614891467052465160: the code of that step is accepted
    with window 0, while the code of step -2071186560, taken modulo 2^64,
    is another one. *)
Lemma ValidateTOTPAt_before_epoch :
  let w := rfc_totp in
  valid_digits (self w) /\
  decodeSecret w = (Ret (rfc_key, None), w) /\
  0 < Period (self w) /\
  ValidateTOTPAt 3 "647735" zero_Time 0 w = (Ret (true, None), w) /\
  ~ (exists s, Unix zero_Time / Period (self w) - 0 <= s
               <= Unix zero_Time / Period (self w) + 0 /\
               derives w (GoInt.uint64 s) "647735").
Proof.
  cbv zeta. split; [unfold valid_digits; simpl; lia|].
  split; [vm_compute; reflexivity|].
  split; [simpl; lia|].
  split; [vm_compute; reflexivity|].
  intros (s & Hs & Hder).
  change (Unix zero_Time / Period (self rfc_totp)) with (-2071186560) in Hs.
  assert (s = -2071186560) as -> by lia.
  vm_compute in Hder. discriminate.
Qed.

Lemma negative_window_defaults_witness :
  ValidateHOTP 20 "520489" (-1) (rfc_hotp 0)
  = ValidateHOTP 20 "520489" 10 (rfc_hotp 0) /\
  forall t, ValidateTOTPAt 20 "520489" t (-1) (rfc_hotp 0)
            = ValidateTOTPAt 20 "520489" t 1 (rfc_hotp 0).
Proof.
  apply (negative_window_defaults (rfc_hotp 0) "520489" (-1) 20). lia.
Defined.

(** C9 as stated fails for TOTP generation on a receiver whose period is
    not positive, such as one made by NewHOTP: GenerateTOTPAt stores the
    default period 30 in the receiver. *)
Lemma GenerateTOTPAt_writes_Period :
  Period (self (rfc_hotp 0)) = 0 /\
  Period (self (snd (GenerateTOTPAt (time_Unix 59) (rfc_hotp 0)))) = 30.
Proof. split; [reflexivity|]. vm_compute. reflexivity. Qed.

(** A receiver made by NewHOTP has Period = 0: validating a TOTP code on
    it panics, generating one succeeds with the default period. *)
Lemma ValidateTOTPAt_needs_positive_period_witness :
  ValidateTOTPAt 5 "755224" (time_Unix 59) 1 (rfc_hotp 0)
  = (Panicked DivideByZero, rfc_hotp 0) /\
  fst (GenerateTOTPAt (time_Unix 59) (rfc_hotp 0)) = Ret ("287082", None).
Proof.
  destruct (ValidateTOTPAt_needs_positive_period (rfc_hotp 0)) as [H0 _].
  - vm_compute; split; congruence.
  - destruct (H0 eq_refl) as [Hv Hg]. split.
    + apply Hv.
    + rewrite Hg. vm_compute. reflexivity.
Defined.

(** Eleven digits, and zero digits with a secret that does not decode. *)
Lemma invalid_digits_rejected_witness :
  generateOTP 0 {| self := NewHOTP rfc_secret "" "alice" 11 0;
                   clock := fun _ => 0 |}
  = (Ret ("", Some ErrInvalidDigits),
     {| self := NewHOTP rfc_secret "" "alice" 11 0; clock := fun _ => 0 |}) /\
  GenerateHOTP {| self := NewHOTP "not base32!" "" "alice" 0 0;
                  clock := fun _ => 0 |}
  = (Ret ("", Some ErrInvalidDigits),
     {| self := NewHOTP "not base32!" "" "alice" 0 0; clock := fun _ => 0 |}).
Proof.
  split.
  - refine (proj1 (invalid_digits_rejected
                     {| self := NewHOTP rfc_secret "" "alice" 11 0;
                        clock := fun _ => 0 |} _) 0).
    right. simpl. lia.
  - refine (proj1 (proj2 (invalid_digits_rejected
                            {| self := NewHOTP "not base32!" "" "alice" 0 0;
                               clock := fun _ => 0 |} _))).
    left. simpl. lia.
Defined.

(** C5 as stated fails for TOTP validation on a receiver whose period is
    zero, such as one made by NewHOTP: with eleven digits ValidateTOTPAt
    and ValidateTOTP do not fail with ErrInvalidDigits, they panic on the
    division by the period, which comes before the first call of
    generateOTP. *)
Lemma ValidateTOTPAt_invalid_digits_zero_period :
  let w := {| self := NewHOTP rfc_secret "" "alice" 11 0;
              clock := fun _ => time_Unix 59 |} in
  (Digits (self w) < 1 \/ 10 < Digits (self w)) /\
  Period (self w) = 0 /\
  ValidateTOTPAt 3 "123456" (time_Unix 59) 1 w = (Panicked DivideByZero, w) /\
  fst (ValidateTOTP 3 "123456" 1 w) = Panicked DivideByZero.
Proof.
  cbv zeta. split; [right; simpl; lia|].
  split; [reflexivity|]. split; vm_compute; reflexivity.
Qed.

(** The RFC key: counter 1 on six digits, whatever the other fields. *)
Lemma generateOTP_deterministic_witness :
  exists code v,
    generateOTP 1 (rfc_hotp 0) = (Ret (code, None), rfc_hotp 0) /\
    generateOTP 1 rfc_totp = (Ret (code, None), rfc_totp) /\
    String.length code = Z.to_nat (Digits (self (rfc_hotp 0))) /\
    Strings.forall_bytes Strings.is_digit code = true /\
    0 <= v < 10 ^ Digits (self (rfc_hotp 0)) /\
    code = Strings.pad_left "0"
             (Z.to_nat (Digits (self (rfc_hotp 0)))
              - String.length (Strconv.FormatUint v))
             (Strconv.FormatUint v).
Proof.
  refine (generateOTP_deterministic (rfc_hotp 0) rfc_totp rfc_key 1
            _ _ _ _ _).
  - unfold valid_digits; simpl; lia.
  - vm_compute; reflexivity.
  - reflexivity.
  - reflexivity.
  - reflexivity.
Defined.

Lemma GenerateTOTPBatch_entries_witness :
  exists entries,
    fst (GenerateTOTPBatch 3 rfc_totp) = Ret (entries, None) /\
    Z.of_nat (List.length entries) = 3 /\
    let e i := nth (Z.to_nat i) entries zero_TOTPEntry in
    let step i :=
      Unix (clock rfc_totp O) / Period (self rfc_totp) + (i - 3 / 2) in
    (forall i, 0 <= i < 3 ->
               derives rfc_totp (step i) (Code (e i)) /\
               ValidFrom (e i)
               = time_Unix (step i * Period (self rfc_totp)) /\
               ValidTo (e i)
               = time_Unix ((step i + 1) * Period (self rfc_totp)) /\
               (IsCurrent (e i) = true <-> i - 3 / 2 = 0)) /\
    (0 - 3 / 2 = - (3 / 2) /\ 0 <= (3 - 1) - 3 / 2 <= 3 / 2 /\
     ((3 - 1) - 3 / 2 = 3 / 2 <-> 3 mod 2 = 1)) /\
    (0 <= 3 / 2 < 3 /\
     forall i, 0 <= i < 3 -> (IsCurrent (e i) = true <-> i = 3 / 2)) /\
    (forall i, 0 <= i < 3 - 1 -> ValidTo (e i) = ValidFrom (e (i + 1))) /\
    (forall i j, 0 <= i < j -> j < 3 -> ValidTo (e i) <= ValidFrom (e j)) /\
    (forall i, 0 <= i < 3 ->
               ValidTo (e i) - ValidFrom (e i)
               = Period (self rfc_totp) * time_Second).
Proof.
  refine (GenerateTOTPBatch_entries rfc_totp rfc_key 3 _ _ _ _ _ _ _).
  - unfold valid_digits; simpl; lia.
  - vm_compute; reflexivity.
  - lia.
  - simpl; lia.
  - vm_compute; congruence.
  - vm_compute; congruence.
  - intros n _. split; [vm_compute; congruence|reflexivity].
Defined.

(** C8 as stated fails for an even N: the batch of two holds the offsets
    -1 and 0, the last entry being the current one; the offset 2/2 = 1
    (step 2, valid from second 60) is not in it. *)
Lemma GenerateTOTPBatch_even_count :
  fst (GenerateTOTPBatch 2 rfc_totp) = Ret (rfc_batch2, None) /\
  Unix (clock rfc_totp O) / Period (self rfc_totp) = 1 /\
  List.length rfc_batch2 = 2%nat /\
  IsCurrent (nth 1 rfc_batch2 zero_TOTPEntry) = true /\
  ~ (exists e, In e rfc_batch2 /\
               ValidFrom e
               = time_Unix ((1 + 2 / 2) * Period (self rfc_totp))).
Proof.
  split; [vm_compute; reflexivity|].
  split; [reflexivity|]. split; [reflexivity|]. split; [reflexivity|].
  intros (e & [<-|[<-|[]]] & H); vm_compute in H; discriminate.
Qed.

Lemma OTPAuthURL_roundtrip_witness :
  exists url c',
    OTPAuthURL example_totp = (Ret (url, None), example_totp) /\
    ParseOTPAuthURL url = (Some c', None) /\
    roundtrip_ok (self example_totp) c'.
Proof.
  refine (OTPAuthURL_roundtrip example_totp _ _ _ _ _ _ _ _ _).
  - discriminate.
  - discriminate.
  - simpl; lia.
  - left; reflexivity.
  - vm_compute; congruence.
  - simpl; pow2; lia.
  - reflexivity.
  - reflexivity.
  - discriminate.
Defined.

(** C7 as stated fails for an account name with a colon and no issuer:
    the label team:alice is read back as the issuer team and the account
    name alice. *)
Lemma OTPAuthURL_label_colon :
  let w := {| self := NewTOTP rfc_secret "" "team:alice" 6 30;
              clock := fun _ => 0 |} in
  Secret (self w) <> "" /\ AccountName (self w) <> "" /\
  exists url c',
    OTPAuthURL w = (Ret (url, None), w) /\
    ParseOTPAuthURL url = (Some c', None) /\
    Issuer c' = "team" /\ Issuer (self w) = "" /\
    AccountName c' = "alice" /\ AccountName (self w) = "team:alice".
Proof.
  cbv zeta. split; [discriminate|]. split; [discriminate|].
  eexists. eexists. split; [vm_compute; reflexivity|].
  split; [vm_compute; reflexivity|]. repeat split.
Qed.

Lemma GenerateHOTP_then_ValidateHOTP_witness :
  ValidateHOTP 1 "969429" (-1) (rfc_hotp 3)
  = (Ret (true, Counter (self (rfc_hotp 3)), None), rfc_hotp 3).
Proof.
  apply (GenerateHOTP_then_ValidateHOTP (rfc_hotp 3) "969429" (-1) 0).
  - unfold GoInt.is_uint64. simpl. pow2. lia.
  - vm_compute. reflexivity.
Defined.


(** The stored counter 2^64 - 1 and window size 1: the code of counter 0,
    which is (C + 1) mod 2^64, is accepted. *)
Lemma ValidateHOTP_modular_witness :
  exists i, 0 <= i <= 1 /\
    ValidateHOTP 3 "755224" 1 (rfc_hotp (2 ^ 64 - 1))
    = (Ret (true, GoInt.uint64 (2 ^ 64 - 1 + i), None),
       rfc_hotp (2 ^ 64 - 1)).
Proof.
  refine (proj1 (ValidateHOTP_modular (rfc_hotp (2 ^ 64 - 1)) rfc_key
                   "755224" 1 3 _ _ _ _) 1 _ _).
  - unfold valid_digits; simpl; lia.
  - vm_compute; reflexivity.
  - unfold GoInt.max_int64; pow2; lia.
  - simpl; lia.
  - lia.
  - vm_compute; reflexivity.
Defined.

(** The RFC key with no period stored: GenerateTOTPAt stores 30 and
    returns the code of step 59 / 30 = 1, which is then accepted with
    window size 0. *)
Lemma GenerateTOTPAt_then_ValidateTOTPAt_witness :
  let w' := snd (GenerateTOTPAt (time_Unix 59) (rfc_hotp 0)) in
  ValidateTOTPAt 4 "287082" (time_Unix 59) 0 w' = (Ret (true, None), w').
Proof.
  apply (GenerateTOTPAt_then_ValidateTOTPAt (rfc_hotp 0) (time_Unix 59)
           "287082" 0 4).
  - vm_compute. reflexivity.
  - unfold GoInt.max_int64. pow2. lia.
  - simpl. lia.
Defined.


(** The RFC key with period 30: second 59 is in step 1, as is the
    instant half a second after second 30. *)
Lemma GenerateTOTPAt_is_HOTP_at_step_witness :
  let k := Unix (time_Unix 59) / Period (self rfc_totp) in
  GenerateTOTPAt (time_Unix 59) rfc_totp = GenerateHOTPAt k rfc_totp /\
  forall t' : Time,
    Unix t' <= GoInt.max_int64 ->
    time_Unix (k * Period (self rfc_totp)) <= t'
      < time_Unix ((k + 1) * Period (self rfc_totp)) ->
    GenerateTOTPAt t' rfc_totp = GenerateTOTPAt (time_Unix 59) rfc_totp.
Proof.
  apply (GenerateTOTPAt_is_HOTP_at_step rfc_totp (time_Unix 59)).
  - simpl. unfold GoInt.max_int64. pow2. lia.
  - rewrite Unix_time_Unix. unfold GoInt.max_int64. pow2. lia.
Defined.

(** The code generated at second 59 (step 1) is accepted with window
    size 1 when the clock reads second 61 (step 2) at validation. *)
Lemma GenerateTOTP_then_ValidateTOTP_witness :
  let w := {| self := self rfc_totp;
              clock := fun n => match n with
                                | O => time_Unix 59
                                | S _ => time_Unix 61
                                end |} in
  fst (ValidateTOTP 4 "287082" 1 (snd (GenerateTOTP w))) = Ret (true, None).
Proof.
  intros w.
  apply (GenerateTOTP_then_ValidateTOTP w "287082" 1 4).
  - simpl. unfold GoInt.max_int64. pow2. lia.
  - unfold w. cbn [clock]. rewrite Unix_time_Unix.
    unfold GoInt.max_int64. pow2. lia.
  - unfold w. cbn [clock]. rewrite Unix_time_Unix.
    unfold GoInt.max_int64. pow2. lia.
  - vm_compute. reflexivity.
  - unfold GoInt.max_int64. pow2. lia.
  - simpl. lia.
  - vm_compute. congruence.
Defined.

(** The RFC key with period 30 at second 59: one second is left. *)
Lemma GetRemainingTime_range_witness :
  exists r,
    GetRemainingTime rfc_totp = (Ret r, tick (defaulted rfc_totp)) /\
    Period (self (defaulted rfc_totp)) = 30 /\
    (0 <= Unix (clock rfc_totp O) ->
     1 <= r <= 30 /\ (Unix (clock rfc_totp O) + r) mod 30 = 0) /\
    (Unix (clock rfc_totp O) < 0 -> 2 * 30 - 1 <= GoInt.max_int64 ->
     30 <= r <= 2 * 30 - 1).
Proof.
  apply (GetRemainingTime_range rfc_totp).
  simpl. unfold GoInt.max_int64. pow2. lia.
Defined.

(** The RFC key with period 30 at second 59: the window is that of the
    seconds 30 to 60. *)
Lemma GetCurrentTOTPWindow_bounds_witness :
  exists start end_ : Time,
    GetCurrentTOTPWindow rfc_totp
    = (Ret (start, end_), tick (defaulted rfc_totp)) /\
    start <= clock rfc_totp O < end_ /\
    end_ - start = 30 * time_Second /\
    Unix start mod 30 = 0 /\
    forall t : Time,
      start <= t < end_ ->
      GenerateTOTPAt t (tick (defaulted rfc_totp))
      = GenerateTOTPAt (clock rfc_totp O) (tick (defaulted rfc_totp)).
Proof.
  apply (GetCurrentTOTPWindow_bounds rfc_totp).
  - change (clock rfc_totp O) with (time_Unix 59). rewrite Unix_time_Unix. lia.
  - change (clock rfc_totp O) with (time_Unix 59). rewrite Unix_time_Unix.
    simpl. unfold GoInt.max_int64. pow2. lia.
Defined.

Lemma GetNextTOTPTime_agrees_witness :
  exists (next start : Time) (r : Z),
    GetNextTOTPTime rfc_totp = (Ret next, tick (defaulted rfc_totp)) /\
    fst (GetCurrentTOTPWindow rfc_totp) = Ret (start, next) /\
    fst (GetRemainingTime rfc_totp) = Ret r /\
    next = time_Unix (Unix (clock rfc_totp O) + r) /\
    clock rfc_totp O < next.
Proof.
  apply (GetNextTOTPTime_agrees rfc_totp).
  - change (clock rfc_totp O) with (time_Unix 59). rewrite Unix_time_Unix. lia.
  - change (clock rfc_totp O) with (time_Unix 59). rewrite Unix_time_Unix.
    simpl. unfold GoInt.max_int64. pow2. lia.
Defined.

Lemma GenerateTOTPBatch_IsValid_witness :
  exists entries,
    fst (GenerateTOTPBatch 3 rfc_totp) = Ret (entries, None) /\
    (forall e, In e entries -> IsCurrent e = true ->
               IsValid e (clock rfc_totp O) = true) /\
    (forall i j t,
        (i < List.length entries)%nat -> (j < List.length entries)%nat ->
        IsValid (nth i entries zero_TOTPEntry) t = true ->
        IsValid (nth j entries zero_TOTPEntry) t = true -> i = j) /\
    (forall e t, In e entries -> IsValid e t = true ->
                 fst (GenerateTOTPAt t rfc_totp) = Ret (Code e, None)).
Proof.
  refine (GenerateTOTPBatch_IsValid rfc_totp rfc_key 3 _ _ _ _ _ _ _).
  - unfold valid_digits; simpl; lia.
  - vm_compute; reflexivity.
  - lia.
  - simpl; lia.
  - vm_compute; congruence.
  - vm_compute; congruence.
  - intros n _. split; [vm_compute; congruence|reflexivity].
Defined.

(** The algorithm value 7 is SHA1 under another number. *)
Lemma algorithm_by_name_witness :
  let w2 := {| self := with_Algorithm (self (rfc_hotp 0)) 7;
               clock := fun _ => 0 |} in
  (forall counter,
      fst (generateOTP counter (rfc_hotp 0)) = fst (generateOTP counter w2)) /\
  (Algorithm (self (rfc_hotp 0)) <> AlgorithmSHA256 ->
   Algorithm (self (rfc_hotp 0)) <> AlgorithmSHA512 ->
   Algorithm_String (Algorithm (self (rfc_hotp 0))) = "SHA1" /\
   fst (getHash (rfc_hotp 0)) = Ret sha1_New) /\
  (Algorithm_String (Algorithm (self (rfc_hotp 0))) = "SHA1" \/
   Algorithm_String (Algorithm (self (rfc_hotp 0))) = "SHA256" \/
   Algorithm_String (Algorithm (self (rfc_hotp 0))) = "SHA512").
Proof.
  cbv zeta.
  apply (algorithm_by_name (rfc_hotp 0)
           {| self := with_Algorithm (self (rfc_hotp 0)) 7;
              clock := fun _ => 0 |}); reflexivity.
Defined.

(** The RFC key at counter 0 on six digits: the truncated value is
    1284755224 and the code spells 755224. *)
Lemma generateOTP_code_value_witness :
  exists code,
    generateOTP 0 (rfc_hotp 0) = (Ret (code, None), rfc_hotp 0) /\
    Strconv.ParseUint code = Some (otp_value (self (rfc_hotp 0)) rfc_key 0) /\
    0 <= truncatedHash (self (rfc_hotp 0)) rfc_key 0 < 2 ^ 31 /\
    (Digits (self (rfc_hotp 0)) <= 9 ->
     Strconv.ParseUint code
     = Some (truncatedHash (self (rfc_hotp 0)) rfc_key 0
             mod 10 ^ Digits (self (rfc_hotp 0)))).
Proof.
  refine (generateOTP_code_value (rfc_hotp 0) rfc_key 0 _ _).
  - unfold valid_digits; simpl; lia.
  - vm_compute; reflexivity.
Defined.

Lemma ValidateSecret_iff_generateOTP_witness :
  (ValidateSecret (Secret (self (rfc_hotp 0))) = None <->
   exists code, generateOTP 0 (rfc_hotp 0) = (Ret (code, None), rfc_hotp 0)) /\
  (forall e, ValidateSecret (Secret (self (rfc_hotp 0))) = Some e ->
     errors_Is e CorruptInputError = true /\
     errors_Is e ErrInvalidSecret = false /\
     exists e', generateOTP 0 (rfc_hotp 0) = (Ret ("", Some e'), rfc_hotp 0) /\
                errors_Is e' CorruptInputError = true /\
                errors_Is e' ErrInvalidSecret = false).
Proof.
  refine (ValidateSecret_iff_generateOTP (rfc_hotp 0) 0 _).
  unfold valid_digits; simpl; lia.
Defined.

(** DefaultConfig, which has no secret, yields the code 328482 at
    counter 0. *)
Lemma empty_secret_accepted_witness :
  ValidateSecret (Secret DefaultConfig) = None /\
  generateOTP 0 {| self := DefaultConfig; clock := fun _ => 0 |}
  = (Ret (derive DefaultConfig [] 0, None),
     {| self := DefaultConfig; clock := fun _ => 0 |}).
Proof.
  apply (empty_secret_accepted
           {| self := DefaultConfig; clock := fun _ => 0 |} 0).
  - unfold valid_digits; simpl; lia.
  - reflexivity.
Defined.

(** The RFC secret in lower case and in groups of four. *)
Lemma secret_spelling_witness :
  ValidateSecret (Secret (self (rfc_hotp 0)))
  = ValidateSecret "gezd gnbv gy3t qojq gezd gnbv gy3t qojq" /\
  forall counter,
    fst (generateOTP counter (rfc_hotp 0))
    = fst (generateOTP counter
             {| self := with_Secret (self (rfc_hotp 0))
                          "gezd gnbv gy3t qojq gezd gnbv gy3t qojq";
                clock := fun _ => 0 |}).
Proof.
  refine (secret_spelling (rfc_hotp 0)
            {| self := with_Secret (self (rfc_hotp 0))
                         "gezd gnbv gy3t qojq gezd gnbv gy3t qojq";
               clock := fun _ => 0 |} _ _ _ _ _).
  - vm_compute; reflexivity.
  - vm_compute; reflexivity.
  - vm_compute; reflexivity.
  - reflexivity.
  - reflexivity.
Defined.

Lemma QRCodeURL_data_witness :
  exists url q q',
    OTPAuthURL example_totp = (Ret (url, None), example_totp) /\
    QRCodeURLWithCustomSize 300 example_totp
    = (Ret (("https://api.qrserver.com/v1/create-qr-code/?" ++ q)%string,
            None), example_totp) /\
    QRCodeURLQuickChart example_totp
    = (Ret (("https://quickchart.io/qr?" ++ q')%string, None),
       example_totp) /\
    let s := Strconv.Itoa (if 300 <=? 0 then 200 else 300) in
    Url.ParseQuery q = [("size", (s ++ "x" ++ s)%string); ("data", url)] /\
    Url.Get "data" (Url.ParseQuery q) = url /\
    Url.ParseQuery q' = [("text", url); ("size", "200")] /\
    Url.Get "text" (Url.ParseQuery q') = url.
Proof.
  refine (QRCodeURL_data example_totp 300 _ _); discriminate.
Defined.
